(** * TiProxy balance factors: FactorHealth and FactorCPU

    A shallow embedding of [pkg/balance/factor/factor_health.go] and
    [pkg/balance/factor/factor_cpu.go], and the properties of the two
    factors: how they classify and score backends, what they keep
    between passes, and how many connections they ask to migrate.

    - Go's [int] is the 64-bit two's complement integer, carried as [Z]
      with the wrap-around of every addition and subtraction written out.
    - Go's [float64] is IEEE 754 binary64, carried by Rocq's primitive
      [float] (same format, round to nearest even).  Products and sums
      are rounded one by one, as the amd64 compiler emits them (no fused
      multiply-add).  Where [int(f)] has no representable result Go
      leaves it to the implementation: it is the parameter
      [unrepresentable].
    - A Go [map[string]T] is a [gmap string T]; the order in which
      [range] visits it is a parameter, [rangeOrder].
    - The monotonic clock is an oracle: [clock n] is what the [n]-th call
      of [monotime.Since] of a run reads.  Functions that look at the
      clock are written in the state monad [M] that counts the readings,
      so a pass may see the clock advance between two backends.
    - Everything the two files import from packages that are not part of
      the sources at hand (the metrics reader, the scored backend) is a
      record of the fields and results the two files use. *)

From Stdlib Require Import ZArith Floats Lia Bool.
From stdpp Require Import gmap strings list fin_maps.

#[local] Set Warnings "-inexact-float".
#[local] Open Scope Z_scope.

(** ** Machine integers *)

Module Int64.
Definition min_int : Z := - 2 ^ 63.
Definition max_int : Z := 2 ^ 63 - 1.

(** Two's complement reduction of a mathematical integer. *)
Definition wrap (z : Z) : Z := (z + 2 ^ 63) mod 2 ^ 64 - 2 ^ 63.

Definition add (a b : Z) : Z := wrap (a + b).
Definition sub (a b : Z) : Z := wrap (a - b).
(** Go's [/] on integers truncates toward zero. *)
Definition quot (a b : Z) : Z := wrap (Z.quot a b).

Definition in_range (z : Z) : bool := (min_int <=? z) && (z <=? max_int).
End Int64.

Module Uint64.
(** [uint64(x)] of an [int], and the reduction of a shifted word. *)
Definition wrap (z : Z) : Z := z mod 2 ^ 64.
End Uint64.

(** ** Floating point *)

Module Float64.
(** [math.IsNaN(f)] is [f != f]. *)
Definition IsNaN (f : float) : bool := negb (PrimFloat.eqb f f).

(** [float64(n)] of an integer: the nearest binary64, ties to even. *)
Definition of_int (n : Z) : float :=
  SF2Prim (binary_normalize prec emax n 0 false).

(** The integer part of a finite float (the fraction is discarded,
    toward zero); [None] for NaN and the infinities. *)
Definition trunc (f : float) : option Z :=
  match Prim2SF f with
  | S754_zero _ => Some 0
  | S754_finite s m e => Some (cond_Zopp s (Z.shiftl (Z.pos m) e))
  | S754_infinity _ | S754_nan => None
  end.


(** [int(f)]: truncation toward zero.  When the truncated value does
    not fit an [int] (or [f] is NaN or infinite) Go leaves the result
    to the implementation; [unrepresentable f] stands for it. *)
Definition to_int (unrepresentable : float -> Z) (f : float) : Z :=
  match trunc f with
  | Some z => if Int64.in_range z then z else unrepresentable f
  | None => unrepresentable f
  end.
End Float64.

(** ** Time *)

Module time.
Definition Nanosecond : Z := 1.
Definition Second : Z := 1000000000 * Nanosecond.
Definition Minute : Z := 60 * Second.
End time.

(** The clock-reading monad: a computation takes the number of readings
    made so far and returns its result with the new count. *)
Definition M (A : Type) : Type := nat -> A * nat.

#[global] Instance M_ret : MRet M := fun A a n => (a, n).
#[global] Instance M_bind : MBind M :=
  fun A B (f : A -> M B) (m : M A) n => let '(a, n') := m n in f a n'.

(** A [for ... range] loop whose body reads the clock. *)
Fixpoint forM {A S : Type} (body : S -> A -> M S) (l : list A) (s : S) : M S :=
  match l with
  | [] => mret s
  | x :: l => s' ← body s x; forM body l s'
  end.

Module monotime.
(** Modelled from the spec: package [monotime] is not among the sources
    at hand.  [monotime.Time] and [time.Duration] are both [int64]
    nanoseconds; [Since t] is the age of [t], the current reading of the
    clock minus [t]. *)
Definition Since (clock : nat -> Z) (t : Z) : M Z :=
  fun n => (Int64.sub (clock n) t, S n).
End monotime.

(** ** What the factors use of the other packages *)

Module model.
(** [model.SamplePair] and [model.Sample] of the Prometheus client:
    [model.SampleValue] is a [float64]. *)
Module SamplePair.
Record t := { Timestamp : Z; Value : float }.
End SamplePair.
Module Sample.
Record t := { Timestamp : Z; Value : float }.
End Sample.
End model.

(** Modelled from the spec: [scoredBackend] is declared outside the
    sources at hand.  A backend has an address, a connection count, a
    connection score and the composite score built during a pass; the
    fields [Addr], [ConnCount] and [ConnScore] are the results of the
    methods of these names. *)
Record scoredBackend := {
  Addr : string;
  ConnCount : Z;
  ConnScore : Z;
  scoreBits : Z
}.

(** Modelled from the spec: [scoredBackend.addScore] is declared outside
    the given sources.  "[A Factor] folds it into that backend's composite
    score by shifting the accumulator left by [ScoreBitNum] bits and
    OR-ing in the new value"; the accumulator is a [uint64]. *)
Definition addScore (b : scoredBackend) (score bitNum : Z) : scoredBackend :=
  {| Addr := Addr b; ConnCount := ConnCount b; ConnScore := ConnScore b;
     scoreBits :=
       Z.lor (Uint64.wrap (Z.shiftl (scoreBits b) bitNum)) (Uint64.wrap score) |}.

Module metricsreader.
Record QueryExpr := {
  PromQL : string;
  HasLabel : bool;
  Range : Z
}.

(** Modelled from the spec: package [metricsreader] is not among the
    sources at hand.  A [QueryResult] exposes an error ([Err] is
    [qr.Err != nil]), an emptiness predicate, an update time, and, for a
    backend, a window of recent samples or a single latest sample
    ([None] for [nil]). *)
Record QueryResult := {
  Err : bool;
  Empty : bool;
  UpdateTime : Z;
  GetSamplePair4Backend : scoredBackend -> list model.SamplePair.t;
  GetSample4Backend : scoredBackend -> option model.Sample.t
}.

(** The zero value [QueryResult{}]. *)
Definition zero : QueryResult :=
  {| Err := false; Empty := true; UpdateTime := 0;
     GetSamplePair4Backend := fun _ => [];
     GetSample4Backend := fun _ => None |}.

(** What [mr.GetQueryResult] answers for each query ID during a pass. *)
Definition MetricsReader : Type := Z -> QueryResult.
End metricsreader.

(** ** factor_health.go *)

Definition errMetricExpDuration : Z := 1 * time.Minute.
(** The time (in seconds) to migrate all the connections. *)
Definition balanceSeconds4Health : float := 5.0%float.

Inductive valueRange :=
  | valueRangeNormal     (* (-inf, recoverThreshold] *)
  | valueRangeMid        (* (recoverThreshold, failThreshold) *)
  | valueRangeAbnormal.  (* [failThreshold, +inf) *)

(** The [iota] ordinal of a range: [int(vr)]. *)
Definition valueRange_int (vr : valueRange) : Z :=
  match vr with
  | valueRangeNormal => 0
  | valueRangeMid => 1
  | valueRangeAbnormal => 2
  end.

Module errDefinition.
Record t := {
  promQL : string;
  failThreshold : Z;
  recoverThreshold : Z
}.
End errDefinition.

Definition dquote : string := String (Ascii.ascii_of_nat 34) EmptyString.

Definition errDefinitions : list errDefinition.t :=
  [ {| errDefinition.promQL :=
         "sum(increase(tidb_tikvclient_backoff_seconds_count{type=" +:+ dquote
         +:+ "pdRPC" +:+ dquote +:+ "}[2m])) by (instance)";
       errDefinition.failThreshold := 50;
       errDefinition.recoverThreshold := 10 |};
    {| errDefinition.promQL :=
         "sum(increase(tidb_tikvclient_backoff_seconds_count{type=~" +:+ dquote
         +:+ "regionMiss|tikvRPC" +:+ dquote +:+ "}[2m])) by (instance)";
       errDefinition.failThreshold := 1000;
       errDefinition.recoverThreshold := 100 |} ].

(** The snapshot of backend statistics when the metric was updated. *)
Module healthBackendSnapshot.
Record t := {
  updatedTime : Z;
  valueRange : valueRange;
  (* the balance count recorded when the backend becomes unhealthy *)
  balanceCount : float
}.
(** The zero value, which a map lookup of a missing key returns. *)
Definition zero : t :=
  {| updatedTime := 0; valueRange := valueRangeNormal; balanceCount := 0%float |}.
End healthBackendSnapshot.

Module errIndicator.
Record t := {
  queryExpr : metricsreader.QueryExpr;
  queryResult : metricsreader.QueryResult;
  queryID : Z;
  failThreshold : Z;
  recoverThreshold : Z
}.
Definition set_queryResult (i : t) (qr : metricsreader.QueryResult) : t :=
  {| queryExpr := queryExpr i; queryResult := qr; queryID := queryID i;
     failThreshold := failThreshold i; recoverThreshold := recoverThreshold i |}.
End errIndicator.

Section CalcValueRange.
Variable unrepresentable : float -> Z.

Definition calcValueRange (sample : option model.Sample.t)
    (indicator : errIndicator.t) : valueRange :=
  match sample with
  (* A backend is typically normal, so if its metric misses, take it as normal. *)
  | None => valueRangeNormal
  | Some sample =>
      if Float64.IsNaN (model.Sample.Value sample) then valueRangeNormal
      else
        let value := Float64.to_int unrepresentable (model.Sample.Value sample) in
        if errIndicator.failThreshold indicator >? errIndicator.recoverThreshold indicator
        then
          if value <=? errIndicator.recoverThreshold indicator then valueRangeNormal
          else if value >=? errIndicator.failThreshold indicator then valueRangeAbnormal
          else valueRangeMid
        else
          if value >=? errIndicator.recoverThreshold indicator then valueRangeNormal
          else if value <=? errIndicator.failThreshold indicator then valueRangeAbnormal
          else valueRangeMid
  end.
End CalcValueRange.

Module FactorHealth.
Record t := {
  snapshot : gmap string healthBackendSnapshot.t;
  indicators : list errIndicator.t;
  bitNum : Z
}.

Definition set_snapshot (fh : t) (s : gmap string healthBackendSnapshot.t) : t :=
  {| snapshot := s; indicators := indicators fh; bitNum := bitNum fh |}.
Definition set_indicators (fh : t) (l : list errIndicator.t) : t :=
  {| snapshot := snapshot fh; indicators := l; bitNum := bitNum fh |}.

(** [initErrIndicator]: one indicator per definition; [AddQueryExpr] is
    the reader's answer (the query ID) to each registration. *)
Definition initErrIndicator (AddQueryExpr : metricsreader.QueryExpr -> Z)
    : list errIndicator.t :=
  map (fun def =>
         let expr := {| metricsreader.PromQL := errDefinition.promQL def;
                        metricsreader.HasLabel := false;
                        metricsreader.Range := 0 |} in
         {| errIndicator.queryExpr := expr;
            errIndicator.queryResult := metricsreader.zero;
            errIndicator.queryID := AddQueryExpr expr;
            errIndicator.failThreshold := errDefinition.failThreshold def;
            errIndicator.recoverThreshold := errDefinition.recoverThreshold def |})
      errDefinitions.

Definition NewFactorHealth (AddQueryExpr : metricsreader.QueryExpr -> Z) : t :=
  {| snapshot := ∅; indicators := initErrIndicator AddQueryExpr; bitNum := 2 |}.

Section Methods.
Variable clock : nat -> Z.
Variable unrepresentable : float -> Z.

(** The inner loop of [updateSnapshot]: the current value range of
    one backend over the indicators whose metrics are fresh. *)
Definition currentRange (backend : scoredBackend) (indicators : list errIndicator.t)
    : M (Z * valueRange) :=
  forM (fun '(updatedTime, valueRange) indicator =>
          let ts := metricsreader.UpdateTime (errIndicator.queryResult indicator) in
          d ← monotime.Since clock ts;
          if d >? errMetricExpDuration then
            (* The metrics have not been updated for a long time. *)
            mret (updatedTime, valueRange)
          else
            let updatedTime := if ts >? updatedTime then ts else updatedTime in
            let sample :=
              metricsreader.GetSample4Backend (errIndicator.queryResult indicator) backend in
            let vr := calcValueRange unrepresentable sample indicator in
            let valueRange :=
              if valueRange_int vr >? valueRange_int valueRange then vr else valueRange in
            mret (updatedTime, valueRange))
       indicators (0, valueRangeNormal).

Definition updateSnapshot (fh : t) (backends : list scoredBackend) : M t :=
  snapshots ←
    forM (fun (snapshots : gmap string healthBackendSnapshot.t) backend =>
            (* Get the current value range. *)
            '(updatedTime, valueRange) ← currentRange backend (indicators fh);
            (* If the metric is unavailable, try to reuse the latest one. *)
            let addr := Addr backend in
            let existSnapshot := snapshot fh !! addr in
            if updatedTime =? 0 then
              match existSnapshot with
              | Some snapshot =>
                  d ← monotime.Since clock (healthBackendSnapshot.updatedTime snapshot);
                  if d <? errMetricExpDuration
                  then mret (<[addr := snapshot]> snapshots)
                  else mret snapshots
              | None => mret snapshots
              end
            else
              (* Set balance count if the backend is unhealthy, otherwise reset it to 0. *)
              let balanceCount :=
                if valueRange_int valueRange >=? valueRange_int valueRangeAbnormal then
                  match existSnapshot with
                  | Some snapshot =>
                      if (0.0001 <? healthBackendSnapshot.balanceCount snapshot)%float
                      then healthBackendSnapshot.balanceCount snapshot
                      else (Float64.of_int (ConnScore backend) / balanceSeconds4Health)%float
                  | None =>
                      (Float64.of_int (ConnScore backend) / balanceSeconds4Health)%float
                  end
                else 0%float in
              mret (<[addr := {| healthBackendSnapshot.updatedTime := updatedTime;
                                 healthBackendSnapshot.valueRange := valueRange;
                                 healthBackendSnapshot.balanceCount := balanceCount |}]>
                      snapshots))
         backends ∅;
  mret (set_snapshot fh snapshots).

Definition caclErrScore (fh : t) (addr : string) : Z :=
  (* If the backend has no metrics (not in snapshot), take it as healthy. *)
  valueRange_int
    (healthBackendSnapshot.valueRange
       (default healthBackendSnapshot.zero (snapshot fh !! addr))).

Definition ScoreBitNum (fh : t) : Z := bitNum fh.

(** The first loop of [UpdateScore]: fetch every indicator's result,
    keep the new ones, and note the latest update time. *)
Fixpoint fetchResults (mr : metricsreader.MetricsReader)
    (indicators : list errIndicator.t) (needUpdateSnapshot : bool) (latestTime : Z)
    : list errIndicator.t * bool * Z :=
  match indicators with
  | [] => ([], needUpdateSnapshot, latestTime)
  | indicator :: rest =>
      let qr := mr (errIndicator.queryID indicator) in
      if metricsreader.Err qr || metricsreader.Empty qr then
        let '(rest, need, latest) := fetchResults mr rest needUpdateSnapshot latestTime in
        (indicator :: rest, need, latest)
      else
        let changed :=
          negb (metricsreader.UpdateTime (errIndicator.queryResult indicator)
                =? metricsreader.UpdateTime qr) in
        let indicator :=
          if changed then errIndicator.set_queryResult indicator qr else indicator in
        let needUpdateSnapshot := changed || needUpdateSnapshot in
        let latestTime :=
          if metricsreader.UpdateTime qr >? latestTime
          then metricsreader.UpdateTime qr else latestTime in
        let '(rest, need, latest) := fetchResults mr rest needUpdateSnapshot latestTime in
        (indicator :: rest, need, latest)
  end.

Definition UpdateScore (mr : metricsreader.MetricsReader) (fh : t)
    (backends : list scoredBackend) : M (t * list scoredBackend) :=
  if Z.of_nat (length backends) <=? 1 then mret (fh, backends)
  else
    let '(indicators, needUpdateSnapshot, latestTime) :=
      fetchResults mr (indicators fh) false 0 in
    let fh := set_indicators fh indicators in
    d ← monotime.Since clock latestTime;
    if d >? errMetricExpDuration then
      (* The metrics have not been updated for a long time. *)
      mret (fh, backends)
    else
      fh ← (if needUpdateSnapshot then updateSnapshot fh backends else mret fh);
      mret (fh, map (fun b => addScore b (caclErrScore fh (Addr b)) (bitNum fh)) backends).

Definition BalanceCount (fh : t) (from to : scoredBackend) : float :=
  (* Only migrate connections when one is valueRangeNormal and the other is valueRangeAbnormal. *)
  let fromScore := caclErrScore fh (Addr from) in
  let toScore := caclErrScore fh (Addr to) in
  if Int64.sub fromScore toScore <=? 1 then 0%float
  else healthBackendSnapshot.balanceCount
         (default healthBackendSnapshot.zero (snapshot fh !! Addr from)).
End Methods.

Definition Name (fh : t) : string := "health".

(** [SetConfig] has an empty body: whatever the configuration, the
    factor is as it was. *)
Definition SetConfig {Config : Type} (fh : t) (cfg : Config) : t := fh.

(** [Close] calls [mr.RemoveQueryExpr] once per indicator: the query IDs
    it hands over, in the order of the calls. *)
Definition Close (fh : t) : list Z :=
  map (fun indicator => errIndicator.queryID indicator) (indicators fh).
End FactorHealth.

(** ** factor_cpu.go *)

Definition cpuEwmaAlpha : float := 0.5%float.
(** If some metrics are missing, the old one is used for no longer than this. *)
Definition cpuMetricExpDuration : Z := 2 * time.Minute.
Definition cpuScoreStep : Z := 5.
(** 0.001 represents for 0.1% *)
Definition minCpuPerConn : float := 0.001%float.
Definition cpuBalancedRatio : float := 1.2%float.
Definition balanceRatio4Cpu : float := 600%float.

Module cpuBackendSnapshot.
Record t := {
  updatedTime : Z;
  (* smoothed CPU usage, used to decide whether to migrate *)
  avgUsage : float;
  (* timely CPU usage, used to score and decide the balance count *)
  latestUsage : float;
  connCount : Z
}.
End cpuBackendSnapshot.

(** One turn of the loop of [calcAvgUsage]. *)
Definition calcAvgUsage_step (acc : float * float) (usage : model.SamplePair.t)
    : float * float :=
  let '(avgUsage, latestUsage) := acc in
  let value := model.SamplePair.Value usage in
  if Float64.IsNaN value then (avgUsage, latestUsage)
  else
    let latestUsage := value in
    let avgUsage :=
      if (avgUsage <? 0)%float then value
      else (avgUsage * (1 - cpuEwmaAlpha) + value * cpuEwmaAlpha)%float in
    (avgUsage, latestUsage).

Definition calcAvgUsage (usageHistory : list model.SamplePair.t) : float * float :=
  let '(avgUsage, latestUsage) := ((-1)%float, (-1)%float) in
  if Z.of_nat (length usageHistory) =? 0 then (avgUsage, latestUsage)
  else
    (* The CPU usage may jitter, so use the EWMA algorithm to make it smooth. *)
    let '(avgUsage, latestUsage) :=
      fold_left calcAvgUsage_step usageHistory (avgUsage, latestUsage) in
    let avgUsage := if (1 <? avgUsage)%float then 1%float else avgUsage in
    (avgUsage, latestUsage).

Module FactorCPU.
Record t := {
  (* The snapshot of backend statistics when the matrix was updated. *)
  snapshot : gmap string cpuBackendSnapshot.t;
  (* The updated time of the metric that we've read last time. *)
  lastMetricTime : Z;
  (* The estimated average CPU usage used by one connection. *)
  usagePerConn : float;
  queryID : Z;
  bitNum : Z
}.

Definition set_snapshot (fc : t) (s : gmap string cpuBackendSnapshot.t) : t :=
  {| snapshot := s; lastMetricTime := lastMetricTime fc;
     usagePerConn := usagePerConn fc; queryID := queryID fc; bitNum := bitNum fc |}.
Definition set_lastMetricTime (fc : t) (ts : Z) : t :=
  {| snapshot := snapshot fc; lastMetricTime := ts;
     usagePerConn := usagePerConn fc; queryID := queryID fc; bitNum := bitNum fc |}.
Definition set_usagePerConn (fc : t) (u : float) : t :=
  {| snapshot := snapshot fc; lastMetricTime := lastMetricTime fc;
     usagePerConn := u; queryID := queryID fc; bitNum := bitNum fc |}.

Definition cpuQueryExpr : metricsreader.QueryExpr :=
  {| metricsreader.PromQL :=
       "irate(process_cpu_seconds_total{%s=" +:+ dquote +:+ "tidb" +:+ dquote
       +:+ "}[30s])/tidb_server_maxprocs";
     metricsreader.HasLabel := true;
     metricsreader.Range := 1 * time.Minute |}.

Definition NewFactorCPU (AddQueryExpr : metricsreader.QueryExpr -> Z) : t :=
  {| snapshot := ∅; lastMetricTime := 0; usagePerConn := 0%float;
     queryID := AddQueryExpr cpuQueryExpr; bitNum := 5 |}.

Section Methods.
Variable clock : nat -> Z.
Variable unrepresentable : float -> Z.
(** Go leaves the order in which [range] visits a map unspecified:
    [rangeOrder m] is the order of the visit of [m]. *)
Variable rangeOrder : gmap string cpuBackendSnapshot.t -> list cpuBackendSnapshot.t.

Definition updateSnapshot (fc : t) (qr : metricsreader.QueryResult)
    (backends : list scoredBackend) : M t :=
  snapshots ←
    forM (fun (snapshots : gmap string cpuBackendSnapshot.t) backend =>
            let addr := Addr backend in
            (* If a backend exists in metrics but not in the backend list,
               ignore it for this round. *)
            let pairs := metricsreader.GetSamplePair4Backend qr backend in
            let '(snapshots, valid) :=
              if Z.of_nat (length pairs) >? 0 then
                let '(avgUsage, latestUsage) := calcAvgUsage pairs in
                if (0 <=? avgUsage)%float then
                  (<[addr := {| cpuBackendSnapshot.avgUsage := avgUsage;
                                cpuBackendSnapshot.latestUsage := latestUsage;
                                cpuBackendSnapshot.connCount := ConnCount backend;
                                cpuBackendSnapshot.updatedTime :=
                                  metricsreader.UpdateTime qr |}]> snapshots, true)
                else (snapshots, false)
              else (snapshots, false) in
            (* Merge the old snapshot just in case some metrics have missed
               for a short period. *)
            if negb valid then
              match snapshot fc !! addr with
              | Some snapshot =>
                  d ← monotime.Since clock (cpuBackendSnapshot.updatedTime snapshot);
                  if d <? cpuMetricExpDuration
                  then mret (<[addr := snapshot]> snapshots)
                  else mret snapshots
              | None => mret snapshots
              end
            else mret snapshots)
         backends ∅;
  mret (set_snapshot fc snapshots).

(** The sums of the loop of [updateCpuPerConn]. *)
Definition sumUsage (backends : list cpuBackendSnapshot.t) : float * Z :=
  fold_left
    (fun '(totalUsage, totalConns) backend =>
       if (0 <? cpuBackendSnapshot.latestUsage backend)%float
          && (cpuBackendSnapshot.connCount backend >? 0)
       then ((totalUsage + cpuBackendSnapshot.latestUsage backend)%float,
             Int64.add totalConns (cpuBackendSnapshot.connCount backend))
       else (totalUsage, totalConns))
    backends (0%float, 0).

(** Estimate the average CPU usage used by one connection. *)
Definition updateCpuPerConn (fc : t) : t :=
  let '(totalUsage, totalConns) := sumUsage (rangeOrder (snapshot fc)) in
  let fc :=
    if totalConns >? 0 then
      let usagePerConn' := (totalUsage / Float64.of_int totalConns)%float in
      if (usagePerConn' <? minCpuPerConn)%float then
        (* If the average usage is below 10%, we take the cluster as
           just started and don't update usagePerConn. *)
        if (0.1 <? totalUsage / Float64.of_int (Z.of_nat (size (snapshot fc))))%float
        then set_usagePerConn fc usagePerConn'
        else fc
      else set_usagePerConn fc usagePerConn'
    else fc in
  if (usagePerConn fc <=? 0)%float then set_usagePerConn fc minCpuPerConn else fc.

(** Estimate the current cpu usage by the latest CPU usage, the latest
    connection count, and the current connection count. *)
Definition getUsage (fc : t) (backend : scoredBackend) : float * float :=
  (* the named results start at their zero value *)
  let '(avgUsage, latestUsage) := (0%float, 0%float) in
  match snapshot fc !! Addr backend with
  | None => (1%float, 1%float)
  | Some snapshot =>
      if (cpuBackendSnapshot.avgUsage snapshot <? 0)%float || (latestUsage <? 0)%float
      then (* The metric has missed for minutes. *) (1%float, 1%float)
      else
        let avgUsage := cpuBackendSnapshot.avgUsage snapshot in
        let latestUsage :=
          (cpuBackendSnapshot.latestUsage snapshot
           + Float64.of_int
               (Int64.sub (ConnScore backend) (cpuBackendSnapshot.connCount snapshot))
             * usagePerConn fc)%float in
        let latestUsage := if (1 <? latestUsage)%float then 1%float else latestUsage in
        (avgUsage, latestUsage)
  end.

(** The sub-score [UpdateScore] gives a backend. *)
Definition cpuScore (fc : t) (backend : scoredBackend) : Z :=
  let '(_, latestUsage) := getUsage fc backend in
  Int64.quot (Float64.to_int unrepresentable (latestUsage * 100)%float) cpuScoreStep.

Definition UpdateScore (mr : metricsreader.MetricsReader) (fc : t)
    (backends : list scoredBackend) : M (t * list scoredBackend) :=
  if Z.of_nat (length backends) <=? 1 then mret (fc, backends)
  else
    let qr := mr (queryID fc) in
    if metricsreader.Err qr || metricsreader.Empty qr then mret (fc, backends)
    else
      fc ← (if negb (metricsreader.UpdateTime qr =? lastMetricTime fc) then
              (* Metrics have updated. *)
              let fc := set_lastMetricTime fc (metricsreader.UpdateTime qr) in
              fc ← updateSnapshot fc qr backends;
              mret (updateCpuPerConn fc)
            else mret fc);
      d ← monotime.Since clock (lastMetricTime fc);
      if d >? cpuMetricExpDuration then
        (* The metrics have not been updated for a long time. *)
        mret (fc, backends)
      else
        mret (fc, map (fun b => addScore b (cpuScore fc b) (bitNum fc)) backends).

Definition ScoreBitNum (fc : t) : Z := bitNum fc.

Definition BalanceCount (fc : t) (from to : scoredBackend) : Z :=
  let '(fromAvgUsage, fromLatestUsage) := getUsage fc from in
  let '(toAvgUsage, toLatestUsage) := getUsage fc to in
  (* The higher the CPU usage, the more sensitive the load balance should be. *)
  if ((1.3 - fromAvgUsage) * cpuBalancedRatio <? 1.3 - toAvgUsage)%float
     && ((1.3 - fromLatestUsage) * cpuBalancedRatio <? 1.3 - toLatestUsage)%float
  then
    let balanceCount :=
      Float64.to_int unrepresentable (1 / usagePerConn fc / balanceRatio4Cpu)%float in
    if balanceCount >? 1 then balanceCount else 1
  else 0.
End Methods.

Definition Name (fc : t) : string := "cpu".

(** [SetConfig] has an empty body. *)
Definition SetConfig {Config : Type} (fc : t) (cfg : Config) : t := fc.

(** [Close] calls [mr.RemoveQueryExpr] once, on the factor's query ID. *)
Definition Close (fc : t) : list Z := [queryID fc].
End FactorCPU.

(** ** Notions the statements use *)

(** The range the factor holds for an address: the snapshot's, or the
    zero value (Normal) when the address has no snapshot. *)
Definition rangeOf (fh : FactorHealth.t) (addr : string) : valueRange :=
  healthBackendSnapshot.valueRange
    (default healthBackendSnapshot.zero (FactorHealth.snapshot fh !! addr)).

(** The balance count the factor holds for an address. *)
Definition pendingOf (fh : FactorHealth.t) (addr : string) : float :=
  healthBackendSnapshot.balanceCount
    (default healthBackendSnapshot.zero (FactorHealth.snapshot fh !! addr)).

(** The update time the health factor compares with the clock: the
    latest over the results that carry no error and are not empty. *)
Definition health_latestTime (mr : metricsreader.MetricsReader) (fh : FactorHealth.t) : Z :=
  (FactorHealth.fetchResults mr (FactorHealth.indicators fh) false 0).2.

(** A usage in the unit interval [0, 1] (so not NaN). *)
Definition in_unit (x : float) : Prop :=
  (0 <=? x)%float = true /\ (x <=? 1)%float = true.

(** The last sample value of a window that is not NaN. *)
Definition last_sample (pairs : list model.SamplePair.t) : option float :=
  last (List.filter (fun v => negb (Float64.IsNaN v)) (model.SamplePair.Value <$> pairs)).

(** The snapshot [updateSnapshot] stores for a backend with a window of
    samples whose smoothed usage is not negative. *)
Definition cpu_fresh_snapshot (qr : metricsreader.QueryResult) (backend : scoredBackend)
    : cpuBackendSnapshot.t :=
  let usage := calcAvgUsage (metricsreader.GetSamplePair4Backend qr backend) in
  {| cpuBackendSnapshot.avgUsage := usage.1;
     cpuBackendSnapshot.latestUsage := usage.2;
     cpuBackendSnapshot.connCount := ConnCount backend;
     cpuBackendSnapshot.updatedTime := metricsreader.UpdateTime qr |}.

(** The balance count [updateSnapshot] records for a backend it finds
    in the range [vr], given the snapshot it held for the address. *)
Definition health_balanceCount (old : option healthBackendSnapshot.t) (vr : valueRange)
    (backend : scoredBackend) : float :=
  if valueRange_int vr >=? valueRange_int valueRangeAbnormal then
    match old with
    | Some snapshot =>
        if (0.0001 <? healthBackendSnapshot.balanceCount snapshot)%float
        then healthBackendSnapshot.balanceCount snapshot
        else (Float64.of_int (ConnScore backend) / balanceSeconds4Health)%float
    | None => (Float64.of_int (ConnScore backend) / balanceSeconds4Health)%float
    end
  else 0%float.

(** What every stored health snapshot satisfies: a balance count that is
    not zero belongs to an Abnormal backend, and exceeds 0.0001. *)
Definition balanceCount_ok (s : healthBackendSnapshot.t) : Prop :=
  ((healthBackendSnapshot.balanceCount s =? 0)%float = false ->
   healthBackendSnapshot.valueRange s = valueRangeAbnormal)
  /\ ((healthBackendSnapshot.balanceCount s =? 0)%float = true
      \/ (0.0001 <? healthBackendSnapshot.balanceCount s)%float = true).

(** Every snapshot of the factor satisfies [balanceCount_ok]. *)
Definition snapshot_ok (fh : FactorHealth.t) : Prop :=
  forall addr s, FactorHealth.snapshot fh !! addr = Some s -> balanceCount_ok s.

(** Connection scores count connections: none is negative. *)
Definition valid_backends (backends : list scoredBackend) : Prop :=
  Forall (fun b => 0 <= ConnScore b) backends.

(** The factors a run of scoring passes can reach from a new factor. *)
Inductive health_reachable (clock : nat -> Z) (u : float -> Z) : FactorHealth.t -> Prop :=
  | reachable_new AddQueryExpr :
      health_reachable clock u (FactorHealth.NewFactorHealth AddQueryExpr)
  | reachable_pass mr fh backends n :
      health_reachable clock u fh -> valid_backends backends ->
      health_reachable clock u (FactorHealth.UpdateScore clock u mr fh backends n).1.1.


(** ** Concrete data for the examples *)

(** The first predefined indicator (pdRPC backoffs: fail at 50, recover
    at 10), registered under the query ID 1. *)
Definition indicator_pdRPC : errIndicator.t :=
  {| errIndicator.queryExpr :=
       {| metricsreader.PromQL := "pdRPC"; metricsreader.HasLabel := false;
          metricsreader.Range := 0 |};
     errIndicator.queryResult := metricsreader.zero;
     errIndicator.queryID := 1;
     errIndicator.failThreshold := 50;
     errIndicator.recoverThreshold := 10 |}.

Definition sample_of (v : float) : model.Sample.t :=
  {| model.Sample.Timestamp := 0; model.Sample.Value := v |}.

Definition pair_of (v : float) : model.SamplePair.t :=
  {| model.SamplePair.Timestamp := 0; model.SamplePair.Value := v |}.

(** A clock that reads ten minutes at every call. *)
Definition clock_10min : nat -> Z := fun _ => 10 * time.Minute.

Definition backend_a : scoredBackend :=
  {| Addr := "a"; ConnCount := 10; ConnScore := 10; scoreBits := 0 |}.
Definition backend_b : scoredBackend :=
  {| Addr := "b"; ConnCount := 10; ConnScore := 10; scoreBits := 0 |}.

(** A CPU query result updated at minute 1 that reports the single
    usage sample [v] for every backend. *)
Definition cpu_result (v : float) : metricsreader.QueryResult :=
  {| metricsreader.Err := false; metricsreader.Empty := false;
     metricsreader.UpdateTime := 1 * time.Minute;
     metricsreader.GetSamplePair4Backend := fun _ => [pair_of v];
     metricsreader.GetSample4Backend := fun _ => None |}.

(** A visit of the map in the order of its keys. *)
Definition in_key_order (m : gmap string cpuBackendSnapshot.t) : list cpuBackendSnapshot.t :=
  (map_to_list m).*2.

(** A factor just made, registered under the query ID 1. *)
Definition new_cpu : FactorCPU.t := FactorCPU.NewFactorCPU (fun _ => 1).

(** A CPU query result updated at minute 9 that reports the single
    usage sample 0.1 for every backend. *)
Definition cpu_result_fresh : metricsreader.QueryResult :=
  {| metricsreader.Err := false; metricsreader.Empty := false;
     metricsreader.UpdateTime := 9 * time.Minute;
     metricsreader.GetSamplePair4Backend := fun _ => [pair_of 0.1%float];
     metricsreader.GetSample4Backend := fun _ => None |}.

(** Two backends with a thousand connections each, and the first of
    them after its connections have left. *)
Definition busy_a : scoredBackend :=
  {| Addr := "a"; ConnCount := 1000; ConnScore := 1000; scoreBits := 0 |}.
Definition busy_b : scoredBackend :=
  {| Addr := "b"; ConnCount := 1000; ConnScore := 1000; scoreBits := 0 |}.
Definition drained_a : scoredBackend :=
  {| Addr := "a"; ConnCount := 0; ConnScore := 0; scoreBits := 0 |}.

(** A health query result updated at [t]: backend "a" reports 60
    backoffs, every other backend 5. *)
Definition health_result (t : Z) : metricsreader.QueryResult :=
  {| metricsreader.Err := false; metricsreader.Empty := false;
     metricsreader.UpdateTime := t;
     metricsreader.GetSamplePair4Backend := fun _ => [];
     metricsreader.GetSample4Backend :=
       fun b => if String.eqb (Addr b) "a" then Some (sample_of 60%float)
                else Some (sample_of 5%float) |}.

(** A health factor just made, its two indicators registered under the
    query ID 1, and the factor after a first pass over the backends "a"
    and "b" (ten connections each) on a result updated at minute 9. *)
Definition new_health : FactorHealth.t := FactorHealth.NewFactorHealth (fun _ => 1).

Definition health_pass1 : FactorHealth.t * list scoredBackend * nat :=
  FactorHealth.UpdateScore clock_10min (fun _ => 0)
    (fun _ => health_result (9 * time.Minute)) new_health [backend_a; backend_b] 0%nat.

(** Backend "a" with four connections left. *)
Definition backend_a4 : scoredBackend :=
  {| Addr := "a"; ConnCount := 4; ConnScore := 4; scoreBits := 0 |}.

(** A second pass, on a newer result, over "a" with four connections. *)
Definition health_pass2 : FactorHealth.t * list scoredBackend * nat :=
  FactorHealth.UpdateScore clock_10min (fun _ => 0)
    (fun _ => health_result (9 * time.Minute + 30 * time.Second)) health_pass1.1.1
    [backend_a4; backend_b] health_pass1.2.

(** A CPU factor that holds the smoothed and latest usage 0.2 for "a"
    and 0.9 for "b", taken at their current connection counts. *)
Definition cpu_two_loads : FactorCPU.t :=
  {| FactorCPU.snapshot :=
       {[ "a" := {| cpuBackendSnapshot.updatedTime := 9 * time.Minute;
                    cpuBackendSnapshot.avgUsage := 0.2%float;
                    cpuBackendSnapshot.latestUsage := 0.2%float;
                    cpuBackendSnapshot.connCount := 10 |};
          "b" := {| cpuBackendSnapshot.updatedTime := 9 * time.Minute;
                    cpuBackendSnapshot.avgUsage := 0.9%float;
                    cpuBackendSnapshot.latestUsage := 0.9%float;
                    cpuBackendSnapshot.connCount := 10 |} ]};
     FactorCPU.lastMetricTime := 9 * time.Minute;
     FactorCPU.usagePerConn := 0.001%float;
     FactorCPU.queryID := 1;
     FactorCPU.bitNum := 5 |}.

(** A CPU factor that holds the latest usage [usage] at [conns]
    connections for "a" and for "b", with the usage per connection
    [previous]. *)
Definition cpu_even (usage : float) (conns : Z) (previous : float) : FactorCPU.t :=
  let snapshot :=
    {| cpuBackendSnapshot.updatedTime := 9 * time.Minute;
       cpuBackendSnapshot.avgUsage := usage;
       cpuBackendSnapshot.latestUsage := usage;
       cpuBackendSnapshot.connCount := conns |} in
  {| FactorCPU.snapshot := {[ "a" := snapshot; "b" := snapshot ]};
     FactorCPU.lastMetricTime := 9 * time.Minute;
     FactorCPU.usagePerConn := previous;
     FactorCPU.queryID := 1;
     FactorCPU.bitNum := 5 |}.

(** ** Notions of the properties of passes and runs *)

(** The query expression [initErrIndicator] registers for a definition. *)
Definition errQueryExpr (def : errDefinition.t) : metricsreader.QueryExpr :=
  {| metricsreader.PromQL := errDefinition.promQL def;
     metricsreader.HasLabel := false;
     metricsreader.Range := 0 |}.

(** One scoring pass as its caller sets it up: what the metrics reader
    answers during the pass, the backends with the composite scores
    built so far, and the number of clock readings made before it. *)
Record pass := {
  pass_reader : metricsreader.MetricsReader;
  pass_backends : list scoredBackend;
  pass_readings : nat
}.

(** The factor after a run of passes. *)
Definition health_run (clock : nat -> Z) (u : float -> Z) (passes : list pass)
    (fh : FactorHealth.t) : FactorHealth.t :=
  fold_left
    (fun fh p =>
       (FactorHealth.UpdateScore clock u (pass_reader p) fh (pass_backends p)
          (pass_readings p)).1.1)
    passes fh.

Definition cpu_run (clock : nat -> Z) (u : float -> Z)
    (order : gmap string cpuBackendSnapshot.t -> list cpuBackendSnapshot.t)
    (passes : list pass) (fc : FactorCPU.t) : FactorCPU.t :=
  fold_left
    (fun fc p =>
       (FactorCPU.UpdateScore clock u order (pass_reader p) fc (pass_backends p)
          (pass_readings p)).1.1)
    passes fc.

(** The reader has a result for the query: no error, and not empty. *)
Definition has_result (qr : metricsreader.QueryResult) : bool :=
  negb (metricsreader.Err qr || metricsreader.Empty qr).

(** The result an indicator holds is not older than a minute at the
    [k]-th reading of the clock. *)
Definition fresh_at (clock : nat -> Z) (k : nat) (indicator : errIndicator.t) : bool :=
  negb (Int64.sub (clock k) (metricsreader.UpdateTime (errIndicator.queryResult indicator))
        >? errMetricExpDuration).

(** The range an indicator gives a backend from the result it holds. *)
Definition indicatorRange (u : float -> Z) (backend : scoredBackend)
    (indicator : errIndicator.t) : valueRange :=
  calcValueRange u
    (metricsreader.GetSample4Backend (errIndicator.queryResult indicator) backend)
    indicator.

(** The window of a backend has a sample, and its smoothed usage is not
    negative: [updateSnapshot] stores a new snapshot for it. *)
Definition cpu_usable (qr : metricsreader.QueryResult) (backend : scoredBackend) : bool :=
  (Z.of_nat (length (metricsreader.GetSamplePair4Backend qr backend)) >? 0)
  && (0 <=? (calcAvgUsage (metricsreader.GetSamplePair4Backend qr backend)).1)%float.

(** An old snapshot merged at the [k]-th reading of the clock: kept
    while it is younger than [exp]. *)
Definition merged_at {V : Type} (clock : nat -> Z) (exp : Z) (updatedTime : V -> Z)
    (k : nat) (old : option V) : option V :=
  match old with
  | Some snapshot =>
      if Int64.sub (clock k) (updatedTime snapshot) <? exp then Some snapshot else None
  | None => None
  end.

(** An indicator with descending thresholds (a value that is low when
    the backend fails): fail at 10 or below, recover at 50 or above. *)
Definition indicator_descending : errIndicator.t :=
  {| errIndicator.queryExpr :=
       {| metricsreader.PromQL := "up"; metricsreader.HasLabel := false;
          metricsreader.Range := 0 |};
     errIndicator.queryResult := metricsreader.zero;
     errIndicator.queryID := 2;
     errIndicator.failThreshold := 10;
     errIndicator.recoverThreshold := 50 |}.

(** What the first loop of [FactorHealth.UpdateScore] does with one
    indicator: whether the reader has a result with another update time
    than the one the indicator holds, the indicator after taking it, and
    the later of the latest update time so far and the result's. *)
Definition has_news (mr : metricsreader.MetricsReader) (indicator : errIndicator.t) : bool :=
  let qr := mr (errIndicator.queryID indicator) in
  has_result qr
  && negb (metricsreader.UpdateTime (errIndicator.queryResult indicator)
           =? metricsreader.UpdateTime qr).

Definition refreshed (mr : metricsreader.MetricsReader) (indicator : errIndicator.t)
    : errIndicator.t :=
  if has_news mr indicator
  then errIndicator.set_queryResult indicator (mr (errIndicator.queryID indicator))
  else indicator.

Definition later_of (mr : metricsreader.MetricsReader) (latestTime : Z)
    (indicator : errIndicator.t) : Z :=
  let qr := mr (errIndicator.queryID indicator) in
  if has_result qr && (metricsreader.UpdateTime qr >? latestTime)
  then metricsreader.UpdateTime qr else latestTime.

(** What an indicator is made with: its query expression, the ID the
    reader gave it, and its thresholds. *)
Definition indicator_config (indicator : errIndicator.t)
    : metricsreader.QueryExpr * Z * Z * Z :=
  (errIndicator.queryExpr indicator, errIndicator.queryID indicator,
   errIndicator.failThreshold indicator, errIndicator.recoverThreshold indicator).

(** One turn of the inner loop of [FactorHealth.updateSnapshot] (the
    body of [FactorHealth.currentRange]). *)
Definition currentRange_step (clock : nat -> Z) (u : float -> Z) (backend : scoredBackend)
    : Z * valueRange -> errIndicator.t -> M (Z * valueRange) :=
  fun '(updatedTime, valueRange) indicator =>
    let ts := metricsreader.UpdateTime (errIndicator.queryResult indicator) in
    d ← monotime.Since clock ts;
    if d >? errMetricExpDuration then mret (updatedTime, valueRange)
    else
      let updatedTime := if ts >? updatedTime then ts else updatedTime in
      let sample :=
        metricsreader.GetSample4Backend (errIndicator.queryResult indicator) backend in
      let vr := calcValueRange u sample indicator in
      let valueRange :=
        if valueRange_int vr >? valueRange_int valueRange then vr else valueRange in
      mret (updatedTime, valueRange).

(** The entry [FactorCPU.updateSnapshot] leaves for a backend when it
    reads the clock for it at the [k]-th reading: a new snapshot from
    the window, or else the old snapshot while it is young enough. *)
Definition cpu_entry (clock : nat -> Z) (fc : FactorCPU.t) (qr : metricsreader.QueryResult)
    (backend : scoredBackend) (k : nat) : option cpuBackendSnapshot.t :=
  if cpu_usable qr backend then Some (cpu_fresh_snapshot qr backend)
  else merged_at clock cpuMetricExpDuration cpuBackendSnapshot.updatedTime k
         (FactorCPU.snapshot fc !! Addr backend).

(** The entry [FactorHealth.updateSnapshot] leaves for a backend when
    it starts on it at the [k]-th reading of the clock: with no fresh
    result (update time 0) the old snapshot while it is young enough,
    else a new snapshot with the range found and the balance count
    [health_balanceCount]. *)
Definition health_entry (clock : nat -> Z) (u : float -> Z) (fh : FactorHealth.t)
    (backend : scoredBackend) (k : nat) : option healthBackendSnapshot.t :=
  let '(updatedTime, vr) :=
    (FactorHealth.currentRange clock u backend (FactorHealth.indicators fh) k).1 in
  if updatedTime =? 0 then
    merged_at clock errMetricExpDuration healthBackendSnapshot.updatedTime
      (k + length (FactorHealth.indicators fh))
      (FactorHealth.snapshot fh !! Addr backend)
  else
    Some {| healthBackendSnapshot.updatedTime := updatedTime;
            healthBackendSnapshot.valueRange := vr;
            healthBackendSnapshot.balanceCount :=
              health_balanceCount (FactorHealth.snapshot fh !! Addr backend) vr backend |}.

(** [SFle_pos mc ec r]: the finite positive float of mantissa [mc] and
    exponent [ec] is at most [r], in the order [SFcompare] decides. *)
Definition SFle_pos (mc : positive) (ec : Z) (r : spec_float) : Prop :=
  r = S754_infinity false
  \/ exists m e, r = S754_finite false m e /\ (ec < e \/ (e = ec /\ (mc <= m)%positive)).

(** The order [SFcompare] puts on the finite floats of one sign: by
    exponent, then by mantissa. *)
Definition lex_compare (e1 : Z) (m1 : positive) (e2 : Z) (m2 : positive) : comparison :=
  match e1 ?= e2 with Lt => Lt | Gt => Gt | Eq => Pos.compare_cont Eq m1 m2 end.

(** A float that is zero or positive (with the sign bit clear), or
    plus infinity: not NaN, and not below zero. *)
Definition SFnonneg (x : spec_float) : Prop :=
  x = S754_zero false \/ x = S754_infinity false \/ exists m e, x = S754_finite false m e.

(** [SFbelow r mc ec]: [r] is zero or a finite positive float that is at
    most the one of mantissa [mc] and exponent [ec], in the order
    [SFcompare] decides. *)
Definition SFbelow (r : spec_float) (mc : positive) (ec : Z) : Prop :=
  r = S754_zero false
  \/ exists m e, r = S754_finite false m e /\ (e < ec \/ (e = ec /\ (m <= mc)%positive)).

(** * Properties *)

(** ** Machine integers *)

Lemma Int64_wrap_small (z : Z) :
  Int64.min_int <= z <= Int64.max_int -> Int64.wrap z = z.
Proof.
  unfold Int64.wrap, Int64.min_int, Int64.max_int. intros H.
  rewrite Z.mod_small; lia.
Qed.

Lemma valueRange_int_bounds (vr : valueRange) : 0 <= valueRange_int vr <= 2.
Proof. destruct vr; simpl; lia. Qed.

Lemma valueRange_int_inj (a b : valueRange) :
  valueRange_int a = valueRange_int b -> a = b.
Proof. destruct a, b; simpl; intros; congruence || lia. Qed.

(** ** Conversions of floats to integers *)

Lemma Float64_to_int_trunc u (f : float) (z : Z) :
  Float64.trunc f = Some z -> Int64.in_range z = true -> Float64.to_int u f = z.
Proof. intros Ht Hr. unfold Float64.to_int. now rewrite Ht, Hr. Qed.


(** ** The order of binary64 *)

Lemma SFcompare_antisym (x y : spec_float) :
  SFcompare y x = option_map CompOpp (SFcompare x y).
Proof.
  destruct x as [sx|sx| |sx mx ex], y as [sy|sy| |sy my ey]; simpl;
    try reflexivity; try (destruct sx; reflexivity); try (destruct sy; reflexivity);
    try (destruct sx, sy; reflexivity).
  destruct sx, sy; simpl; try reflexivity.
  - rewrite (Z.compare_antisym ey ex).
    destruct (ey ?= ex); simpl; try reflexivity.
    rewrite (Pos.compare_cont_antisym _ _ Eq). simpl. now rewrite CompOpp_involutive.
  - rewrite (Z.compare_antisym ey ex).
    destruct (ey ?= ex); simpl; try reflexivity.
    now rewrite (Pos.compare_cont_antisym _ _ Eq).
Qed.

Lemma SFcompare_refl (x : spec_float) : x <> S754_nan -> SFcompare x x = Some Eq.
Proof.
  destruct x as [s|s| |s m e]; simpl; intros H; try reflexivity; try congruence.
  - now destruct s.
  - rewrite Z.compare_refl. destruct s; now rewrite Pos.compare_cont_refl.
Qed.

Lemma SFcompare_None (x y : spec_float) :
  SFcompare x y = None <-> x = S754_nan \/ y = S754_nan.
Proof.
  destruct x as [sx|sx| |sx mx ex], y as [sy|sy| |sy my ey]; simpl;
    split; intros H; try discriminate; auto; try (destruct H; discriminate).
Qed.

Lemma IsNaN_spec (x : float) : Float64.IsNaN x = true <-> Prim2SF x = S754_nan.
Proof.
  unfold Float64.IsNaN. rewrite FloatAxioms.eqb_spec. unfold SFeqb.
  destruct (Prim2SF x) as [s|s| |s m e] eqn:E.
  all: try (rewrite SFcompare_refl by discriminate; simpl; split; intros; discriminate).
  simpl. split; reflexivity.
Qed.

Lemma IsNaN_false (x : float) : Float64.IsNaN x = false <-> Prim2SF x <> S754_nan.
Proof.
  rewrite <- IsNaN_spec. destruct (Float64.IsNaN x); split; intros; congruence.
Qed.

(** A comparison that holds has no NaN on either side. *)
Lemma float_leb_not_nan (x y : float) :
  (x <=? y)%float = true -> Float64.IsNaN x = false /\ Float64.IsNaN y = false.
Proof.
  rewrite leb_spec. unfold SFleb. rewrite !IsNaN_false.
  destruct (SFcompare (Prim2SF x) (Prim2SF y)) eqn:E; [|discriminate].
  intros _. split; intros H; assert (SFcompare (Prim2SF x) (Prim2SF y) = None)
    by (apply SFcompare_None; auto); congruence.
Qed.

Lemma float_ltb_not_nan (x y : float) :
  (x <? y)%float = true -> Float64.IsNaN x = false /\ Float64.IsNaN y = false.
Proof.
  rewrite ltb_spec. unfold SFltb. rewrite !IsNaN_false.
  destruct (SFcompare (Prim2SF x) (Prim2SF y)) eqn:E; [|discriminate].
  intros _. split; intros H; assert (SFcompare (Prim2SF x) (Prim2SF y) = None)
    by (apply SFcompare_None; auto); congruence.
Qed.

(** The order is total on what is not NaN. *)
Lemma float_ltb_false_leb (x y : float) :
  Float64.IsNaN x = false -> Float64.IsNaN y = false ->
  (x <? y)%float = false -> (y <=? x)%float = true.
Proof.
  rewrite !IsNaN_false, ltb_spec, leb_spec. unfold SFltb, SFleb.
  intros Hx Hy. rewrite (SFcompare_antisym (Prim2SF x) (Prim2SF y)).
  destruct (SFcompare (Prim2SF x) (Prim2SF y)) as [[| |]|] eqn:E; simpl;
    try reflexivity; try discriminate.
  apply SFcompare_None in E. tauto.
Qed.

Lemma float_ltb_leb (x y : float) : (x <? y)%float = true -> (x <=? y)%float = true.
Proof.
  rewrite ltb_spec, leb_spec. unfold SFltb, SFleb.
  now destruct (SFcompare (Prim2SF x) (Prim2SF y)) as [[| |]|].
Qed.

Lemma float_leb_ltb_false (x y : float) :
  (x <=? y)%float = true -> (y <? x)%float = false.
Proof.
  rewrite ltb_spec, leb_spec. unfold SFltb, SFleb.
  rewrite (SFcompare_antisym (Prim2SF x) (Prim2SF y)).
  now destruct (SFcompare (Prim2SF x) (Prim2SF y)) as [[| |]|].
Qed.

Lemma float_leb_refl (x : float) : Float64.IsNaN x = false -> (x <=? x)%float = true.
Proof.
  rewrite IsNaN_false, leb_spec. unfold SFleb. intros H.
  now rewrite SFcompare_refl.
Qed.

(** ** Rounding to binary64

    What [SpecFloat] computes for a mantissa of 53 bits or more away
    from the subnormal range: used for [float64(n)] of a connection
    score and its division by 5. *)

Lemma digits2_pos_size (p : positive) : digits2_pos p = Pos.size p.
Proof. induction p; simpl; congruence. Qed.

Lemma digits2_pos_log2 (p : positive) : Z.pos (digits2_pos p) = Z.log2 (Z.pos p) + 1.
Proof.
  destruct p; simpl; rewrite ?digits2_pos_size; try reflexivity; lia.
Qed.

Lemma shr_1_m (mrs : shr_record) :
  0 <= shr_m mrs -> shr_m (shr_1 mrs) = Z.div2 (shr_m mrs).
Proof.
  destruct mrs as [m r s]. simpl. destruct m as [|[p|p|]|p]; simpl; intros H;
    try reflexivity; lia.
Qed.

Lemma iter_shr_1_m (p : positive) : forall mrs : shr_record,
  0 <= shr_m mrs -> shr_m (SpecFloat.iter_pos shr_1 p mrs) = Z.shiftr (shr_m mrs) (Z.pos p).
Proof.
  induction p as [p IH|p IH|]; intros mrs Hm; simpl.
  - assert (H1 : 0 <= shr_m (shr_1 mrs)).
    { rewrite shr_1_m by assumption. rewrite Z.div2_spec. now apply Z.shiftr_nonneg. }
    assert (H2 : 0 <= shr_m (SpecFloat.iter_pos shr_1 p (shr_1 mrs))).
    { rewrite IH by assumption. now apply Z.shiftr_nonneg. }
    rewrite IH by assumption. rewrite IH by assumption.
    rewrite shr_1_m by assumption. rewrite Z.div2_spec.
    rewrite !Z.shiftr_shiftr by lia. f_equal. lia.
  - assert (H2 : 0 <= shr_m (SpecFloat.iter_pos shr_1 p mrs)).
    { rewrite IH by assumption. now apply Z.shiftr_nonneg. }
    rewrite IH by assumption. rewrite IH by assumption.
    rewrite !Z.shiftr_shiftr by lia. f_equal. lia.
  - rewrite shr_1_m by assumption. now rewrite Z.div2_spec.
Qed.

Lemma shr_record_of_loc_m (m : Z) (l : location) : shr_m (shr_record_of_loc m l) = m.
Proof. destruct l as [|[| |]]; reflexivity. Qed.

(** The mantissa [shr_fexp] leaves of one that has 53 bits or more has
    exactly 53 bits, and the exponent grows by the bits dropped. *)
Lemma shr_fexp_normal (pz : positive) (e : Z) (l : location) :
  53 <= Z.pos (digits2_pos pz) -> -1074 <= e ->
  exists mrs, shr_fexp prec emax (Z.pos pz) e l = (mrs, e + (Z.pos (digits2_pos pz) - 53))
              /\ Z.log2 (shr_m mrs) = 52.
Proof.
  intros HD He. unfold shr_fexp, shr, fexp, emin, Zdigits2.
  change (3 - emax - prec) with (-1074). change prec with 53.
  set (D := Z.pos (digits2_pos pz)) in *.
  replace (Z.max (D + e - 53) (-1074) - e) with (D - 53) by lia.
  assert (Hlog : Z.log2 (Z.pos pz) = D - 1) by (subst D; rewrite digits2_pos_log2; lia).
  destruct (D - 53) as [|k|k] eqn:Ek; try lia.
  - exists (shr_record_of_loc (Z.pos pz) l). split; [f_equal; lia|].
    rewrite shr_record_of_loc_m. lia.
  - exists (SpecFloat.iter_pos shr_1 k (shr_record_of_loc (Z.pos pz) l)). split; [reflexivity|].
    rewrite iter_shr_1_m by (rewrite shr_record_of_loc_m; lia).
    rewrite shr_record_of_loc_m, Z.log2_shiftr by lia. lia.
Qed.

Lemma loc_of_shr_record_of_loc m l : loc_of_shr_record (shr_record_of_loc m l) = l.
Proof. destruct l as [|[| |]]; reflexivity. Qed.

Lemma round_nearest_even_bounds (m : Z) (l : location) :
  m <= round_nearest_even m l <= m + 1.
Proof.
  unfold round_nearest_even. destruct l as [|[| |]]; try lia.
  destruct (Z.even m); lia.
Qed.

Lemma log2_52_pos (m : Z) : Z.log2 m = 52 -> 2 ^ 52 <= m < 2 ^ 53.
Proof.
  intros H. assert (0 < m).
  { destruct m; simpl in H; try discriminate; lia. }
  pose proof (Z.log2_spec m ltac:(assumption)) as Hs. rewrite H in Hs. exact Hs.
Qed.

(** Rounding a mantissa of 53 bits or more, away from the subnormal
    range, gives a normal number of the same sign, or overflows. *)
Lemma binary_round_aux_normal (sx : bool) (pz : positive) (ez : Z) (l : location) :
  53 <= Z.pos (digits2_pos pz) -> -1074 <= ez ->
  binary_round_aux prec emax sx (Z.pos pz) ez l = S754_infinity sx
  \/ exists m e, binary_round_aux prec emax sx (Z.pos pz) ez l = S754_finite sx m e
       /\ Z.pos (digits2_pos m) = 53
       /\ ez + (Z.pos (digits2_pos pz) - 53) <= e <= 971.
Proof.
  intros HD He. unfold binary_round_aux.
  destruct (shr_fexp_normal pz ez l HD He) as (mrs1 & -> & Hlog1).
  set (e1 := ez + (Z.pos (digits2_pos pz) - 53)).
  pose proof (log2_52_pos _ Hlog1) as Hm1.
  pose proof (round_nearest_even_bounds (shr_m mrs1) (loc_of_shr_record mrs1)) as Hr.
  destruct (round_nearest_even (shr_m mrs1) (loc_of_shr_record mrs1)) as [|p2|p2] eqn:E2;
    try lia.
  assert (HD2 : 53 <= Z.pos (digits2_pos p2)).
  { rewrite digits2_pos_log2.
    pose proof (Z.log2_le_mono (2 ^ 52) (Z.pos p2) ltac:(lia)) as Hmono.
    rewrite Z.log2_pow2 in Hmono by lia. lia. }
  destruct (shr_fexp_normal p2 e1 loc_Exact HD2 ltac:(subst e1; lia)) as (mrs2 & -> & Hlog2).
  pose proof (log2_52_pos _ Hlog2) as Hm2.
  destruct (shr_m mrs2) as [|m|m] eqn:E3; try lia.
  change (emax - prec) with 971.
  destruct (Z.leb_spec (e1 + (Z.pos (digits2_pos p2) - 53)) 971) as [Hle|Hgt].
  - right. eexists _, _. split; [reflexivity|]. split.
    + rewrite digits2_pos_log2, Hlog2. reflexivity.
    + subst e1. lia.
  - now left.
Qed.

Lemma digits2_pos_iter_xO (p k : positive) :
  Z.pos (digits2_pos (Pos.iter xO p k)) = Z.pos (digits2_pos p) + Z.pos k.
Proof.
  induction k as [|k IH] using Pos.peano_ind.
  - simpl. lia.
  - rewrite Pos.iter_succ. simpl digits2_pos. lia.
Qed.

(** [float64(n)] of a positive integer is a normal number at least 1
    (or overflows, for an [n] no [int] holds). *)
Lemma binary_normalize_pos (p : positive) :
  binary_normalize prec emax (Z.pos p) 0 false = S754_infinity false
  \/ exists m e, binary_normalize prec emax (Z.pos p) 0 false = S754_finite false m e
       /\ Z.pos (digits2_pos m) = 53 /\ -52 <= e <= 971.
Proof.
  unfold binary_normalize, binary_round, shl_align, fexp, emin.
  change (3 - emax - prec) with (-1074). change prec with 53.
  set (d := Z.pos (digits2_pos p)).
  assert (Hd : 1 <= d) by (subst d; lia).
  replace (Z.max (d + 0 - 53) (-1074) - 0) with (d - 53) by lia.
  replace (Z.max (d + 0 - 53) (-1074)) with (d - 53) by lia.
  destruct (d - 53) as [|k|k] eqn:Ek.
  - destruct (binary_round_aux_normal false p 0 loc_Exact) as [H|(m & e & H & Hm & He)];
      [fold d; lia | lia | now left |].
    right. exists m, e. fold d in He. repeat split; try assumption; lia.
  - destruct (binary_round_aux_normal false p 0 loc_Exact) as [H|(m & e & H & Hm & He)];
      [fold d; lia | lia | now left |].
    right. exists m, e. fold d in He. repeat split; try assumption; lia.
  - pose proof (digits2_pos_iter_xO p k) as Hk. fold d in Hk.
    destruct (binary_round_aux_normal false (Pos.iter xO p k) (Z.neg k) loc_Exact)
      as [H|(m & e & H & Hm & He)]; [lia | lia | now left |].
    right. exists m, e. repeat split; try assumption; lia.
Qed.

Lemma valid_binary_normal (s : bool) (m : positive) (e : Z) :
  Z.pos (digits2_pos m) = 53 -> -1074 <= e <= 971 ->
  valid_binary (S754_finite s m e) = true.
Proof.
  intros Hm He. unfold SpecFloat.valid_binary, bounded, canonical_mantissa, fexp, SpecFloat.emin.
  rewrite Hm. change (3 - emax - prec) with (-1074). change prec with 53.
  change (emax - 53) with 971.
  apply andb_true_iff. split; [apply Z.eqb_eq|apply Z.leb_le]; lia.
Qed.

(** A normal number at least 1 divided by 5 is a normal number of
    exponent -55 or more (at least 0.2), or overflows. *)
Lemma SFdiv_by_5 (m1 : positive) (e1 : Z) :
  Z.pos (digits2_pos m1) = 53 -> -52 <= e1 <= 971 ->
  let r := SFdiv prec emax (S754_finite false m1 e1) (S754_finite false 5629499534213120 (-50)) in
  r = S754_infinity false
  \/ exists m e, r = S754_finite false m e /\ -55 <= e.
Proof.
  intros Hm He r. subst r. unfold SFdiv, SFdiv_core_binary, Zdigits2, fexp, emin.
  rewrite Hm. change (Z.pos (digits2_pos 5629499534213120)) with 53.
  change (3 - emax - prec) with (-1074). change prec with 53.
  replace (Z.min (Z.max (53 + e1 - (53 + -50) - 53) (-1074)) (e1 - -50)) with (e1 - 3) by lia.
  replace (e1 - -50 - (e1 - 3)) with 53 by lia.
  assert (Hlog : Z.log2 (Z.pos m1) = 52) by (rewrite digits2_pos_log2 in Hm; lia).
  pose proof (log2_52_pos _ Hlog) as Hb.
  pose proof (Z.div_eucl_eq (Z.shiftl (Z.pos m1) 53) (Z.pos 5629499534213120) ltac:(lia)) as Hdiv.
  pose proof (Z.mod_pos_bound (Z.shiftl (Z.pos m1) 53) (Z.pos 5629499534213120) ltac:(lia)) as Hmod.
  unfold Z.modulo in Hmod.
  destruct (Z.div_eucl (Z.shiftl (Z.pos m1) 53) (Z.pos 5629499534213120)) as [q rem].
  rewrite Z.shiftl_mul_pow2 in Hdiv by lia.
  assert (Hq : 2 ^ 52 <= q) by (change (2 ^ 53) with 9007199254740992 in *;
                                change (2 ^ 52) with 4503599627370496 in *; nia).
  destruct q as [|pq|pq]; try lia.
  assert (HD : 53 <= Z.pos (digits2_pos pq)).
  { rewrite digits2_pos_log2.
    pose proof (Z.log2_le_mono (2 ^ 52) (Z.pos pq) Hq) as Hmono.
    rewrite Z.log2_pow2 in Hmono by lia. lia. }
  destruct (binary_round_aux_normal (xorb false false) pq (e1 - 3)
              (new_location (Z.pos 5629499534213120) rem) HD ltac:(lia))
    as [H|(m & e & H & _ & He')].
  - left. exact H.
  - right. exists m, e. split; [exact H|lia].
Qed.

(** A fifth of a positive connection score exceeds 0.0001. *)
Lemma of_int_pos_div_5 (n : Z) :
  1 <= n -> (0.0001 <? Float64.of_int n / balanceSeconds4Health)%float = true.
Proof.
  intros Hn. destruct n as [|p|p]; try lia.
  rewrite ltb_spec, div_spec. unfold Float64.of_int.
  change (Prim2SF balanceSeconds4Health) with (S754_finite false 5629499534213120 (-50)).
  change (Prim2SF 0.0001) with (S754_finite false 7378697629483821 (-66)).
  assert (Hdiv : SF64div (Prim2SF (SF2Prim (binary_normalize prec emax (Z.pos p) 0 false)))
                   (S754_finite false 5629499534213120 (-50)) = S754_infinity false
                 \/ exists m e,
                      SF64div (Prim2SF (SF2Prim (binary_normalize prec emax (Z.pos p) 0 false)))
                        (S754_finite false 5629499534213120 (-50)) = S754_finite false m e
                      /\ -55 <= e).
  { destruct (binary_normalize_pos p) as [->|(m & e & -> & Hm & He)].
    - left. reflexivity.
    - rewrite Prim2SF_SF2Prim by (apply valid_binary_normal; [assumption|lia]).
      apply SFdiv_by_5; assumption. }
  destruct Hdiv as [->|(m & e & -> & He)]; [reflexivity|].
  unfold SFltb, SFcompare.
  destruct (Z.compare_spec (-66) e); [lia|reflexivity|lia].
Qed.

Lemma of_int_0_div_5 : (Float64.of_int 0 / balanceSeconds4Health)%float = 0%float.
Proof. reflexivity. Qed.

(** Next, for [latestUsage * 100]: the value a product is rounded to is
    bounded by the exact product. *)

(** [shr_fexp] drops [k] bits, where [k] is what the exponent lacks. *)
Lemma shr_fexp_shift (m e : Z) (l : location) :
  0 <= m ->
  let k := Z.max 0 (fexp prec emax (Zdigits2 m + e) - e) in
  exists mrs, shr_fexp prec emax m e l = (mrs, e + k) /\ shr_m mrs = Z.shiftr m k.
Proof.
  intros Hm k. subst k. unfold shr_fexp, shr.
  destruct (fexp prec emax (Zdigits2 m + e) - e) as [|p|p].
  - exists (shr_record_of_loc m l). rewrite shr_record_of_loc_m, Z.shiftr_0_r.
    split; [f_equal; lia | reflexivity].
  - exists (SpecFloat.iter_pos shr_1 p (shr_record_of_loc m l)).
    split; [f_equal; lia|].
    rewrite iter_shr_1_m by (rewrite shr_record_of_loc_m; lia).
    rewrite shr_record_of_loc_m. f_equal.
  - exists (shr_record_of_loc m l). rewrite shr_record_of_loc_m.
    replace (Z.max 0 (Z.neg p)) with 0 by lia. rewrite Z.shiftr_0_r.
    split; [f_equal; lia | reflexivity].
Qed.

Lemma Zdigits2_log2 (m : Z) : 0 < m -> Zdigits2 m = Z.log2 m + 1.
Proof. destruct m as [|p|p]; try lia. intros _. apply digits2_pos_log2. Qed.

(** The value [binary_round_aux] returns for the mantissa [M] at the
    exponent [E] is at most [M + 1] units of the exponent it rounds at. *)
Lemma binary_round_aux_bound (sx : bool) (M : positive) (E : Z) (l : location) :
  let e1 := Z.max E (fexp prec emax (Z.pos (digits2_pos M) + E)) in
  let r := binary_round_aux prec emax sx (Z.pos M) E l in
  r = S754_zero sx
  \/ (r = S754_infinity sx /\ 971 < e1 + 1)
  \/ exists m e, r = S754_finite sx m e /\ e1 <= e <= e1 + 1
       /\ Z.pos m * 2 ^ (e - E) <= Z.pos M + 2 ^ (e1 - E).
Proof.
  intros e1 r. subst r. unfold binary_round_aux.
  destruct (shr_fexp_shift (Z.pos M) E l ltac:(lia)) as (mrs1 & -> & Hm1).
  set (k1 := Z.max 0 (fexp prec emax (Zdigits2 (Z.pos M) + E) - E)) in *.
  assert (He1 : E + k1 = e1) by (subst k1 e1; simpl Zdigits2; lia).
  rewrite He1.
  set (m1 := shr_m mrs1) in *.
  assert (Hk1 : 0 <= k1) by (subst k1; lia).
  assert (Hm1' : m1 = Z.pos M / 2 ^ k1) by (rewrite Hm1; apply Z.shiftr_div_pow2; lia).
  assert (Hp1 : 0 < 2 ^ k1) by (apply Z.pow_pos_nonneg; lia).
  assert (Hm1pos : 0 <= m1) by (rewrite Hm1'; apply Z.div_pos; lia).
  pose proof (round_nearest_even_bounds m1 (loc_of_shr_record mrs1)) as Hr.
  set (m2 := round_nearest_even m1 (loc_of_shr_record mrs1)) in *.
  destruct (shr_fexp_shift m2 e1 loc_Exact ltac:(lia)) as (mrs2 & -> & Hm3).
  set (k2 := Z.max 0 (fexp prec emax (Zdigits2 m2 + e1) - e1)) in *.
  assert (Hk2 : 0 <= k2) by (subst k2; lia).
  assert (Hp2 : 0 < 2 ^ k2) by (apply Z.pow_pos_nonneg; lia).
  assert (Hm3' : shr_m mrs2 = m2 / 2 ^ k2) by (rewrite Hm3; apply Z.shiftr_div_pow2; lia).
  (* the mantissa kept has at most 53 bits, so the second shift is 0 or 1 *)
  assert (Hemin : -1074 <= e1).
  { subst e1. unfold fexp, SpecFloat.emin. change (3 - emax - prec) with (-1074). lia. }
  assert (Hm1lt : m1 < 2 ^ 53).
  { rewrite Hm1'. apply Z.div_lt_upper_bound; [lia|].
    rewrite <- Z.pow_add_r by lia.
    pose proof (Z.log2_spec (Z.pos M) ltac:(lia)) as Hs.
    eapply Z.lt_le_trans; [apply Hs|].
    apply Z.pow_le_mono_r; [lia|].
    subst k1. unfold fexp. simpl Zdigits2. rewrite digits2_pos_log2.
    change prec with 53. lia. }
  assert (Hk2' : k2 <= 1).
  { subst k2. unfold fexp, SpecFloat.emin. change (3 - emax - prec) with (-1074).
    change prec with 53.
    destruct (Z.eq_dec m2 0) as [->|Hne]; [simpl Zdigits2; lia|].
    rewrite Zdigits2_log2 by lia.
    assert (Z.log2 m2 <= 53).
    { pose proof (Z.log2_le_mono m2 (2 ^ 53) ltac:(lia)) as Hmono.
      rewrite Z.log2_pow2 in Hmono by lia. exact Hmono. }
    lia. }
  destruct (shr_m mrs2) as [|m3|m3] eqn:E3.
  - now left.
  - change (emax - prec) with 971.
    destruct (Z.leb_spec (e1 + k2) 971) as [Hle|Hgt].
    + right. right. exists m3, (e1 + k2). split; [reflexivity|]. split; [lia|].
      replace (e1 + k2 - E) with (k1 + k2) by lia.
      replace (e1 - E) with k1 by lia.
      rewrite Z.pow_add_r by lia.
      pose proof (Z.mul_div_le m2 (2 ^ k2) Hp2) as H2.
      pose proof (Z.mul_div_le (Z.pos M) (2 ^ k1) Hp1) as H1.
      rewrite <- Hm3' in H2. rewrite <- Hm1' in H1. nia.
    + right. left. split; [reflexivity|lia].
  - exfalso. assert (0 <= m2 / 2 ^ k2) by (apply Z.div_pos; lia). lia.
Qed.

(** A positive float at most 1, times 100, truncates to at most 100. *)
Lemma SFmul_100_bound (m : positive) (e : Z) :
  e <= -52 -> Z.pos m <= 2 ^ (- e) ->
  let r := SFmul prec emax (S754_finite false m e)
             (S754_finite false 7036874417766400 (-46)) in
  r = S754_zero false
  \/ exists m' e', r = S754_finite false m' e' /\ 0 <= Z.shiftl (Z.pos m') e' <= 100.
Proof.
  intros He Hm r. subst r. unfold SFmul. change (xorb false false) with false.
  set (M := (m * 7036874417766400)%positive).
  set (E := e + -46).
  assert (HM : Z.pos M <= 100 * 2 ^ (- E)).
  { subst M E. rewrite Pos2Z.inj_mul.
    replace (- (e + -46)) with (- e + 46) by lia. rewrite Z.pow_add_r by lia.
    change (Z.pos 7036874417766400) with (100 * 2 ^ 46).
    assert (0 < 2 ^ 46) by lia. nia. }
  assert (HD : Z.pos (digits2_pos M) + E <= 7).
  { rewrite digits2_pos_log2.
    assert (Z.log2 (Z.pos M) < 7 - E); [|lia].
    apply Z.log2_lt_pow2; [lia|].
    eapply Z.le_lt_trans; [apply HM|].
    replace (7 - E) with (7 + - E) by lia. rewrite Z.pow_add_r by lia.
    assert (0 < 2 ^ (- E)) by (apply Z.pow_pos_nonneg; lia). lia. }
  destruct (binary_round_aux_bound false M E loc_Exact)
    as [H|[[H Hinf]|(m' & e' & H & He' & Hval)]].
  - now left.
  - exfalso. revert Hinf. unfold fexp, SpecFloat.emin.
    change (3 - emax - prec) with (-1074). change prec with 53. lia.
  - right. exists m', e'. split; [exact H|].
    set (e1 := Z.max E (fexp prec emax (Z.pos (digits2_pos M) + E))) in *.
    assert (He1 : e1 <= -46).
    { subst e1. unfold fexp, SpecFloat.emin.
      change (3 - emax - prec) with (-1074). change prec with 53. lia. }
    assert (HE1 : E <= e1) by (subst e1; lia).
    rewrite Z.shiftl_div_pow2 by lia.
    assert (HA : 2 ^ (- E) = 2 ^ (e' - E) * 2 ^ (- e'))
      by (rewrite <- Z.pow_add_r by lia; f_equal; lia).
    assert (HB : 0 < 2 ^ (e' - E)) by (apply Z.pow_pos_nonneg; lia).
    assert (HC : 0 < 2 ^ (- e')) by (apply Z.pow_pos_nonneg; lia).
    assert (HG : 2 ^ (e1 - E) < 2 ^ (- E)) by (apply Z.pow_lt_mono_r; lia).
    split; [apply Z.div_pos; lia|].
    assert (Z.pos m' / 2 ^ (- e') < 101); [|lia].
    apply Z.div_lt_upper_bound; [lia|].
    set (A := 2 ^ (- E)) in *. set (B := 2 ^ (e' - E)) in *.
    set (C := 2 ^ (- e')) in *. set (G := 2 ^ (e1 - E)) in *.
    nia.
Qed.


(** The same on the primitive floats: a usage in [0, 1], times 100,
    converts to an integer between 0 and 100. *)
Lemma usage_times_100 u (x : float) :
  (0 <=? x)%float = true -> (x <=? 1)%float = true ->
  0 <= Float64.to_int u (x * 100)%float <= 100.
Proof.
  rewrite 2!leb_spec. intros H0 H1.
  change (Prim2SF 0) with (S754_zero false) in H0.
  change (Prim2SF 1) with (S754_finite false 4503599627370496 (-52)) in H1.
  pose proof (Prim2SF_valid x) as Hvalid.
  assert (Htrunc : exists z, Float64.trunc (x * 100)%float = Some z /\ 0 <= z <= 100).
  { unfold Float64.trunc. rewrite mul_spec. unfold SF64mul.
    change (Prim2SF 100) with (S754_finite false 7036874417766400 (-46)).
    destruct (Prim2SF x) as [s|s| |s m e].
    - exists 0. split; [reflexivity|lia].
    - destruct s; [discriminate H0 | discriminate H1].
    - discriminate H0.
    - destruct s; [discriminate H0|].
      assert (He : e <= -52 /\ Z.pos m <= 2 ^ (- e)).
      { unfold SFleb, SFcompare in H1.
        unfold SpecFloat.valid_binary, bounded, canonical_mantissa, fexp, SpecFloat.emin
          in Hvalid.
        apply andb_true_iff in Hvalid as [Hcanon _]. apply Z.eqb_eq in Hcanon.
        change (3 - emax - prec) with (-1074) in Hcanon. change prec with 53 in Hcanon.
        rewrite digits2_pos_log2 in Hcanon.
        pose proof (Z.log2_spec (Z.pos m) ltac:(lia)) as Hlog.
        destruct (Z.compare_spec e (-52)) as [->|Hlt|Hgt]; [| |discriminate H1].
        - split; [lia|].
          assert (Hpow : 2 ^ (- -52) = 4503599627370496) by reflexivity.
          rewrite Hpow. rewrite Pos.compare_cont_spec in H1.
          destruct (Pos.compare_spec m 4503599627370496) as [Hm|Hm|Hm];
            try discriminate H1.
          + rewrite Hm. apply Z.le_refl.
          + apply Z.lt_le_incl. exact Hm.
        - split; [lia|].
          eapply Z.le_trans; [apply Z.lt_le_incl, Hlog|].
          apply Z.pow_le_mono_r; lia. }
      destruct (SFmul_100_bound m e (proj1 He) (proj2 He)) as [->|(m' & e' & -> & Hz)].
      + exists 0. split; [reflexivity|lia].
      + eexists. split; [reflexivity|]. exact Hz. }
  destruct Htrunc as (z & Hz & Hb).
  rewrite (Float64_to_int_trunc u _ z Hz); [exact Hb|].
  unfold Int64.in_range, Int64.min_int, Int64.max_int.
  apply andb_true_iff. split; apply Z.leb_le; lia.
Qed.


(** ** Loops that read the clock *)

Lemma forM_cons {A S : Type} (body : S -> A -> M S) (x : A) (l : list A) (s : S) (n : nat) :
  forM body (x :: l) s n = forM body l (body s x n).1 (body s x n).2.
Proof. simpl. unfold mbind, M_bind. now destruct (body s x n). Qed.

(** A property of the loop state that every turn keeps holds at the end. *)
Lemma forM_invariant {A S : Type} (P : S -> Prop) (body : S -> A -> M S) (l : list A) :
  (forall s x n, x ∈ l -> P s -> P (body s x n).1) ->
  forall s n, P s -> P (forM body l s n).1.
Proof.
  induction l as [|x l IH]; intros Hbody s n Hs.
  - exact Hs.
  - rewrite forM_cons. apply IH.
    + intros s' y n' Hy. apply Hbody. now right.
    + apply Hbody; [now left | exact Hs].
Qed.

(** The count of clock readings never goes back. *)
Lemma forM_ticks {A S : Type} (body : S -> A -> M S) (l : list A) :
  (forall s x n, (n <= (body s x n).2)%nat) ->
  forall s n, (n <= (forM body l s n).2)%nat.
Proof.
  intros Hbody. induction l as [|x l IH]; intros s n.
  - simpl. lia.
  - rewrite forM_cons. etransitivity; [apply (Hbody s x n)|apply IH].
Qed.

Lemma size_list_to_set_le (l : list string) :
  (size (list_to_set l : gset string) <= length l)%nat.
Proof.
  induction l as [|x l IH].
  - rewrite list_to_set_nil, size_empty. simpl. lia.
  - rewrite list_to_set_cons, size_union_alt, size_singleton. simpl.
    pose proof (subseteq_size (list_to_set l ∖ {[x]}) (list_to_set l : gset string)) as H.
    assert (list_to_set l ∖ {[x]} ⊆ (list_to_set l : gset string)) as Hs
      by (intros y Hy; now apply elem_of_difference in Hy as [Hy _]).
    specialize (H Hs). lia.
Qed.

(** A map whose keys are addresses of the list has at most as many
    entries as the list, and none for an address that is not listed. *)
Lemma keys_of_backends {V : Type} (m : gmap string V) (backends : list scoredBackend) :
  dom m ⊆ list_to_set (Addr <$> backends) ->
  (size m <= length backends)%nat
  /\ forall addr, addr ∉ Addr <$> backends -> m !! addr = None.
Proof.
  intros Hdom. split.
  - rewrite <- (size_dom (D := gset string)).
    etransitivity; [apply subseteq_size, Hdom|].
    etransitivity; [apply size_list_to_set_le|].
    now rewrite length_fmap.
  - intros addr Hnot. apply not_elem_of_dom. intros Hin.
    apply Hdom in Hin. apply elem_of_list_to_set in Hin. contradiction.
Qed.

Lemma dom_insert_backend {V : Type} (m : gmap string V) (v : V)
    (backend : scoredBackend) (backends : list scoredBackend) :
  backend ∈ backends ->
  dom m ⊆ list_to_set (Addr <$> backends) ->
  dom (<[Addr backend := v]> m) ⊆ list_to_set (Addr <$> backends).
Proof.
  intros Hin Hdom. rewrite dom_insert.
  apply union_least; [|exact Hdom].
  apply singleton_subseteq_l, elem_of_list_to_set, list_elem_of_fmap. eauto.
Qed.

(** ** calcValueRange *)

Lemma calcValueRange_nil u (indicator : errIndicator.t) :
  calcValueRange u None indicator = valueRangeNormal.
Proof. reflexivity. Qed.






(** ** FactorHealth.BalanceCount *)

(** C5: [FactorHealth.BalanceCount from to] is 0 whenever the ordinal of
    [from]'s range minus the ordinal of [to]'s range is at most 1, and
    [from]'s stored balance count otherwise; the gap exceeds 1 exactly
    when [from] is Abnormal and [to] is Normal, so the count is 0 for
    two Normal backends, for a Normal and a Mid one and for a Mid and an
    Abnormal one, in either order. *)
Theorem health_BalanceCount_gap (fh : FactorHealth.t) (from to : scoredBackend) :
  let gap := valueRange_int (rangeOf fh (Addr from))
             - valueRange_int (rangeOf fh (Addr to)) in
  FactorHealth.BalanceCount fh from to
    = (if gap <=? 1 then 0%float else pendingOf fh (Addr from))
  /\ ((gap <=? 1) = false <->
      rangeOf fh (Addr from) = valueRangeAbnormal
      /\ rangeOf fh (Addr to) = valueRangeNormal)
  /\ (rangeOf fh (Addr from) = rangeOf fh (Addr to) -> (gap <=? 1) = true)
  /\ (rangeOf fh (Addr from) = valueRangeMid \/ rangeOf fh (Addr to) = valueRangeMid ->
      (gap <=? 1) = true).
Proof.
  intros gap. subst gap.
  unfold FactorHealth.BalanceCount, FactorHealth.caclErrScore, Int64.sub.
  fold (rangeOf fh (Addr from)) (rangeOf fh (Addr to)) (pendingOf fh (Addr from)).
  pose proof (valueRange_int_bounds (rangeOf fh (Addr from))) as Hf.
  pose proof (valueRange_int_bounds (rangeOf fh (Addr to))) as Ht.
  rewrite Int64_wrap_small by (unfold Int64.min_int, Int64.max_int; lia).
  split; [reflexivity|].
  destruct (rangeOf fh (Addr from)), (rangeOf fh (Addr to)); simpl;
    repeat split; intros; try discriminate; try reflexivity;
    try (destruct H; discriminate); intuition discriminate.
Qed.

(** ** The balance count of FactorHealth *)

Lemma valueRange_abnormal_geb (vr : valueRange) :
  (valueRange_int vr >=? valueRange_int valueRangeAbnormal) = true
  <-> vr = valueRangeAbnormal.
Proof. destruct vr; split; intros H; try reflexivity; discriminate H. Qed.

(** The balance count recorded for a backend with a connection score
    that is not negative keeps [balanceCount_ok]. *)
Lemma health_balanceCount_ok (old : option healthBackendSnapshot.t) (vr : valueRange)
    (backend : scoredBackend) (updatedTime : Z) :
  0 <= ConnScore backend ->
  balanceCount_ok
    {| healthBackendSnapshot.updatedTime := updatedTime;
       healthBackendSnapshot.valueRange := vr;
       healthBackendSnapshot.balanceCount := health_balanceCount old vr backend |}.
Proof.
  intros Hscore. unfold balanceCount_ok, health_balanceCount. simpl.
  assert (Hfifth : (Float64.of_int (ConnScore backend) / balanceSeconds4Health =? 0)%float
                   = true
                   \/ (0.0001 <? Float64.of_int (ConnScore backend)
                                 / balanceSeconds4Health)%float = true).
  { destruct (Z.eq_dec (ConnScore backend) 0) as [->|Hne].
    - left. reflexivity.
    - right. apply of_int_pos_div_5. lia. }
  destruct vr; simpl.
  1, 2: split; [intros H; discriminate H | left; reflexivity].
  split; [reflexivity|].
  destruct old as [snapshot|]; [|exact Hfifth].
  destruct (0.0001 <? healthBackendSnapshot.balanceCount snapshot)%float eqn:Hold;
    [right; exact Hold | exact Hfifth].
Qed.

(** Every entry of the snapshot [updateSnapshot] builds is either the
    entry the factor held for the address, or a new one of a backend of
    the list with the balance count [health_balanceCount]. *)
Lemma health_updateSnapshot_entries clock u (fh : FactorHealth.t)
    (backends : list scoredBackend) (n : nat) (addr : string)
    (s' : healthBackendSnapshot.t) :
  FactorHealth.snapshot (FactorHealth.updateSnapshot clock u fh backends n).1 !! addr
  = Some s' ->
  FactorHealth.snapshot fh !! addr = Some s'
  \/ exists backend updatedTime vr, backend ∈ backends /\ Addr backend = addr
       /\ s' = {| healthBackendSnapshot.updatedTime := updatedTime;
                  healthBackendSnapshot.valueRange := vr;
                  healthBackendSnapshot.balanceCount :=
                    health_balanceCount (FactorHealth.snapshot fh !! addr) vr backend |}.
Proof.
  unfold FactorHealth.updateSnapshot, mbind, M_bind.
  match goal with
  | |- context [forM ?body backends ∅ n] =>
      pose proof (forM_invariant
                    (fun s : gmap string healthBackendSnapshot.t =>
                       forall addr s', s !! addr = Some s' ->
                         FactorHealth.snapshot fh !! addr = Some s'
                         \/ exists backend updatedTime vr,
                              backend ∈ backends /\ Addr backend = addr
                              /\ s' = {| healthBackendSnapshot.updatedTime := updatedTime;
                                         healthBackendSnapshot.valueRange := vr;
                                         healthBackendSnapshot.balanceCount :=
                                           health_balanceCount
                                             (FactorHealth.snapshot fh !! addr) vr backend |})
                    body backends) as Hinv;
      destruct (forM body backends ∅ n) as [snapshots n'] eqn:E
  end.
  simpl. specialize (fun H => Hinv H ∅ n). rewrite E in Hinv. simpl in Hinv.
  apply Hinv.
  - clear. intros s backend k Hin Hs addr s'.
    destruct (FactorHealth.currentRange clock u backend (FactorHealth.indicators fh) k)
      as [[updatedTime vr] k'].
    destruct (updatedTime =? 0).
    + destruct (FactorHealth.snapshot fh !! Addr backend) as [old|] eqn:Eold; [|apply Hs].
      unfold monotime.Since. simpl. destruct (_ <? _); [|apply Hs].
      simpl. rewrite lookup_insert. case_decide as Heq; [|apply Hs].
      intros [= <-]. left. now rewrite <- Heq.
    + simpl. rewrite lookup_insert. case_decide as Heq; [|apply Hs].
      intros [= <-]. right. exists backend, updatedTime, vr.
      repeat split; try assumption. rewrite <- Heq. reflexivity.
  - intros addr0 s0. rewrite lookup_empty. discriminate.
Qed.

Lemma health_updateSnapshot_ok clock u (fh : FactorHealth.t)
    (backends : list scoredBackend) (n : nat) :
  valid_backends backends -> snapshot_ok fh ->
  snapshot_ok (FactorHealth.updateSnapshot clock u fh backends n).1.
Proof.
  intros Hvalid Hok addr s' Hs'.
  apply health_updateSnapshot_entries in Hs'
    as [Hkept|(backend & updatedTime & vr & Hin & _ & ->)].
  - eapply Hok. eassumption.
  - apply health_balanceCount_ok.
    unfold valid_backends in Hvalid. rewrite Forall_forall in Hvalid. now apply Hvalid.
Qed.

(** The snapshot after [UpdateScore] is the one before, or the one
    [updateSnapshot] builds from it. *)
Lemma health_UpdateScore_snapshot clock u (mr : metricsreader.MetricsReader)
    (fh : FactorHealth.t) (backends : list scoredBackend) (n : nat) :
  FactorHealth.snapshot (FactorHealth.UpdateScore clock u mr fh backends n).1.1
  = FactorHealth.snapshot fh
  \/ exists indicators k,
       FactorHealth.snapshot (FactorHealth.UpdateScore clock u mr fh backends n).1.1
       = FactorHealth.snapshot
           (FactorHealth.updateSnapshot clock u
              (FactorHealth.set_indicators fh indicators) backends k).1.
Proof.
  unfold FactorHealth.UpdateScore.
  destruct (Z.of_nat (length backends) <=? 1); [now left|].
  destruct (FactorHealth.fetchResults _ _ _ _) as [[indicators need] latest].
  unfold mbind, M_bind, monotime.Since.
  destruct (_ >? errMetricExpDuration); [now left|].
  destruct need; [|now left].
  right. exists indicators, (S n).
  destruct (FactorHealth.updateSnapshot clock u _ backends (S n)) as [fh' n'].
  reflexivity.
Qed.

Lemma health_UpdateScore_ok clock u (mr : metricsreader.MetricsReader)
    (fh : FactorHealth.t) (backends : list scoredBackend) (n : nat) :
  valid_backends backends -> snapshot_ok fh ->
  snapshot_ok (FactorHealth.UpdateScore clock u mr fh backends n).1.1.
Proof.
  intros Hvalid Hok. unfold snapshot_ok.
  destruct (health_UpdateScore_snapshot clock u mr fh backends n)
    as [->|(indicators & k & ->)]; [exact Hok|].
  apply health_updateSnapshot_ok; assumption.
Qed.

Lemma health_reachable_ok clock u (fh : FactorHealth.t) :
  health_reachable clock u fh -> snapshot_ok fh.
Proof.
  induction 1 as [AddQueryExpr|mr fh backends n _ IH Hvalid].
  - intros addr s. simpl. rewrite lookup_empty. discriminate.
  - now apply health_UpdateScore_ok.
Qed.





(** Backend "a" reports 60 pdRPC backoffs (Abnormal) with ten
    connections: its balance count is 10 / 5 = 2, its sub-score 2, and
    "b" (5 backoffs, Normal) has balance count 0 and sub-score 0.  On
    the next result "a" is still Abnormal with four connections left:
    its balance count stays 2 (not 4 / 5). *)
Example health_two_passes :
  pendingOf health_pass1.1.1 "a" = 2%float
  /\ rangeOf health_pass1.1.1 "a" = valueRangeAbnormal
  /\ pendingOf health_pass1.1.1 "b" = 0%float
  /\ rangeOf health_pass1.1.1 "b" = valueRangeNormal
  /\ scoreBits <$> health_pass1.1.2 = [2; 0]
  /\ pendingOf health_pass2.1.1 "a" = 2%float
  /\ rangeOf health_pass2.1.1 "a" = valueRangeAbnormal
  /\ (Float64.of_int 4 / balanceSeconds4Health)%float = 0.8%float
  /\ FactorHealth.BalanceCount health_pass1.1.1 backend_a backend_b = 2%float
  /\ FactorHealth.BalanceCount health_pass1.1.1 backend_b backend_a = 0%float.
Proof. vm_compute. repeat split. Qed.


(** ** calcAvgUsage *)

Lemma fold_left_snoc {A B : Type} (f : A -> B -> A) (l : list B) (x : B) (a : A) :
  fold_left f (l ++ [x]) a = f (fold_left f l a) x.
Proof. now rewrite fold_left_app. Qed.


(** ** The usages FactorCPU stores *)

(** What [calcAvgUsage] returns as the smoothed usage, when it is not
    negative, is in [0, 1]. *)
Lemma calcAvgUsage_unit (pairs : list model.SamplePair.t) :
  (0 <=? (calcAvgUsage pairs).1)%float = true -> in_unit (calcAvgUsage pairs).1.
Proof.
  unfold calcAvgUsage.
  destruct (Z.of_nat (length pairs) =? 0); [discriminate|].
  destruct (fold_left calcAvgUsage_step pairs _) as [avgUsage latestUsage].
  destruct (1 <? avgUsage)%float eqn:Hclamp; simpl.
  - intros _. split; reflexivity.
  - intros Hpos. split; [exact Hpos|].
    apply float_ltb_false_leb; [reflexivity| |exact Hclamp].
    now apply float_leb_not_nan in Hpos.
Qed.

Lemma calcAvgUsage_fold_latest (pairs : list model.SamplePair.t) (acc : float * float) :
  (fold_left calcAvgUsage_step pairs acc).2 = default acc.2 (last_sample pairs).
Proof.
  unfold last_sample. induction pairs as [|usage pairs IH] using rev_ind.
  - reflexivity.
  - rewrite fold_left_snoc, fmap_app, List.filter_app. simpl.
    unfold calcAvgUsage_step at 1.
    destruct (fold_left calcAvgUsage_step pairs acc) as [avgUsage latestUsage].
    simpl in IH.
    destruct (Float64.IsNaN (model.SamplePair.Value usage)); simpl.
    + now rewrite app_nil_r.
    + now rewrite last_snoc.
Qed.

(** The latest usage [calcAvgUsage] returns is the last sample that is
    not NaN, as it is (and -1 when there is none). *)
Lemma calcAvgUsage_latest (pairs : list model.SamplePair.t) :
  (calcAvgUsage pairs).2 = default (-1)%float (last_sample pairs).
Proof.
  unfold calcAvgUsage.
  destruct pairs as [|usage pairs]; [reflexivity|].
  change (Z.of_nat (length (usage :: pairs)) =? 0) with false. cbv iota.
  pose proof (calcAvgUsage_fold_latest (usage :: pairs) ((-1)%float, (-1)%float)) as H.
  destruct (fold_left calcAvgUsage_step (usage :: pairs) _) as [avgUsage latestUsage].
  exact H.
Qed.

(** Every entry of the snapshot [updateSnapshot] builds is either the
    entry the factor held for the address or the fresh snapshot of a
    backend of the list with that address, whose smoothed usage is not
    negative. *)
Lemma cpu_updateSnapshot_entries clock (fc : FactorCPU.t) (qr : metricsreader.QueryResult)
    (backends : list scoredBackend) (n : nat) (addr : string) (s' : cpuBackendSnapshot.t) :
  FactorCPU.snapshot (FactorCPU.updateSnapshot clock fc qr backends n).1 !! addr = Some s' ->
  FactorCPU.snapshot fc !! addr = Some s'
  \/ exists backend, backend ∈ backends /\ Addr backend = addr
       /\ s' = cpu_fresh_snapshot qr backend
       /\ (0 <=? cpuBackendSnapshot.avgUsage s')%float = true.
Proof.
  unfold FactorCPU.updateSnapshot, mbind, M_bind.
  match goal with
  | |- context [forM ?body backends ∅ n] =>
      pose proof (forM_invariant
                    (fun s : gmap string cpuBackendSnapshot.t =>
                       forall addr s', s !! addr = Some s' ->
                         FactorCPU.snapshot fc !! addr = Some s'
                         \/ exists backend, backend ∈ backends /\ Addr backend = addr
                              /\ s' = cpu_fresh_snapshot qr backend
                              /\ (0 <=? cpuBackendSnapshot.avgUsage s')%float = true)
                    body backends) as Hinv;
      destruct (forM body backends ∅ n) as [snapshots n'] eqn:E
  end.
  simpl. specialize (fun H => Hinv H ∅ n). rewrite E in Hinv. simpl in Hinv.
  apply Hinv.
  - clear. intros s backend k Hin Hs addr s'.
    assert (Hold : forall old (m : gmap string cpuBackendSnapshot.t),
               FactorCPU.snapshot fc !! Addr backend = Some old ->
               (forall addr s', m !! addr = Some s' ->
                  FactorCPU.snapshot fc !! addr = Some s'
                  \/ exists backend, backend ∈ backends /\ Addr backend = addr
                       /\ s' = cpu_fresh_snapshot qr backend
                       /\ (0 <=? cpuBackendSnapshot.avgUsage s')%float = true) ->
               <[Addr backend := old]> m !! addr = Some s' ->
               FactorCPU.snapshot fc !! addr = Some s'
               \/ exists backend, backend ∈ backends /\ Addr backend = addr
                    /\ s' = cpu_fresh_snapshot qr backend
                    /\ (0 <=? cpuBackendSnapshot.avgUsage s')%float = true).
    { intros old m Hfc Hm. rewrite lookup_insert. case_decide as Heq.
      - intros [= <-]. left. now rewrite <- Heq.
      - apply Hm. }
    destruct (Z.of_nat (length (metricsreader.GetSamplePair4Backend qr backend)) >? 0).
    + destruct (calcAvgUsage (metricsreader.GetSamplePair4Backend qr backend))
        as [avgUsage latestUsage] eqn:Eavg.
      destruct (0 <=? avgUsage)%float eqn:Hpos; simpl.
      * rewrite lookup_insert. case_decide as Heq; [|apply Hs].
        intros [= <-]. right. exists backend. repeat split; try assumption.
        unfold cpu_fresh_snapshot. now rewrite Eavg.
      * destruct (FactorCPU.snapshot fc !! Addr backend) as [old|] eqn:Eold; [|apply Hs].
        unfold monotime.Since. simpl. destruct (_ <? _); [|apply Hs].
        simpl. now apply Hold.
    + simpl. destruct (FactorCPU.snapshot fc !! Addr backend) as [old|] eqn:Eold; [|apply Hs].
      unfold monotime.Since. simpl. destruct (_ <? _); [|apply Hs].
      simpl. now apply Hold.
  - intros addr0 s0. rewrite lookup_empty. discriminate.
Qed.

(** C8 (amended): if the smoothed usage of every snapshot the factor
    holds is in [0, 1], so is that of every snapshot after
    [updateSnapshot], whatever the magnitude of the samples; the latest
    usage of a snapshot stored from a window is the last sample of the
    window that is not NaN, as it is. *)
Theorem cpu_updateSnapshot_avgUsage_unit clock (fc : FactorCPU.t)
    (qr : metricsreader.QueryResult) (backends : list scoredBackend) (n : nat) :
  (forall addr s, FactorCPU.snapshot fc !! addr = Some s ->
     in_unit (cpuBackendSnapshot.avgUsage s)) ->
  forall addr s',
    FactorCPU.snapshot (FactorCPU.updateSnapshot clock fc qr backends n).1 !! addr
    = Some s' ->
    in_unit (cpuBackendSnapshot.avgUsage s')
    /\ (FactorCPU.snapshot fc !! addr = Some s'
        \/ exists backend, backend ∈ backends /\ Addr backend = addr
             /\ s' = cpu_fresh_snapshot qr backend
             /\ cpuBackendSnapshot.latestUsage s'
                = default (-1)%float
                    (last_sample (metricsreader.GetSamplePair4Backend qr backend))).
Proof.
  intros Hold addr s' Hs'.
  apply cpu_updateSnapshot_entries in Hs' as [Hkept|(backend & Hin & Haddr & -> & Hpos)].
  - split; [eapply Hold; eassumption | now left].
  - split.
    + apply calcAvgUsage_unit. exact Hpos.
    + right. exists backend. repeat split; try assumption.
      apply calcAvgUsage_latest.
Qed.

(** A usage sample of 1.5 (a backend over its processor quota): the
    smoothed usage is capped at 1, the latest usage is stored as 1.5. *)
Example cpu_updateSnapshot_stores_raw_latest :
  FactorCPU.snapshot
    (FactorCPU.updateSnapshot clock_10min new_cpu (cpu_result 1.5%float)
       [backend_a; backend_b] 0%nat).1 !! "a"
  = Some {| cpuBackendSnapshot.updatedTime := 1 * time.Minute;
            cpuBackendSnapshot.avgUsage := 1%float;
            cpuBackendSnapshot.latestUsage := 1.5%float;
            cpuBackendSnapshot.connCount := 10 |}.
Proof. vm_compute. reflexivity. Qed.

Lemma cpu_updateSnapshot_avgUsage_unit_witness :
  (forall addr s, FactorCPU.snapshot new_cpu !! addr = Some s ->
     in_unit (cpuBackendSnapshot.avgUsage s))
  /\ in_unit (cpuBackendSnapshot.avgUsage (cpu_fresh_snapshot (cpu_result 1.5%float) backend_a))
  /\ (FactorCPU.snapshot new_cpu !! "a"
      = Some (cpu_fresh_snapshot (cpu_result 1.5%float) backend_a)
      \/ exists backend, backend ∈ [backend_a; backend_b] /\ Addr backend = "a"
           /\ cpu_fresh_snapshot (cpu_result 1.5%float) backend_a
              = cpu_fresh_snapshot (cpu_result 1.5%float) backend
           /\ cpuBackendSnapshot.latestUsage
                (cpu_fresh_snapshot (cpu_result 1.5%float) backend_a)
              = default (-1)%float
                  (last_sample
                     (metricsreader.GetSamplePair4Backend (cpu_result 1.5%float) backend))).
Proof.
  assert (Hnew : forall addr s, FactorCPU.snapshot new_cpu !! addr = Some s ->
                   in_unit (cpuBackendSnapshot.avgUsage s)).
  { intros addr s H. change (FactorCPU.snapshot new_cpu) with (∅ : gmap string cpuBackendSnapshot.t) in H.
    rewrite lookup_empty in H. discriminate H. }
  split; [exact Hnew|].
  apply (cpu_updateSnapshot_avgUsage_unit clock_10min new_cpu (cpu_result 1.5%float)
           [backend_a; backend_b] 0%nat Hnew "a").
  vm_compute. reflexivity.
Defined.

(** C8 as stated fails for the latest usage: it is stored unclamped. *)
Lemma cpu_updateSnapshot_latestUsage_not_unit :
  ~ (forall clock (fc : FactorCPU.t) (qr : metricsreader.QueryResult)
       (backends : list scoredBackend) (n : nat),
       (forall addr s, FactorCPU.snapshot fc !! addr = Some s ->
          in_unit (cpuBackendSnapshot.avgUsage s)
          /\ in_unit (cpuBackendSnapshot.latestUsage s)) ->
       forall addr s',
         FactorCPU.snapshot (FactorCPU.updateSnapshot clock fc qr backends n).1 !! addr
         = Some s' ->
         in_unit (cpuBackendSnapshot.avgUsage s')
         /\ in_unit (cpuBackendSnapshot.latestUsage s')).
Proof.
  intros H.
  specialize (H clock_10min new_cpu (cpu_result 1.5%float) [backend_a; backend_b] 0%nat).
  assert (Hnew : forall addr s, FactorCPU.snapshot new_cpu !! addr = Some s ->
                   in_unit (cpuBackendSnapshot.avgUsage s)
                   /\ in_unit (cpuBackendSnapshot.latestUsage s)).
  { intros addr s Hs.
    change (FactorCPU.snapshot new_cpu) with (∅ : gmap string cpuBackendSnapshot.t) in Hs.
    rewrite lookup_empty in Hs. discriminate Hs. }
  destruct (H Hnew "a" _ cpu_updateSnapshot_stores_raw_latest) as [_ [_ Hle]].
  discriminate Hle.
Qed.

(** ** FactorCPU.updateCpuPerConn *)

(** What [updateCpuPerConn] stores when the estimate it keeps is [x]:
    the floor 0.001 for a non-positive [x], and [x] otherwise. *)
Lemma updateCpuPerConn_floor order (fc : FactorCPU.t) :
  (FactorCPU.usagePerConn (FactorCPU.updateCpuPerConn order fc) <=? 0)%float = false.
Proof.
  unfold FactorCPU.updateCpuPerConn.
  destruct (FactorCPU.sumUsage _) as [totalUsage totalConns].
  match goal with
  | |- context [if (FactorCPU.usagePerConn ?x <=? 0)%float then _ else _] =>
      destruct (FactorCPU.usagePerConn x <=? 0)%float eqn:E
  end; [reflexivity | exact E].
Qed.

(** [updateCpuPerConn] touches the usage per connection only. *)
Lemma updateCpuPerConn_frame order (fc : FactorCPU.t) :
  FactorCPU.snapshot (FactorCPU.updateCpuPerConn order fc) = FactorCPU.snapshot fc
  /\ FactorCPU.lastMetricTime (FactorCPU.updateCpuPerConn order fc)
     = FactorCPU.lastMetricTime fc
  /\ FactorCPU.queryID (FactorCPU.updateCpuPerConn order fc) = FactorCPU.queryID fc
  /\ FactorCPU.bitNum (FactorCPU.updateCpuPerConn order fc) = FactorCPU.bitNum fc.
Proof.
  unfold FactorCPU.updateCpuPerConn.
  destruct (FactorCPU.sumUsage _) as [totalUsage totalConns].
  destruct (totalConns >? 0);
    [destruct (_ <? minCpuPerConn)%float; [destruct (0.1 <? _)%float|]|];
    match goal with
    | |- context [if (FactorCPU.usagePerConn ?x <=? 0)%float then _ else _] =>
        destruct (FactorCPU.usagePerConn x <=? 0)%float
    end; repeat split.
Qed.

(** C9: let [estimate] be the total latest usage over the total
    connection count of the snapshots with positive usage and positive
    connections, and [average] the total usage over the number of
    snapshots.  [updateCpuPerConn] takes an [estimate] below the floor
    0.001 only if [average] exceeds 0.1, and keeps the previous
    [usagePerConn] otherwise (and when there is no connection at all);
    whatever it keeps, a value that is not positive is replaced by the
    floor 0.001, so a factor that never had an estimate holds 0.001. *)
Theorem updateCpuPerConn_adopts order (fc : FactorCPU.t) :
  let sums := FactorCPU.sumUsage (order (FactorCPU.snapshot fc)) in
  let estimate := (sums.1 / Float64.of_int sums.2)%float in
  let average :=
    (sums.1 / Float64.of_int (Z.of_nat (size (FactorCPU.snapshot fc))))%float in
  let floored (x : float) := if (x <=? 0)%float then minCpuPerConn else x in
  let fc' := FactorCPU.updateCpuPerConn order fc in
  let previous := FactorCPU.usagePerConn fc in
  (* below the floor: taken only if the average usage exceeds 10% *)
  (sums.2 > 0 -> (estimate <? minCpuPerConn)%float = true ->
     ((0.1 <? average)%float = true ->
        FactorCPU.usagePerConn fc' = floored estimate)
     /\ ((0.1 <? average)%float = false ->
        FactorCPU.usagePerConn fc' = floored previous))
  (* not below the floor: taken *)
  /\ (sums.2 > 0 -> (estimate <? minCpuPerConn)%float = false ->
      FactorCPU.usagePerConn fc' = floored estimate)
  (* nothing to estimate from: the previous one is kept *)
  /\ (sums.2 <= 0 -> FactorCPU.usagePerConn fc' = floored previous)
  (* no estimate so far (the zero value, or anything not positive) and
     none taken now: the floor *)
  /\ ((previous <=? 0)%float = true ->
      sums.2 <= 0 \/ ((estimate <? minCpuPerConn)%float = true
                      /\ (0.1 <? average)%float = false) ->
      FactorCPU.usagePerConn fc' = minCpuPerConn)
  /\ (FactorCPU.usagePerConn fc' <=? 0)%float = false
  /\ FactorCPU.snapshot fc' = FactorCPU.snapshot fc
  /\ FactorCPU.lastMetricTime fc' = FactorCPU.lastMetricTime fc.
Proof.
  intros sums estimate average floored fc' previous.
  assert (Hfloor : (FactorCPU.usagePerConn fc' <=? 0)%float = false)
    by apply updateCpuPerConn_floor.
  subst fc' floored previous. revert Hfloor. unfold FactorCPU.updateCpuPerConn.
  fold sums. destruct sums as [totalUsage totalConns] eqn:Es. simpl in estimate, average.
  fold estimate average. simpl fst; simpl snd.
  destruct (Z.gtb_spec totalConns 0) as [Hc|Hc].
  - destruct (estimate <? minCpuPerConn)%float eqn:Hlow.
    + destruct (0.1 <? average)%float eqn:Havg; simpl.
      * destruct (estimate <=? 0)%float eqn:E; simpl; intros Hfloor;
          repeat split; try reflexivity; intros; try discriminate; try lia;
          try assumption.
        all: destruct H0 as [?|[_ ?]]; [lia|discriminate].
      * destruct (FactorCPU.usagePerConn fc <=? 0)%float eqn:E; simpl; intros Hfloor;
          repeat split; try reflexivity; intros; try discriminate; try lia;
          try assumption.
    + simpl.
      destruct (estimate <=? 0)%float eqn:E; simpl; intros Hfloor;
        repeat split; try reflexivity; intros; try discriminate; try lia;
        try assumption.
      all: destruct H0 as [?|[? _]]; [lia|discriminate].
  - destruct (FactorCPU.usagePerConn fc <=? 0)%float eqn:E; simpl; intros Hfloor;
      repeat split; try reflexivity; intros; try discriminate; try lia;
      try assumption.
Qed.

(** The cases on two backends of equal load.  A thousand connections
    each at the usage 0.1: the estimate 0.0001 is below the floor and the
    average usage is not above 0.1, so the previous value stays (0.002),
    and a new factor gets the floor.  At the usage 0.5 the same estimate
    0.0005 is taken.  Ten connections each at 0.5: the estimate 0.05 is
    taken. *)
Example updateCpuPerConn_cases :
  FactorCPU.usagePerConn
    (FactorCPU.updateCpuPerConn in_key_order (cpu_even 0.1 1000 0.002)) = 0.002%float
  /\ FactorCPU.usagePerConn
       (FactorCPU.updateCpuPerConn in_key_order (cpu_even 0.1 1000 0)) = minCpuPerConn
  /\ FactorCPU.usagePerConn
       (FactorCPU.updateCpuPerConn in_key_order (cpu_even 0.5 1000 0.002))
     = (1 / 2000)%float
  /\ FactorCPU.usagePerConn
       (FactorCPU.updateCpuPerConn in_key_order (cpu_even 0.5 10 0.002))
     = (1 / 20)%float.
Proof. vm_compute. repeat split. Qed.

(** ** FactorCPU.BalanceCount *)


(** ** The sub-scores *)


(** C1: the sub-score of the CPU factor can be negative.  Two backends
    hold a thousand connections each at a CPU usage of 0.1; the factor
    learns 0.001 of usage per connection.  In the next pass, on the same
    metrics, the first backend has no connection left: its extrapolated
    usage is [0.1 - 1000 * 0.001 = -0.9], its sub-score [int(-90)/5 =
    -18], which is not in [0, 2^5), and OR-ing [uint64(-18)] into the
    composite score sets every higher bit. *)
Theorem cpu_UpdateScore_negative_score :
  let mr := fun _ : Z => cpu_result_fresh in
  let u := fun _ : float => 0 in
  let pass1 := FactorCPU.UpdateScore clock_10min u in_key_order mr new_cpu
                 [busy_a; busy_b] 0%nat in
  let fc := pass1.1.1 in
  let pass2 := FactorCPU.UpdateScore clock_10min u in_key_order mr fc
                 [drained_a; busy_b] pass1.2 in
  FactorCPU.usagePerConn fc = 0.001%float
  /\ (FactorCPU.getUsage fc drained_a).2 = (0.1 + (-1000) * 0.001)%float
  /\ FactorCPU.cpuScore u fc drained_a = -18
  /\ FactorCPU.ScoreBitNum fc = 5
  /\ ~ (0 <= FactorCPU.cpuScore u fc drained_a < 2 ^ FactorCPU.ScoreBitNum fc)
  /\ scoreBits <$> pass2.1.2 = [2 ^ 64 - 18; 2].
Proof. vm_compute. repeat split; try reflexivity. intros [H _]. now apply H. Qed.

(** The latest usage [getUsage] returns is at most 1, unless it is NaN. *)
Lemma getUsage_latest_le_1 (fc : FactorCPU.t) (backend : scoredBackend) :
  Float64.IsNaN (FactorCPU.getUsage fc backend).2 = false ->
  ((FactorCPU.getUsage fc backend).2 <=? 1)%float = true.
Proof.
  unfold FactorCPU.getUsage.
  destruct (FactorCPU.snapshot fc !! Addr backend) as [snapshot|]; [|reflexivity].
  change (0 <? 0)%float with false. rewrite orb_false_r.
  destruct (cpuBackendSnapshot.avgUsage snapshot <? 0)%float; [reflexivity|].
  match goal with
  | |- context [if (1 <? ?l)%float then _ else _] =>
      destruct (1 <? l)%float eqn:Hclamp; simpl; [reflexivity|]
  end.
  intros Hnan. apply float_ltb_false_leb; [reflexivity|exact Hnan|exact Hclamp].
Qed.

(** Where the extrapolated latest usage is not negative, the sub-score
    of the CPU factor is between 0 and 100 / 5 = 20: it fits the five
    bits of the factor. *)
Theorem cpu_score_fits u (fc : FactorCPU.t) (backend : scoredBackend) :
  (0 <=? (FactorCPU.getUsage fc backend).2)%float = true ->
  0 <= FactorCPU.cpuScore u fc backend <= 20
  /\ FactorCPU.cpuScore u fc backend < 2 ^ 5.
Proof.
  intros Hpos.
  assert (Hle : ((FactorCPU.getUsage fc backend).2 <=? 1)%float = true).
  { apply getUsage_latest_le_1. now apply float_leb_not_nan in Hpos. }
  pose proof (usage_times_100 u _ Hpos Hle) as Hint.
  unfold FactorCPU.cpuScore.
  destruct (FactorCPU.getUsage fc backend) as [avgUsage latestUsage]. simpl in Hint.
  unfold Int64.quot, cpuScoreStep.
  set (z := Float64.to_int u (latestUsage * 100)) in *.
  assert (Hq : 0 <= z ÷ 5 <= 20).
  { rewrite Z.quot_div_nonneg by lia. split.
    - apply Z.div_pos; lia.
    - apply Z.div_le_upper_bound; lia. }
  rewrite Int64_wrap_small by (unfold Int64.min_int, Int64.max_int; lia).
  change (2 ^ 5) with 32. lia.
Qed.

Lemma cpu_score_fits_witness :
  (0 <=? (FactorCPU.getUsage cpu_two_loads backend_a).2)%float = true
  /\ 0 <= FactorCPU.cpuScore (fun _ => 0) cpu_two_loads backend_a <= 20
  /\ FactorCPU.cpuScore (fun _ => 0) cpu_two_loads backend_a < 2 ^ 5.
Proof.
  split; [reflexivity|].
  apply (cpu_score_fits (fun _ => 0) cpu_two_loads backend_a). reflexivity.
Defined.

(** ** The keys of the snapshots *)

Lemma health_updateSnapshot_dom clock u (fh : FactorHealth.t)
    (backends : list scoredBackend) (n : nat) :
  dom (FactorHealth.snapshot (FactorHealth.updateSnapshot clock u fh backends n).1)
  ⊆ list_to_set (Addr <$> backends).
Proof.
  unfold FactorHealth.updateSnapshot, mbind, M_bind.
  match goal with
  | |- context [forM ?body backends ∅ n] =>
      pose proof (forM_invariant
                    (fun s : gmap string healthBackendSnapshot.t =>
                       dom s ⊆ list_to_set (Addr <$> backends))
                    body backends) as Hinv;
      destruct (forM body backends ∅ n) as [snapshots n'] eqn:E
  end.
  simpl. specialize (fun H => Hinv H ∅ n). rewrite E in Hinv. apply Hinv.
  - intros s backend k Hin Hs.
    destruct (FactorHealth.currentRange clock u backend (FactorHealth.indicators fh) k)
      as [[updatedTime vr] k'].
    destruct (updatedTime =? 0).
    + destruct (FactorHealth.snapshot fh !! Addr backend) as [old|]; [|exact Hs].
      unfold monotime.Since. simpl.
      destruct (_ <? _); [|exact Hs].
      simpl. now apply dom_insert_backend.
    + simpl. now apply dom_insert_backend.
  - rewrite dom_empty. apply empty_subseteq.
Qed.

Lemma cpu_updateSnapshot_dom clock (fc : FactorCPU.t) (qr : metricsreader.QueryResult)
    (backends : list scoredBackend) (n : nat) :
  dom (FactorCPU.snapshot (FactorCPU.updateSnapshot clock fc qr backends n).1)
  ⊆ list_to_set (Addr <$> backends).
Proof.
  unfold FactorCPU.updateSnapshot, mbind, M_bind.
  match goal with
  | |- context [forM ?body backends ∅ n] =>
      pose proof (forM_invariant
                    (fun s : gmap string cpuBackendSnapshot.t =>
                       dom s ⊆ list_to_set (Addr <$> backends))
                    body backends) as Hinv;
      destruct (forM body backends ∅ n) as [snapshots n'] eqn:E
  end.
  simpl. specialize (fun H => Hinv H ∅ n). rewrite E in Hinv. apply Hinv.
  - intros s backend k Hin Hs.
    destruct (Z.of_nat (length (metricsreader.GetSamplePair4Backend qr backend)) >? 0).
    + destruct (calcAvgUsage _) as [avgUsage latestUsage].
      destruct (0 <=? avgUsage)%float; simpl.
      * now apply dom_insert_backend.
      * destruct (FactorCPU.snapshot fc !! Addr backend) as [old|]; [|exact Hs].
        unfold monotime.Since. simpl. destruct (_ <? _); [|exact Hs].
        simpl. now apply dom_insert_backend.
    + simpl. destruct (FactorCPU.snapshot fc !! Addr backend) as [old|]; [|exact Hs].
      unfold monotime.Since. simpl. destruct (_ <? _); [|exact Hs].
      simpl. now apply dom_insert_backend.
  - rewrite dom_empty. apply empty_subseteq.
Qed.

(** C10: after [updateSnapshot] of either factor the snapshot map holds
    only addresses of the backends of the list it was given: it has at
    most as many entries as the list, and no entry for an address that
    is not in the list, whatever the previous snapshot held for it. *)
Theorem updateSnapshot_only_listed clock u (backends : list scoredBackend) (n : nat) :
  (forall fh : FactorHealth.t,
     let snapshot' :=
       FactorHealth.snapshot (FactorHealth.updateSnapshot clock u fh backends n).1 in
     dom snapshot' ⊆ list_to_set (Addr <$> backends)
     /\ (size snapshot' <= length backends)%nat
     /\ forall addr, addr ∉ Addr <$> backends -> snapshot' !! addr = None)
  /\ (forall (fc : FactorCPU.t) (qr : metricsreader.QueryResult),
        let snapshot' :=
          FactorCPU.snapshot (FactorCPU.updateSnapshot clock fc qr backends n).1 in
        dom snapshot' ⊆ list_to_set (Addr <$> backends)
        /\ (size snapshot' <= length backends)%nat
        /\ forall addr, addr ∉ Addr <$> backends -> snapshot' !! addr = None).
Proof.
  split.
  - intros fh snapshot'.
    pose proof (health_updateSnapshot_dom clock u fh backends n) as Hdom.
    split; [exact Hdom|]. now apply keys_of_backends.
  - intros fc qr snapshot'.
    pose proof (cpu_updateSnapshot_dom clock fc qr backends n) as Hdom.
    split; [exact Hdom|]. now apply keys_of_backends.
Qed.

(** ** UpdateScore on stale metrics *)

Lemma cpu_updateSnapshot_ticks clock (fc : FactorCPU.t) (qr : metricsreader.QueryResult)
    (backends : list scoredBackend) (n : nat) :
  (n <= (FactorCPU.updateSnapshot clock fc qr backends n).2)%nat.
Proof.
  unfold FactorCPU.updateSnapshot, mbind, M_bind.
  match goal with
  | |- context [forM ?body backends ∅ n] =>
      pose proof (forM_ticks body backends) as Hticks;
      destruct (forM body backends ∅ n) as [snapshots n'] eqn:E
  end.
  simpl. specialize (fun H => Hticks H ∅ n). rewrite E in Hticks. apply Hticks.
  intros s backend k.
  destruct (Z.of_nat (length (metricsreader.GetSamplePair4Backend qr backend)) >? 0);
    [destruct (calcAvgUsage _) as [avgUsage latestUsage];
     destruct (0 <=? avgUsage)%float|]; simpl; try lia.
  all: destruct (FactorCPU.snapshot fc !! Addr backend) as [old|]; simpl; [|lia].
  all: destruct (_ <? _); simpl; lia.
Qed.

Lemma health_UpdateScore_stale clock u (mr : metricsreader.MetricsReader)
    (fh : FactorHealth.t) (backends : list scoredBackend) (n : nat) :
  Int64.sub (clock n) (health_latestTime mr fh) > errMetricExpDuration ->
  let r := (FactorHealth.UpdateScore clock u mr fh backends n).1 in
  FactorHealth.snapshot r.1 = FactorHealth.snapshot fh /\ r.2 = backends.
Proof.
  unfold health_latestTime, FactorHealth.UpdateScore. intros Hstale.
  destruct (Z.of_nat (length backends) <=? 1); [now split|].
  destruct (FactorHealth.fetchResults _ _ _ _) as [[indicators need] latest].
  simpl in Hstale. unfold mbind, M_bind, monotime.Since.
  apply Z.gtb_gt in Hstale. rewrite Hstale. now split.
Qed.

Lemma cpu_UpdateScore_stale clock u order (mr : metricsreader.MetricsReader)
    (fc : FactorCPU.t) (backends : list scoredBackend) (n : nat) :
  let qr := mr (FactorCPU.queryID fc) in
  (forall k, (n <= k)%nat ->
     Int64.sub (clock k) (metricsreader.UpdateTime qr) > cpuMetricExpDuration) ->
  let r := (FactorCPU.UpdateScore clock u order mr fc backends n).1 in
  r.2 = backends
  /\ (metricsreader.UpdateTime qr = FactorCPU.lastMetricTime fc -> r.1 = fc)
  /\ (metricsreader.UpdateTime qr <> FactorCPU.lastMetricTime fc ->
      (1 < length backends)%nat ->
      metricsreader.Err qr = false -> metricsreader.Empty qr = false ->
      r.1 = FactorCPU.updateCpuPerConn order
              (FactorCPU.updateSnapshot clock
                 (FactorCPU.set_lastMetricTime fc (metricsreader.UpdateTime qr))
                 qr backends n).1).
Proof.
  intros qr Hstale. unfold FactorCPU.UpdateScore. fold qr.
  destruct (Z.leb_spec (Z.of_nat (length backends)) 1) as [Hlen|Hlen].
  { simpl. repeat split; intros; try reflexivity; lia. }
  destruct (metricsreader.Err qr) eqn:Herr.
  { simpl. repeat split; intros; try reflexivity; discriminate. }
  destruct (metricsreader.Empty qr) eqn:Hempty.
  { simpl. repeat split; intros; try reflexivity; discriminate. }
  simpl. unfold mbind, M_bind, monotime.Since.
  destruct (Z.eqb_spec (metricsreader.UpdateTime qr) (FactorCPU.lastMetricTime fc))
    as [Heq|Hne]; simpl.
  - unfold mret, M_ret. rewrite <- Heq.
    pose proof (Hstale n (le_n n)) as H. apply Z.gtb_gt in H. rewrite H. simpl.
    repeat split; intros; try reflexivity; contradiction.
  - pose proof (cpu_updateSnapshot_ticks clock
                  (FactorCPU.set_lastMetricTime fc (metricsreader.UpdateTime qr))
                  qr backends n) as Hticks.
    destruct (FactorCPU.updateSnapshot clock _ qr backends n) as [fc1 n1] eqn:E.
    simpl in Hticks. unfold mret, M_ret.
    assert (Hlast : FactorCPU.lastMetricTime (FactorCPU.updateCpuPerConn order fc1)
                    = metricsreader.UpdateTime qr).
    { assert (FactorCPU.lastMetricTime fc1 = metricsreader.UpdateTime qr) as H1.
      { pose proof (f_equal fst E) as E1. simpl in E1. rewrite <- E1.
        unfold FactorCPU.updateSnapshot, mbind, M_bind.
        destruct (forM _ backends ∅ n). reflexivity. }
      rewrite <- H1. apply updateCpuPerConn_frame. }
    rewrite Hlast.
    pose proof (Hstale n1 Hticks) as H. apply Z.gtb_gt in H. rewrite H. simpl.
    repeat split; intros; try reflexivity; contradiction.
Qed.

(** C2 (amended): when the metrics are stale, [UpdateScore] of either
    factor leaves every backend of the list, and so every composite
    score, as it was.  [FactorHealth] leaves its snapshot map as it was
    too.  [FactorCPU] leaves its state as it was when the result carries
    the update time it read last; a result with another update time,
    stale as it is, first rebuilds the snapshot and the usage per
    connection from that result. *)
Theorem UpdateScore_stale clock u order (mr : metricsreader.MetricsReader)
    (backends : list scoredBackend) (n : nat) :
  (forall fh : FactorHealth.t,
     Int64.sub (clock n) (health_latestTime mr fh) > errMetricExpDuration ->
     let r := (FactorHealth.UpdateScore clock u mr fh backends n).1 in
     FactorHealth.snapshot r.1 = FactorHealth.snapshot fh /\ r.2 = backends)
  /\ (forall fc : FactorCPU.t,
        let qr := mr (FactorCPU.queryID fc) in
        (forall k, (n <= k)%nat ->
           Int64.sub (clock k) (metricsreader.UpdateTime qr) > cpuMetricExpDuration) ->
        let r := (FactorCPU.UpdateScore clock u order mr fc backends n).1 in
        r.2 = backends
        /\ (metricsreader.UpdateTime qr = FactorCPU.lastMetricTime fc -> r.1 = fc)
        /\ (metricsreader.UpdateTime qr <> FactorCPU.lastMetricTime fc ->
            (1 < length backends)%nat ->
            metricsreader.Err qr = false -> metricsreader.Empty qr = false ->
            r.1 = FactorCPU.updateCpuPerConn order
                    (FactorCPU.updateSnapshot clock
                       (FactorCPU.set_lastMetricTime fc (metricsreader.UpdateTime qr))
                       qr backends n).1)).
Proof.
  split.
  - intros fh. apply health_UpdateScore_stale.
  - intros fc. apply cpu_UpdateScore_stale.
Qed.

Lemma UpdateScore_stale_witness :
  let backends := [backend_a; backend_b] in
  let health := (FactorHealth.UpdateScore clock_10min (fun _ => 0)
                   (fun _ => cpu_result 0.5%float) new_health backends 0%nat).1 in
  let cpu := (FactorCPU.UpdateScore clock_10min (fun _ => 0) in_key_order
                (fun _ => cpu_result 0.5%float) new_cpu backends 0%nat).1 in
  Int64.sub (clock_10min 0%nat) (health_latestTime (fun _ => cpu_result 0.5%float) new_health)
  > errMetricExpDuration
  /\ (forall k, (0 <= k)%nat ->
        Int64.sub (clock_10min k) (metricsreader.UpdateTime (cpu_result 0.5%float))
        > cpuMetricExpDuration)
  /\ (FactorHealth.snapshot health.1 = FactorHealth.snapshot new_health
      /\ health.2 = backends)
  /\ cpu.2 = backends.
Proof.
  pose proof (UpdateScore_stale clock_10min (fun _ => 0) in_key_order
                (fun _ => cpu_result 0.5%float) [backend_a; backend_b] 0%nat)
    as [Hhealth Hcpu].
  assert (H1 : Int64.sub (clock_10min 0%nat)
                 (health_latestTime (fun _ => cpu_result 0.5%float) new_health)
               > errMetricExpDuration) by reflexivity.
  assert (H2 : forall k, (0 <= k)%nat ->
                 Int64.sub (clock_10min k) (metricsreader.UpdateTime (cpu_result 0.5%float))
                 > cpuMetricExpDuration) by (intros k _; reflexivity).
  split; [exact H1|]. split; [exact H2|]. split.
  - exact (Hhealth new_health H1).
  - exact (proj1 (Hcpu new_cpu H2)).
Defined.

(** A factor just made reads, ten minutes after a result updated at
    minute 1: the result is stale, the scores stay, and the snapshot is
    rebuilt from it all the same. *)
Example cpu_UpdateScore_stale_new_result :
  let r := (FactorCPU.UpdateScore clock_10min (fun _ => 0) in_key_order
              (fun _ => cpu_result 0.5%float) new_cpu [backend_a; backend_b] 0%nat).1 in
  r.2 = [backend_a; backend_b]
  /\ FactorCPU.snapshot new_cpu !! "a" = None
  /\ FactorCPU.snapshot r.1 !! "a"
     = Some {| cpuBackendSnapshot.updatedTime := 1 * time.Minute;
               cpuBackendSnapshot.avgUsage := 0.5%float;
               cpuBackendSnapshot.latestUsage := 0.5%float;
               cpuBackendSnapshot.connCount := 10 |}
  /\ FactorCPU.usagePerConn new_cpu = 0%float
  /\ FactorCPU.usagePerConn r.1 = (1 / 20)%float.
Proof. vm_compute. repeat split. Qed.

(** C2 as stated fails for [FactorCPU]: stale metrics do not keep its
    snapshot as it was. *)
Lemma cpu_UpdateScore_stale_not_noop :
  ~ (forall clock u order (mr : metricsreader.MetricsReader) (fc : FactorCPU.t)
       (backends : list scoredBackend) (n : nat),
       let qr := mr (FactorCPU.queryID fc) in
       (forall k, (n <= k)%nat ->
          Int64.sub (clock k) (metricsreader.UpdateTime qr) > cpuMetricExpDuration) ->
       let r := (FactorCPU.UpdateScore clock u order mr fc backends n).1 in
       FactorCPU.snapshot r.1 = FactorCPU.snapshot fc /\ r.2 = backends).
Proof.
  intros H.
  specialize (H clock_10min (fun _ => 0) in_key_order (fun _ => cpu_result 0.5%float)
                new_cpu [backend_a; backend_b] 0%nat).
  destruct H as [Hsnap _]; [intros k _; reflexivity|].
  pose proof cpu_UpdateScore_stale_new_result as (_ & Hold & Hnew & _).
  rewrite Hsnap, Hold in Hnew. discriminate Hnew.
Qed.

(** The health factor just made has seen no result: its latest update
    time is 0 and ten minutes later it is stale. *)
Example health_UpdateScore_stale_new :
  let fh := FactorHealth.NewFactorHealth (fun _ => 1) in
  let mr := fun _ : Z => metricsreader.zero in
  Int64.sub (clock_10min 0%nat) (health_latestTime mr fh) > errMetricExpDuration
  /\ (FactorHealth.UpdateScore clock_10min (fun _ => 0) mr fh
        [backend_a; backend_b] 0%nat).1.2 = [backend_a; backend_b].
Proof. vm_compute. split; reflexivity. Qed.

(** ** Further properties of a scoring pass *)

(** With one backend or none, [UpdateScore] of either factor does
    nothing: the factor, the backends and the clock are as before. *)
Theorem UpdateScore_single_noop clock u order (mr : metricsreader.MetricsReader)
    (backends : list scoredBackend) (n : nat) :
  (length backends <= 1)%nat ->
  (forall fh : FactorHealth.t,
     FactorHealth.UpdateScore clock u mr fh backends n = (fh, backends, n))
  /\ (forall fc : FactorCPU.t,
        FactorCPU.UpdateScore clock u order mr fc backends n = (fc, backends, n)).
Proof.
  intros Hlen.
  assert (H : (Z.of_nat (length backends) <=? 1) = true) by (apply Z.leb_le; lia).
  split; intros f; unfold FactorHealth.UpdateScore, FactorCPU.UpdateScore;
    rewrite H; reflexivity.
Qed.

Lemma UpdateScore_single_noop_witness :
  (length [backend_a] <= 1)%nat
  /\ (forall fh : FactorHealth.t,
        FactorHealth.UpdateScore clock_10min (fun _ => 0)
          (fun _ => health_result (9 * time.Minute)) fh [backend_a] 0%nat
        = (fh, [backend_a], 0%nat))
  /\ (forall fc : FactorCPU.t,
        FactorCPU.UpdateScore clock_10min (fun _ => 0) in_key_order
          (fun _ => health_result (9 * time.Minute)) fc [backend_a] 0%nat
        = (fc, [backend_a], 0%nat)).
Proof.
  split; [simpl; lia|].
  apply (UpdateScore_single_noop clock_10min (fun _ => 0) in_key_order
           (fun _ => health_result (9 * time.Minute)) [backend_a] 0%nat).
  simpl. lia.
Defined.

(** A backend the CPU factor holds no snapshot of counts as fully
    loaded: both usages are 1 and its sub-score is 100 / 5 = 20. *)
Theorem cpu_missing_backend_full u (fc : FactorCPU.t) (backend : scoredBackend) :
  FactorCPU.snapshot fc !! Addr backend = None ->
  FactorCPU.getUsage fc backend = (1%float, 1%float)
  /\ FactorCPU.cpuScore u fc backend = 20.
Proof.
  intros Hnone. unfold FactorCPU.cpuScore, FactorCPU.getUsage. rewrite Hnone.
  split; reflexivity.
Qed.

Lemma cpu_missing_backend_full_witness :
  FactorCPU.snapshot new_cpu !! Addr backend_a = None
  /\ FactorCPU.getUsage new_cpu backend_a = (1%float, 1%float)
  /\ FactorCPU.cpuScore (fun _ => 0) new_cpu backend_a = 20.
Proof.
  split; [reflexivity|].
  apply (cpu_missing_backend_full (fun _ => 0) new_cpu backend_a). reflexivity.
Defined.

(** The scenario of two backends at the usage 0.2 and 0.9 with no
    connection gained or lost: nothing moves from the idle one to the
    loaded one, and [max 1 (int (1 / 0.001 / 600)) = 1] connection moves
    the other way; their sub-scores are 4 and 18. *)
Example cpu_two_loads_balance :
  FactorCPU.BalanceCount (fun _ => 0) cpu_two_loads backend_a backend_b = 0
  /\ FactorCPU.BalanceCount (fun _ => 0) cpu_two_loads backend_b backend_a = 1
  /\ FactorCPU.cpuScore (fun _ => 0) cpu_two_loads backend_a = 4
  /\ FactorCPU.cpuScore (fun _ => 0) cpu_two_loads backend_b = 18.
Proof. vm_compute. repeat split. Qed.

(** ** calcValueRange on descending thresholds, and its monotony *)

(** With [failThreshold <= recoverThreshold] (a value that sinks when
    the backend fails) a sample that is not NaN is classified by
    [int(v)]: Normal exactly when [int(v) >= recoverThreshold], Abnormal
    exactly when [int(v)] is below [recoverThreshold] and at most
    [failThreshold], Mid exactly when it is strictly between the two;
    with equal thresholds no value is Mid. *)
Theorem calcValueRange_descending u (indicator : errIndicator.t) (sample : model.Sample.t) :
  errIndicator.failThreshold indicator <= errIndicator.recoverThreshold indicator ->
  Float64.IsNaN (model.Sample.Value sample) = false ->
  let value := Float64.to_int u (model.Sample.Value sample) in
  let vr := calcValueRange u (Some sample) indicator in
  (vr = valueRangeNormal <-> errIndicator.recoverThreshold indicator <= value)
  /\ (vr = valueRangeAbnormal <->
      value < errIndicator.recoverThreshold indicator
      /\ value <= errIndicator.failThreshold indicator)
  /\ (vr = valueRangeMid <->
      errIndicator.failThreshold indicator < value < errIndicator.recoverThreshold indicator)
  /\ (errIndicator.failThreshold indicator = errIndicator.recoverThreshold indicator ->
      vr <> valueRangeMid).
Proof.
  intros Hdesc Hnan value vr. subst vr. unfold calcValueRange. rewrite Hnan. fold value.
  rewrite Z.gtb_ltb, !Z.geb_leb.
  destruct (Z.ltb_spec (errIndicator.recoverThreshold indicator)
              (errIndicator.failThreshold indicator)) as [Hlt|_]; [lia|].
  destruct (Z.leb_spec (errIndicator.recoverThreshold indicator) value) as [Hn|Hn].
  - repeat split; intros; try discriminate; try lia; try reflexivity.
  - destruct (Z.leb_spec value (errIndicator.failThreshold indicator)) as [Ha|Ha].
    + repeat split; intros; try discriminate; try lia; try reflexivity.
    + repeat split; intros; try discriminate; try lia; try reflexivity.
Qed.

Lemma calcValueRange_descending_witness :
  let sample := sample_of 30%float in
  errIndicator.failThreshold indicator_descending
  <= errIndicator.recoverThreshold indicator_descending
  /\ Float64.IsNaN (model.Sample.Value sample) = false
  /\ calcValueRange (fun _ => 0) (Some sample) indicator_descending = valueRangeMid.
Proof.
  intros sample.
  assert (Hdesc : errIndicator.failThreshold indicator_descending
                  <= errIndicator.recoverThreshold indicator_descending)
    by (vm_compute; discriminate).
  assert (Hnan : Float64.IsNaN (model.Sample.Value sample) = false) by reflexivity.
  split; [exact Hdesc|]. split; [exact Hnan|].
  destruct (calcValueRange_descending (fun _ => 0) indicator_descending sample Hdesc Hnan)
    as (_ & _ & Hmid & _).
  apply Hmid. vm_compute. split; reflexivity.
Defined.

(** The classification follows the integer value of the sample: with
    ascending thresholds a larger value is never in a better range, with
    descending thresholds never in a worse one. *)
Theorem calcValueRange_monotone u (indicator : errIndicator.t) (s1 s2 : model.Sample.t) :
  Float64.IsNaN (model.Sample.Value s1) = false ->
  Float64.IsNaN (model.Sample.Value s2) = false ->
  Float64.to_int u (model.Sample.Value s1) <= Float64.to_int u (model.Sample.Value s2) ->
  let r1 := valueRange_int (calcValueRange u (Some s1) indicator) in
  let r2 := valueRange_int (calcValueRange u (Some s2) indicator) in
  if errIndicator.failThreshold indicator >? errIndicator.recoverThreshold indicator
  then r1 <= r2 else r2 <= r1.
Proof.
  intros H1 H2 Hle r1 r2. subst r1 r2. unfold calcValueRange. rewrite H1, H2.
  set (v1 := Float64.to_int u (model.Sample.Value s1)) in *.
  set (v2 := Float64.to_int u (model.Sample.Value s2)) in *.
  rewrite !Z.geb_leb.
  destruct (errIndicator.failThreshold indicator >? errIndicator.recoverThreshold indicator).
  - destruct (Z.leb_spec v1 (errIndicator.recoverThreshold indicator));
      destruct (Z.leb_spec v2 (errIndicator.recoverThreshold indicator));
      destruct (Z.leb_spec (errIndicator.failThreshold indicator) v1);
      destruct (Z.leb_spec (errIndicator.failThreshold indicator) v2); simpl; lia.
  - destruct (Z.leb_spec (errIndicator.recoverThreshold indicator) v1);
      destruct (Z.leb_spec (errIndicator.recoverThreshold indicator) v2);
      destruct (Z.leb_spec v1 (errIndicator.failThreshold indicator));
      destruct (Z.leb_spec v2 (errIndicator.failThreshold indicator)); simpl; lia.
Qed.

Lemma calcValueRange_monotone_witness :
  let s1 := sample_of 5%float in
  let s2 := sample_of 60%float in
  Float64.IsNaN (model.Sample.Value s1) = false
  /\ Float64.IsNaN (model.Sample.Value s2) = false
  /\ Float64.to_int (fun _ => 0) (model.Sample.Value s1)
     <= Float64.to_int (fun _ => 0) (model.Sample.Value s2)
  /\ valueRange_int (calcValueRange (fun _ => 0) (Some s1) indicator_pdRPC)
     <= valueRange_int (calcValueRange (fun _ => 0) (Some s2) indicator_pdRPC).
Proof.
  intros s1 s2.
  assert (H1 : Float64.IsNaN (model.Sample.Value s1) = false) by reflexivity.
  assert (H2 : Float64.IsNaN (model.Sample.Value s2) = false) by reflexivity.
  assert (Hle : Float64.to_int (fun _ => 0) (model.Sample.Value s1)
                <= Float64.to_int (fun _ => 0) (model.Sample.Value s2))
    by (vm_compute; discriminate).
  split; [exact H1|]. split; [exact H2|]. split; [exact Hle|].
  exact (calcValueRange_monotone (fun _ => 0) indicator_pdRPC s1 s2 H1 H2 Hle).
Defined.

(** ** The results a pass fetches *)

(** The first loop of [FactorHealth.UpdateScore], indicator by
    indicator. *)
Lemma fetchResults_spec (mr : metricsreader.MetricsReader) (indicators : list errIndicator.t) :
  forall (need : bool) (latest : Z),
    FactorHealth.fetchResults mr indicators need latest
    = (map (refreshed mr) indicators,
       existsb (has_news mr) indicators || need,
       fold_left (later_of mr) indicators latest).
Proof.
  induction indicators as [|indicator rest IH]; intros need latest; simpl.
  - reflexivity.
  - unfold refreshed, has_news, later_of, has_result.
    destruct (metricsreader.Err (mr (errIndicator.queryID indicator))
              || metricsreader.Empty (mr (errIndicator.queryID indicator))); simpl.
    + rewrite IH. reflexivity.
    + rewrite IH. f_equal. f_equal.
      destruct (_ =? _); simpl; [reflexivity|].
      now rewrite orb_true_r.
Qed.

Lemma refreshed_queryID (mr : metricsreader.MetricsReader) (indicator : errIndicator.t) :
  errIndicator.queryID (refreshed mr indicator) = errIndicator.queryID indicator.
Proof. unfold refreshed. now destruct (has_news mr indicator). Qed.

Lemma refreshed_no_news (mr : metricsreader.MetricsReader) (indicator : errIndicator.t) :
  has_news mr (refreshed mr indicator) = false.
Proof.
  unfold refreshed. destruct (has_news mr indicator) eqn:E.
  - unfold has_news. simpl. rewrite Z.eqb_refl. apply andb_false_r.
  - exact E.
Qed.

Lemma refreshed_idem (mr : metricsreader.MetricsReader) (indicator : errIndicator.t) :
  refreshed mr (refreshed mr indicator) = refreshed mr indicator.
Proof.
  unfold refreshed at 1. now rewrite refreshed_no_news.
Qed.

Lemma later_of_refreshed (mr : metricsreader.MetricsReader) (indicators : list errIndicator.t) :
  forall latest,
    fold_left (later_of mr) (map (refreshed mr) indicators) latest
    = fold_left (later_of mr) indicators latest.
Proof.
  induction indicators as [|indicator rest IH]; intros latest; simpl; [reflexivity|].
  rewrite IH. f_equal. unfold later_of. now rewrite refreshed_queryID.
Qed.

(** Fetching again from a reader that answers the same brings nothing
    new. *)
Lemma fetchResults_again (mr : metricsreader.MetricsReader) (indicators : list errIndicator.t)
    (latest : Z) :
  FactorHealth.fetchResults mr (map (refreshed mr) indicators) false latest
  = (map (refreshed mr) indicators, false, fold_left (later_of mr) indicators latest).
Proof.
  rewrite fetchResults_spec, later_of_refreshed. f_equal. f_equal.
  - rewrite map_map. apply map_ext. intros a. apply refreshed_idem.
  - rewrite orb_false_r. induction indicators as [|indicator rest IH]; simpl; [reflexivity|].
    now rewrite refreshed_no_news, IH.
Qed.

Lemma health_set_indicators_same (fh : FactorHealth.t) :
  FactorHealth.set_indicators fh (FactorHealth.indicators fh) = fh.
Proof. now destruct fh. Qed.

(** After a pass over two backends or more the factor holds the
    refreshed indicators. *)
Lemma health_UpdateScore_indicators clock u (mr : metricsreader.MetricsReader)
    (fh : FactorHealth.t) (backends : list scoredBackend) (n : nat) :
  FactorHealth.indicators (FactorHealth.UpdateScore clock u mr fh backends n).1.1
  = if Z.of_nat (length backends) <=? 1 then FactorHealth.indicators fh
    else map (refreshed mr) (FactorHealth.indicators fh).
Proof.
  unfold FactorHealth.UpdateScore.
  destruct (Z.of_nat (length backends) <=? 1); [reflexivity|].
  rewrite fetchResults_spec.
  unfold mbind, M_bind, monotime.Since.
  destruct (_ >? errMetricExpDuration); [reflexivity|].
  destruct (existsb _ _ || false); [|reflexivity].
  unfold FactorHealth.updateSnapshot, mbind, M_bind.
  destruct (forM _ backends ∅ (S n)) as [snapshots n']. reflexivity.
Qed.

(** A pass on the metrics of the pass before changes nothing in
    [FactorHealth]: when a pass over two backends or more has taken the
    reader's results, another pass to which the reader answers the same
    leaves the factor (indicators, snapshot and with it every balance
    count) as it is, whatever the backends and the clock. *)
Theorem health_UpdateScore_same_metrics clock u (mr : metricsreader.MetricsReader)
    (fh : FactorHealth.t) (backends backends' : list scoredBackend) (n n' : nat) :
  (2 <= length backends)%nat ->
  let fh1 := (FactorHealth.UpdateScore clock u mr fh backends n).1.1 in
  (FactorHealth.UpdateScore clock u mr fh1 backends' n').1.1 = fh1.
Proof.
  intros Hlen fh1.
  assert (Hind : FactorHealth.indicators fh1 = map (refreshed mr) (FactorHealth.indicators fh)).
  { subst fh1. rewrite health_UpdateScore_indicators.
    destruct (Z.leb_spec (Z.of_nat (length backends)) 1); [lia|reflexivity]. }
  clearbody fh1. unfold FactorHealth.UpdateScore.
  destruct (Z.of_nat (length backends') <=? 1); [reflexivity|].
  rewrite Hind, fetchResults_again, <- Hind, health_set_indicators_same.
  unfold mbind, M_bind, monotime.Since.
  destruct (_ >? errMetricExpDuration); reflexivity.
Qed.

Lemma health_UpdateScore_same_metrics_witness :
  let mr := fun _ : Z => health_result (9 * time.Minute) in
  let fh1 := (FactorHealth.UpdateScore clock_10min (fun _ => 0) mr new_health
                [backend_a; backend_b] 0%nat).1.1 in
  (2 <= length [backend_a; backend_b])%nat
  /\ (FactorHealth.UpdateScore clock_10min (fun _ => 0) mr fh1
        [backend_a4; backend_b] 3%nat).1.1 = fh1.
Proof.
  intros mr fh1.
  assert (Hlen : (2 <= length [backend_a; backend_b])%nat) by (simpl; lia).
  split; [exact Hlen|].
  exact (health_UpdateScore_same_metrics clock_10min (fun _ => 0) mr new_health
           [backend_a; backend_b] [backend_a4; backend_b] 0%nat 3%nat Hlen).
Defined.

Lemma later_of_fold (mr : metricsreader.MetricsReader) (indicators : list errIndicator.t) :
  forall latest0,
    let latest := fold_left (later_of mr) indicators latest0 in
    latest0 <= latest
    /\ (forall indicator, indicator ∈ indicators ->
          has_result (mr (errIndicator.queryID indicator)) = true ->
          metricsreader.UpdateTime (mr (errIndicator.queryID indicator)) <= latest)
    /\ (latest = latest0
        \/ exists indicator, indicator ∈ indicators
             /\ has_result (mr (errIndicator.queryID indicator)) = true
             /\ metricsreader.UpdateTime (mr (errIndicator.queryID indicator)) = latest).
Proof.
  induction indicators as [|indicator rest IH]; intros latest0; simpl.
  - split; [lia|]. split; [|now left].
    intros indicator Hin. now apply elem_of_nil in Hin.
  - destruct (IH (later_of mr latest0 indicator)) as (Hle & Hall & Hex).
    assert (Hstep : latest0 <= later_of mr latest0 indicator
                    /\ (has_result (mr (errIndicator.queryID indicator)) = true ->
                        metricsreader.UpdateTime (mr (errIndicator.queryID indicator))
                        <= later_of mr latest0 indicator)
                    /\ (later_of mr latest0 indicator = latest0
                        \/ has_result (mr (errIndicator.queryID indicator)) = true
                           /\ metricsreader.UpdateTime (mr (errIndicator.queryID indicator))
                              = later_of mr latest0 indicator)).
    { unfold later_of.
      destruct (has_result (mr (errIndicator.queryID indicator))); simpl.
      - rewrite Z.gtb_ltb.
        destruct (Z.ltb_spec latest0
                    (metricsreader.UpdateTime (mr (errIndicator.queryID indicator))));
          repeat split; try lia; auto.
      - repeat split; try lia; try discriminate; auto. }
    destruct Hstep as (H0 & H1 & H2).
    split; [lia|]. split.
    + intros i Hin Hres. apply elem_of_cons in Hin as [->|Hin].
      * specialize (H1 Hres). lia.
      * now apply Hall.
    + destruct Hex as [Heq|(i & Hin & Hres & Heq)].
      * destruct H2 as [H2|[Hres H2]].
        -- left. lia.
        -- right. exists indicator. split; [apply elem_of_cons; now left|].
           split; [exact Hres|lia].
      * right. exists i. split; [apply elem_of_cons; now right|]. now split.
Qed.

(** The update time [FactorHealth.UpdateScore] compares with the clock
    is the newest among the results the reader has for the indicators
    (no error, not empty), and 0 if there is none or none is positive:
    one recent result is enough for the factor not to be stale. *)
Theorem health_latestTime_newest (mr : metricsreader.MetricsReader) (fh : FactorHealth.t) :
  let latest := health_latestTime mr fh in
  0 <= latest
  /\ (forall indicator, indicator ∈ FactorHealth.indicators fh ->
        has_result (mr (errIndicator.queryID indicator)) = true ->
        metricsreader.UpdateTime (mr (errIndicator.queryID indicator)) <= latest)
  /\ (latest = 0
      \/ exists indicator, indicator ∈ FactorHealth.indicators fh
           /\ has_result (mr (errIndicator.queryID indicator)) = true
           /\ metricsreader.UpdateTime (mr (errIndicator.queryID indicator)) = latest).
Proof.
  unfold health_latestTime. rewrite fetchResults_spec. simpl.
  apply later_of_fold.
Qed.

Lemma cpu_updateSnapshot_frame clock (fc : FactorCPU.t) (qr : metricsreader.QueryResult)
    (backends : list scoredBackend) (n : nat) :
  let fc' := (FactorCPU.updateSnapshot clock fc qr backends n).1 in
  FactorCPU.lastMetricTime fc' = FactorCPU.lastMetricTime fc
  /\ FactorCPU.usagePerConn fc' = FactorCPU.usagePerConn fc
  /\ FactorCPU.queryID fc' = FactorCPU.queryID fc
  /\ FactorCPU.bitNum fc' = FactorCPU.bitNum fc.
Proof.
  unfold FactorCPU.updateSnapshot, mbind, M_bind.
  destruct (forM _ backends ∅ n) as [snapshots n']. simpl. repeat split.
Qed.

(** A pass keeps the query ID and the bit width of [FactorCPU], and
    leaves in [lastMetricTime] the update time of the result it had. *)
Lemma cpu_UpdateScore_frame clock u order (mr : metricsreader.MetricsReader)
    (fc : FactorCPU.t) (backends : list scoredBackend) (n : nat) :
  let fc' := (FactorCPU.UpdateScore clock u order mr fc backends n).1.1 in
  FactorCPU.queryID fc' = FactorCPU.queryID fc
  /\ FactorCPU.bitNum fc' = FactorCPU.bitNum fc
  /\ FactorCPU.lastMetricTime fc'
     = if (Z.of_nat (length backends) <=? 1)
          || negb (has_result (mr (FactorCPU.queryID fc)))
       then FactorCPU.lastMetricTime fc
       else metricsreader.UpdateTime (mr (FactorCPU.queryID fc)).
Proof.
  unfold FactorCPU.UpdateScore, has_result.
  destruct (Z.of_nat (length backends) <=? 1); [simpl; repeat split|].
  destruct (metricsreader.Err _ || metricsreader.Empty _); [simpl; repeat split|].
  simpl. unfold mbind, M_bind, monotime.Since, mret, M_ret.
  destruct (Z.eqb_spec (metricsreader.UpdateTime (mr (FactorCPU.queryID fc)))
              (FactorCPU.lastMetricTime fc)) as [Heq|Hne]; simpl.
  - destruct (_ >? cpuMetricExpDuration); simpl; repeat split; now rewrite Heq.
  - pose proof (cpu_updateSnapshot_frame clock
                  (FactorCPU.set_lastMetricTime fc
                     (metricsreader.UpdateTime (mr (FactorCPU.queryID fc))))
                  (mr (FactorCPU.queryID fc)) backends n) as (Hl & _ & Hq & Hb).
    destruct (FactorCPU.updateSnapshot clock _ _ backends n) as [fc1 n1].
    simpl in Hl, Hq, Hb.
    destruct (updateCpuPerConn_frame order fc1) as (_ & Hl' & Hq' & Hb').
    destruct (_ >? cpuMetricExpDuration); simpl; repeat split; congruence.
Qed.

(** A pass on the metrics of the pass before changes nothing in
    [FactorCPU]: after a pass over two backends or more, another pass to
    which the reader answers the same leaves the factor (snapshot, usage
    per connection, last metric time) as it is, whatever the backends
    and the clock. *)
Theorem cpu_UpdateScore_same_metrics clock u order (mr : metricsreader.MetricsReader)
    (fc : FactorCPU.t) (backends backends' : list scoredBackend) (n n' : nat) :
  (2 <= length backends)%nat ->
  let fc1 := (FactorCPU.UpdateScore clock u order mr fc backends n).1.1 in
  (FactorCPU.UpdateScore clock u order mr fc1 backends' n').1.1 = fc1.
Proof.
  intros Hlen fc1.
  destruct (cpu_UpdateScore_frame clock u order mr fc backends n) as (Hq & _ & Hl).
  fold fc1 in Hq, Hl. clearbody fc1.
  destruct (Z.leb_spec (Z.of_nat (length backends)) 1) as [Hle|_]; [lia|].
  simpl in Hl.
  unfold FactorCPU.UpdateScore.
  destruct (Z.of_nat (length backends') <=? 1); [reflexivity|].
  rewrite Hq. unfold has_result in Hl.
  destruct (metricsreader.Err _ || metricsreader.Empty _); [reflexivity|].
  simpl in Hl. rewrite Hl, Z.eqb_refl. simpl.
  unfold mbind, M_bind, monotime.Since, mret, M_ret.
  destruct (_ >? cpuMetricExpDuration); reflexivity.
Qed.

Lemma cpu_UpdateScore_same_metrics_witness :
  let mr := fun _ : Z => cpu_result_fresh in
  let fc1 := (FactorCPU.UpdateScore clock_10min (fun _ => 0) in_key_order mr new_cpu
                [busy_a; busy_b] 0%nat).1.1 in
  (2 <= length [busy_a; busy_b])%nat
  /\ (FactorCPU.UpdateScore clock_10min (fun _ => 0) in_key_order mr fc1
        [drained_a; busy_b] 1%nat).1.1 = fc1.
Proof.
  intros mr fc1.
  assert (Hlen : (2 <= length [busy_a; busy_b])%nat) by (simpl; lia).
  split; [exact Hlen|].
  exact (cpu_UpdateScore_same_metrics clock_10min (fun _ => 0) in_key_order mr new_cpu
           [busy_a; busy_b] [drained_a; busy_b] 0%nat 1%nat Hlen).
Defined.

Lemma fetchResults_no_result (mr : metricsreader.MetricsReader)
    (indicators : list errIndicator.t) :
  (forall indicator, indicator ∈ indicators ->
     has_result (mr (errIndicator.queryID indicator)) = false) ->
  forall latest,
    map (refreshed mr) indicators = indicators
    /\ existsb (has_news mr) indicators = false
    /\ fold_left (later_of mr) indicators latest = latest.
Proof.
  induction indicators as [|indicator rest IH]; intros Hnone latest; simpl; [repeat split|].
  assert (Hres := Hnone indicator ltac:(apply elem_of_cons; now left)).
  destruct (IH ltac:(intros i Hin; apply Hnone, elem_of_cons; now right) latest)
    as (H1 & H2 & H3).
  assert (Hnews : has_news mr indicator = false) by (unfold has_news; now rewrite Hres).
  assert (Hlater : later_of mr latest indicator = latest)
    by (unfold later_of; now rewrite Hres).
  unfold refreshed at 1. rewrite Hnews, Hlater, H1, H2, H3. repeat split.
Qed.

(** When the reader has no result (an error, or an empty one), a pass
    changes nothing in the factor.  [FactorCPU] returns at once: no
    backend is scored and the clock is not read.  [FactorHealth] goes on
    with the latest update time 0: it scores the backends from the
    snapshot it holds unless the clock reads more than a minute. *)
Theorem UpdateScore_no_result clock u order (mr : metricsreader.MetricsReader)
    (backends : list scoredBackend) (n : nat) :
  (forall fh : FactorHealth.t,
     (forall indicator, indicator ∈ FactorHealth.indicators fh ->
        has_result (mr (errIndicator.queryID indicator)) = false) ->
     let r := (FactorHealth.UpdateScore clock u mr fh backends n).1 in
     r.1 = fh
     /\ r.2 = if (Z.of_nat (length backends) <=? 1)
                 || (Int64.sub (clock n) 0 >? errMetricExpDuration)
              then backends
              else map (fun b => addScore b (FactorHealth.caclErrScore fh (Addr b))
                                   (FactorHealth.bitNum fh)) backends)
  /\ (forall fc : FactorCPU.t,
        has_result (mr (FactorCPU.queryID fc)) = false ->
        FactorCPU.UpdateScore clock u order mr fc backends n = (fc, backends, n)).
Proof.
  split.
  - intros fh Hnone.
    destruct (fetchResults_no_result mr (FactorHealth.indicators fh) Hnone 0) as (H1 & H2 & H3).
    unfold FactorHealth.UpdateScore.
    destruct (Z.of_nat (length backends) <=? 1); [simpl; split; reflexivity|].
    rewrite fetchResults_spec, H1, H2, H3, health_set_indicators_same. simpl.
    unfold mbind, M_bind, monotime.Since, mret, M_ret.
    destruct (_ >? errMetricExpDuration); simpl; split; reflexivity.
  - intros fc Hres. unfold FactorCPU.UpdateScore. unfold has_result in Hres.
    destruct (Z.of_nat (length backends) <=? 1); [reflexivity|].
    apply negb_false_iff in Hres. rewrite Hres. reflexivity.
Qed.

(** ** What a run of passes keeps *)

Lemma refreshed_config (mr : metricsreader.MetricsReader) (indicator : errIndicator.t) :
  indicator_config (refreshed mr indicator) = indicator_config indicator.
Proof. unfold refreshed. now destruct (has_news mr indicator). Qed.

Lemma health_UpdateScore_config clock u (mr : metricsreader.MetricsReader)
    (fh : FactorHealth.t) (backends : list scoredBackend) (n : nat) :
  let fh' := (FactorHealth.UpdateScore clock u mr fh backends n).1.1 in
  FactorHealth.bitNum fh' = FactorHealth.bitNum fh
  /\ map indicator_config (FactorHealth.indicators fh')
     = map indicator_config (FactorHealth.indicators fh).
Proof.
  intros fh'. split.
  - subst fh'. unfold FactorHealth.UpdateScore.
    destruct (Z.of_nat (length backends) <=? 1); [reflexivity|].
    rewrite fetchResults_spec.
    unfold mbind, M_bind, monotime.Since.
    destruct (_ >? errMetricExpDuration); [reflexivity|].
    destruct (existsb _ _ || false); [|reflexivity].
    unfold FactorHealth.updateSnapshot, mbind, M_bind.
    destruct (forM _ backends ∅ (S n)) as [snapshots n']. reflexivity.
  - subst fh'. rewrite health_UpdateScore_indicators.
    destruct (Z.of_nat (length backends) <=? 1); [reflexivity|].
    rewrite map_map. apply map_ext. intros a. apply refreshed_config.
Qed.

Lemma health_run_keeps clock u (passes : list pass) :
  forall fh : FactorHealth.t,
    FactorHealth.bitNum (health_run clock u passes fh) = FactorHealth.bitNum fh
    /\ map indicator_config (FactorHealth.indicators (health_run clock u passes fh))
       = map indicator_config (FactorHealth.indicators fh).
Proof.
  unfold health_run.
  induction passes as [|p passes IH]; intros fh; simpl; [split; reflexivity|].
  destruct (IH (FactorHealth.UpdateScore clock u (pass_reader p) fh (pass_backends p)
                  (pass_readings p)).1.1) as [Hb Hc].
  destruct (health_UpdateScore_config clock u (pass_reader p) fh (pass_backends p)
              (pass_readings p)) as [Hb' Hc'].
  rewrite Hb, Hc. split; assumption.
Qed.

Lemma cpu_run_keeps clock u order (passes : list pass) :
  forall fc : FactorCPU.t,
    FactorCPU.bitNum (cpu_run clock u order passes fc) = FactorCPU.bitNum fc
    /\ FactorCPU.queryID (cpu_run clock u order passes fc) = FactorCPU.queryID fc.
Proof.
  unfold cpu_run.
  induction passes as [|p passes IH]; intros fc; simpl; [split; reflexivity|].
  destruct (IH (FactorCPU.UpdateScore clock u order (pass_reader p) fc (pass_backends p)
                  (pass_readings p)).1.1) as [Hb Hq].
  destruct (cpu_UpdateScore_frame clock u order (pass_reader p) fc (pass_backends p)
              (pass_readings p)) as (Hq' & Hb' & _).
  rewrite Hb, Hq. split; assumption.
Qed.

(** Whatever passes a health factor has been through since it was made,
    it has the two predefined indicators, each with the query expression
    and the ID it was registered with and its thresholds (fail at 50 and
    recover at 10, fail at 1000 and recover at 100: the fail threshold
    is the larger one), and the bit width 2. *)
Theorem health_run_config clock u (AddQueryExpr : metricsreader.QueryExpr -> Z)
    (passes : list pass) :
  let fh := health_run clock u passes (FactorHealth.NewFactorHealth AddQueryExpr) in
  FactorHealth.ScoreBitNum fh = 2
  /\ map indicator_config (FactorHealth.indicators fh)
     = map (fun def => (errQueryExpr def, AddQueryExpr (errQueryExpr def),
                        errDefinition.failThreshold def,
                        errDefinition.recoverThreshold def)) errDefinitions
  /\ (errIndicator.failThreshold <$> FactorHealth.indicators fh) = [50; 1000]
  /\ (errIndicator.recoverThreshold <$> FactorHealth.indicators fh) = [10; 100]
  /\ Forall (fun indicator => errIndicator.failThreshold indicator
                              > errIndicator.recoverThreshold indicator)
       (FactorHealth.indicators fh).
Proof.
  intros fh.
  destruct (health_run_keeps clock u passes (FactorHealth.NewFactorHealth AddQueryExpr))
    as [Hb Hc].
  fold fh in Hb, Hc. clearbody fh.
  assert (Hconfig : map indicator_config (FactorHealth.indicators fh)
                    = map (fun def => (errQueryExpr def, AddQueryExpr (errQueryExpr def),
                                       errDefinition.failThreshold def,
                                       errDefinition.recoverThreshold def)) errDefinitions).
  { rewrite Hc. reflexivity. }
  split; [exact Hb|]. split; [exact Hconfig|].
  assert (Hf : errIndicator.failThreshold <$> FactorHealth.indicators fh = [50; 1000]).
  { change (errIndicator.failThreshold <$> FactorHealth.indicators fh)
      with (map (fun i => (indicator_config i).1.2) (FactorHealth.indicators fh)).
    rewrite <- (map_map indicator_config (fun c => c.1.2)), Hconfig. reflexivity. }
  assert (Hr : errIndicator.recoverThreshold <$> FactorHealth.indicators fh = [10; 100]).
  { change (errIndicator.recoverThreshold <$> FactorHealth.indicators fh)
      with (map (fun i => (indicator_config i).2) (FactorHealth.indicators fh)).
    rewrite <- (map_map indicator_config (fun c => c.2)), Hconfig. reflexivity. }
  split; [exact Hf|]. split; [exact Hr|].
  destruct (FactorHealth.indicators fh) as [|i1 [|i2 [|i3 rest]]]; try discriminate.
  injection Hf as Hf1 Hf2. injection Hr as Hr1 Hr2.
  repeat constructor; lia.
Qed.

(** Whatever passes a factor has been through, [Close] hands
    [RemoveQueryExpr] the query IDs [AddQueryExpr] returned when the
    factor was made, each once and in the order of the registration:
    two for [FactorHealth], one for [FactorCPU]. *)
Theorem Close_removes_registered clock u order
    (AddQueryExpr : metricsreader.QueryExpr -> Z) (passes : list pass) :
  FactorHealth.Close (health_run clock u passes (FactorHealth.NewFactorHealth AddQueryExpr))
  = map (fun def => AddQueryExpr (errQueryExpr def)) errDefinitions
  /\ FactorCPU.Close (cpu_run clock u order passes (FactorCPU.NewFactorCPU AddQueryExpr))
     = [AddQueryExpr FactorCPU.cpuQueryExpr].
Proof.
  split.
  - destruct (health_run_keeps clock u passes (FactorHealth.NewFactorHealth AddQueryExpr))
      as [_ Hc].
    unfold FactorHealth.Close.
    change (map (fun indicator => errIndicator.queryID indicator)
              (FactorHealth.indicators
                 (health_run clock u passes (FactorHealth.NewFactorHealth AddQueryExpr))))
      with (map (fun i => (indicator_config i).1.1.2)
              (FactorHealth.indicators
                 (health_run clock u passes (FactorHealth.NewFactorHealth AddQueryExpr)))).
    rewrite <- (map_map indicator_config (fun c => c.1.1.2)), Hc. reflexivity.
  - destruct (cpu_run_keeps clock u order passes (FactorCPU.NewFactorCPU AddQueryExpr))
      as [_ Hq].
    unfold FactorCPU.Close. rewrite Hq. reflexivity.
Qed.

(** ** The range of a backend over the indicators *)

Lemma valueRange_max_cases (a b : valueRange) :
  let m := if valueRange_int a >? valueRange_int b then a else b in
  valueRange_int a <= valueRange_int m /\ valueRange_int b <= valueRange_int m
  /\ (m = a \/ m = b).
Proof. destruct a, b; simpl; repeat split; auto; lia. Qed.

(** One turn of the inner loop of [FactorHealth.updateSnapshot] reads
    the clock once, and looks at the indicator if its result is fresh. *)
Lemma currentRange_step_spec clock u (backend : scoredBackend) (t0 : Z) (v0 : valueRange)
    (indicator : errIndicator.t) (n : nat) :
  currentRange_step clock u backend (t0, v0) indicator n
  = (if fresh_at clock n indicator
     then (if metricsreader.UpdateTime (errIndicator.queryResult indicator) >? t0
           then metricsreader.UpdateTime (errIndicator.queryResult indicator) else t0,
           if valueRange_int (indicatorRange u backend indicator) >? valueRange_int v0
           then indicatorRange u backend indicator else v0)
     else (t0, v0), S n).
Proof.
  unfold currentRange_step, fresh_at, indicatorRange, mbind, M_bind, monotime.Since.
  destruct (_ >? errMetricExpDuration); reflexivity.
Qed.

Lemma currentRange_unfold clock u (backend : scoredBackend) (indicators : list errIndicator.t) :
  FactorHealth.currentRange clock u backend indicators
  = forM (currentRange_step clock u backend) indicators (0, valueRangeNormal).
Proof. reflexivity. Qed.

(** The inner loop of [FactorHealth.updateSnapshot] from any state. *)
Lemma currentRange_from clock u (backend : scoredBackend) (indicators : list errIndicator.t) :
  forall (t0 : Z) (v0 : valueRange) (n : nat),
    let r := forM (currentRange_step clock u backend) indicators (t0, v0) n in
    r.2 = (n + length indicators)%nat
    /\ t0 <= r.1.1 /\ valueRange_int v0 <= valueRange_int r.1.2
    /\ (forall i indicator, indicators !! i = Some indicator ->
          fresh_at clock (n + i) indicator = true ->
          valueRange_int (indicatorRange u backend indicator) <= valueRange_int r.1.2
          /\ metricsreader.UpdateTime (errIndicator.queryResult indicator) <= r.1.1)
    /\ (r.1.2 = v0
        \/ exists i indicator, indicators !! i = Some indicator
             /\ fresh_at clock (n + i) indicator = true
             /\ indicatorRange u backend indicator = r.1.2)
    /\ (r.1.1 = t0
        \/ exists i indicator, indicators !! i = Some indicator
             /\ fresh_at clock (n + i) indicator = true
             /\ metricsreader.UpdateTime (errIndicator.queryResult indicator) = r.1.1).
Proof.
  induction indicators as [|indicator rest IH]; intros t0 v0 n.
  - simpl. split; [lia|]. split; [lia|]. split; [lia|].
    split; [intros i ind Hi; discriminate Hi|]. split; now left.
  - cbv zeta. rewrite forM_cons, currentRange_step_spec.
    set (ts := metricsreader.UpdateTime (errIndicator.queryResult indicator)).
    destruct (fresh_at clock n indicator) eqn:Hfresh; simpl fst; simpl snd.
    + set (t1 := if ts >? t0 then ts else t0).
      set (v1 := if valueRange_int (indicatorRange u backend indicator) >? valueRange_int v0
                 then indicatorRange u backend indicator else v0).
      specialize (IH t1 v1 (S n)). cbv zeta in IH.
      destruct IH as (Hn & Ht & Hv & Hall & Hexv & Hext).
      set (r := forM _ rest (t1, v1) (S n)) in *.
      assert (Ht1 : t0 <= t1 /\ ts <= t1 /\ (t1 = t0 \/ t1 = ts)).
      { subst t1. rewrite Z.gtb_ltb. destruct (Z.ltb_spec t0 ts); lia. }
      destruct (valueRange_max_cases (indicatorRange u backend indicator) v0)
        as (Hv1a & Hv1b & Hv1c). fold v1 in Hv1a, Hv1b, Hv1c.
      split; [rewrite Hn; simpl; lia|]. split; [lia|]. split; [lia|]. split.
      * intros [|i] ind Hi Hf.
        -- injection Hi as <-. split; [lia|fold ts; lia].
        -- simpl in Hi. replace (n + S i)%nat with (S n + i)%nat in Hf by lia.
           now apply (Hall i ind).
      * split.
        -- destruct Hexv as [Heq|(i & ind & Hi & Hf & Heq)].
           ++ destruct Hv1c as [Hc|Hc].
              ** right. exists 0%nat, indicator. rewrite Nat.add_0_r.
                 split; [reflexivity|]. split; [exact Hfresh|congruence].
              ** left. congruence.
           ++ right. exists (S i), ind. replace (n + S i)%nat with (S n + i)%nat by lia.
              now repeat split.
        -- destruct Hext as [Heq|(i & ind & Hi & Hf & Heq)].
           ++ destruct Ht1 as (_ & _ & [Hc|Hc]).
              ** left. congruence.
              ** right. exists 0%nat, indicator. rewrite Nat.add_0_r.
                 split; [reflexivity|]. split; [exact Hfresh|fold ts; congruence].
           ++ right. exists (S i), ind. replace (n + S i)%nat with (S n + i)%nat by lia.
              now repeat split.
    + specialize (IH t0 v0 (S n)). cbv zeta in IH.
      destruct IH as (Hn & Ht & Hv & Hall & Hexv & Hext).
      set (r := forM _ rest (t0, v0) (S n)) in *.
      split; [rewrite Hn; simpl; lia|]. split; [lia|]. split; [lia|]. split.
      * intros [|i] ind Hi Hf.
        -- injection Hi as <-. rewrite Nat.add_0_r in Hf. congruence.
        -- simpl in Hi. replace (n + S i)%nat with (S n + i)%nat in Hf by lia.
           now apply (Hall i ind).
      * split.
        -- destruct Hexv as [Heq|(i & ind & Hi & Hf & Heq)]; [now left|].
           right. exists (S i), ind. replace (n + S i)%nat with (S n + i)%nat by lia.
           now repeat split.
        -- destruct Hext as [Heq|(i & ind & Hi & Hf & Heq)]; [now left|].
           right. exists (S i), ind. replace (n + S i)%nat with (S n + i)%nat by lia.
           now repeat split.
Qed.

(** The range [FactorHealth.updateSnapshot] finds for a backend is the
    worst of the ranges its fresh indicators give it: at least as bad
    as each of them, and Normal or the range of one of them; so the
    backend is Normal only if every fresh indicator says so.  The
    update time it finds is the newest among the fresh results, or 0.
    The loop reads the clock once per indicator, so an indicator is
    fresh or not by the reading made for it. *)
Theorem currentRange_worst clock u (backend : scoredBackend)
    (indicators : list errIndicator.t) (n : nat) :
  let r := FactorHealth.currentRange clock u backend indicators n in
  r.2 = (n + length indicators)%nat
  /\ 0 <= r.1.1
  /\ (forall i indicator, indicators !! i = Some indicator ->
        fresh_at clock (n + i) indicator = true ->
        valueRange_int (indicatorRange u backend indicator) <= valueRange_int r.1.2
        /\ metricsreader.UpdateTime (errIndicator.queryResult indicator) <= r.1.1)
  /\ (r.1.2 = valueRangeNormal
      \/ exists i indicator, indicators !! i = Some indicator
           /\ fresh_at clock (n + i) indicator = true
           /\ indicatorRange u backend indicator = r.1.2)
  /\ (r.1.1 = 0
      \/ exists i indicator, indicators !! i = Some indicator
           /\ fresh_at clock (n + i) indicator = true
           /\ metricsreader.UpdateTime (errIndicator.queryResult indicator) = r.1.1).
Proof.
  intros r. subst r. rewrite currentRange_unfold.
  destruct (currentRange_from clock u backend indicators 0 valueRangeNormal n)
    as (Hn & Ht & _ & Hall & Hexv & Hext).
  split; [exact Hn|]. split; [exact Ht|]. split; [exact Hall|].
  split; [exact Hexv | exact Hext].
Qed.

(** ** The entry of a backend in a new snapshot *)

Section InsertLoop.
Context {V : Type}.
Variable body : gmap string V -> scoredBackend -> M (gmap string V).
(** What a turn stores for a backend, and the count of readings after
    it: neither depends on the map built so far. *)
Variable out : scoredBackend -> nat -> option V * nat.
Hypothesis body_out : forall s b k,
  body s b k = (match (out b k).1 with Some v => <[Addr b := v]> s | None => s end,
                (out b k).2).
Hypothesis out_ticks : forall b k, (k <= (out b k).2)%nat.

Lemma insert_loop_other (l : list scoredBackend) (addr : string) :
  addr ∉ Addr <$> l ->
  forall s n, (forM body l s n).1 !! addr = s !! addr.
Proof.
  induction l as [|b l IH]; intros Hnot s n; [reflexivity|].
  rewrite forM_cons, IH.
  - rewrite body_out. simpl. destruct (out b n).1; [|reflexivity].
    apply lookup_insert_ne. intros Heq. apply Hnot. rewrite <- Heq.
    rewrite fmap_cons. apply elem_of_cons. now left.
  - intros Hin. apply Hnot. rewrite fmap_cons. apply elem_of_cons. now right.
Qed.

Lemma insert_loop_lookup (l : list scoredBackend) (backend : scoredBackend) :
  NoDup (Addr <$> l) -> backend ∈ l ->
  forall s n, s !! Addr backend = None ->
    exists k, (n <= k)%nat /\ (forM body l s n).1 !! Addr backend = (out backend k).1.
Proof.
  induction l as [|b l IH]; intros Hnodup Hin s n Hs.
  - now apply elem_of_nil in Hin.
  - rewrite fmap_cons in Hnodup. apply NoDup_cons in Hnodup as [Hnot Hnodup].
    rewrite forM_cons.
    destruct (decide (Addr b = Addr backend)) as [Heq|Hne].
    + exists n. split; [lia|].
      rewrite insert_loop_other by (now rewrite <- Heq).
      rewrite body_out. simpl.
      assert (Hsame : b = backend).
      { apply elem_of_cons in Hin as [->|Hin]; [reflexivity|].
        exfalso. apply Hnot. rewrite Heq. apply list_elem_of_fmap. eauto. }
      subst b. destruct (out backend n).1; [apply lookup_insert_eq | exact Hs].
    + apply elem_of_cons in Hin as [->|Hin]; [congruence|].
      destruct (IH Hnodup Hin (body s b n).1 (body s b n).2) as (k & Hk & Hlook).
      * rewrite body_out. simpl. destruct (out b n).1; [|exact Hs].
        now rewrite lookup_insert_ne.
      * exists k. split; [|exact Hlook].
        rewrite body_out in Hk. simpl in Hk. pose proof (out_ticks b n). lia.
Qed.
End InsertLoop.

(** When no two backends of the list share an address, the snapshot
    [FactorCPU.updateSnapshot] builds holds for each backend of the list
    what its own turn of the loop stores: the new snapshot (smoothed and
    latest usage of its window, its connection count, the update time of
    the result) when the window has a sample and the smoothed usage is
    not negative; otherwise the snapshot the factor held for it, if at
    the reading of the clock made for it that one is less than two
    minutes old, and no entry if it is older or there was none. *)
Theorem cpu_updateSnapshot_lookup clock (fc : FactorCPU.t) (qr : metricsreader.QueryResult)
    (backends : list scoredBackend) (n : nat) (backend : scoredBackend) :
  NoDup (Addr <$> backends) -> backend ∈ backends ->
  exists k, (n <= k)%nat
    /\ FactorCPU.snapshot (FactorCPU.updateSnapshot clock fc qr backends n).1
         !! Addr backend
       = cpu_entry clock fc qr backend k.
Proof.
  intros Hnodup Hin.
  unfold FactorCPU.updateSnapshot, mbind, M_bind.
  match goal with
  | |- context [forM ?body backends ∅ n] =>
      pose proof (insert_loop_lookup body
                    (fun b k =>
                       (cpu_entry clock fc qr b k,
                        if cpu_usable qr b then k
                        else match FactorCPU.snapshot fc !! Addr b with
                             | Some _ => S k
                             | None => k
                             end))) as Hloop;
      destruct (forM body backends ∅ n) as [snapshots n'] eqn:E
  end.
  simpl.
  destruct (Hloop) with (l := backends) (backend := backend) (s := ∅ : gmap string cpuBackendSnapshot.t) (n := n)
    as (k & Hk & Hlook).
  - clear. intros s b k. unfold cpu_entry, cpu_usable, cpu_fresh_snapshot. simpl.
    destruct (Z.of_nat (length (metricsreader.GetSamplePair4Backend qr b)) >? 0); simpl.
    + destruct (calcAvgUsage (metricsreader.GetSamplePair4Backend qr b))
        as [avgUsage latestUsage]. simpl.
      destruct (0 <=? avgUsage)%float; simpl; [reflexivity|].
      destruct (FactorCPU.snapshot fc !! Addr b) as [old|]; simpl; [|reflexivity].
      unfold monotime.Since. destruct (_ <? cpuMetricExpDuration); reflexivity.
    + destruct (FactorCPU.snapshot fc !! Addr b) as [old|]; simpl; [|reflexivity].
      unfold monotime.Since. destruct (_ <? cpuMetricExpDuration); reflexivity.
  - clear. intros b k. simpl. destruct (cpu_usable qr b); [lia|].
    destruct (FactorCPU.snapshot fc !! Addr b); lia.
  - exact Hnodup.
  - exact Hin.
  - apply lookup_empty.
  - exists k. split; [exact Hk|]. rewrite E in Hlook. exact Hlook.
Qed.

Lemma cpu_updateSnapshot_lookup_witness :
  NoDup (Addr <$> [busy_a; busy_b]) /\ busy_a ∈ [busy_a; busy_b]
  /\ exists k, (0 <= k)%nat
       /\ FactorCPU.snapshot
            (FactorCPU.updateSnapshot clock_10min new_cpu cpu_result_fresh
               [busy_a; busy_b] 0%nat).1 !! Addr busy_a
          = cpu_entry clock_10min new_cpu cpu_result_fresh busy_a k.
Proof.
  assert (Hnodup : NoDup (Addr <$> [busy_a; busy_b])).
  { simpl. apply NoDup_cons. split.
    - intros Hin. apply list_elem_of_singleton in Hin. discriminate Hin.
    - apply NoDup_singleton. }
  assert (Hin : busy_a ∈ [busy_a; busy_b]) by (apply elem_of_cons; now left).
  split; [exact Hnodup|]. split; [exact Hin|].
  exact (cpu_updateSnapshot_lookup clock_10min new_cpu cpu_result_fresh
           [busy_a; busy_b] 0%nat busy_a Hnodup Hin).
Defined.

(** When no two backends of the list share an address, the snapshot
    [FactorHealth.updateSnapshot] builds holds for each backend of the
    list what its own turn of the loop stores.  If some indicator has a
    fresh result (the update time found is not 0): that update time, the
    range found over the fresh indicators, and as balance count 0 unless
    the range is Abnormal, else the count the factor held for the
    address if that exceeds 0.0001, else a fifth of the connection
    score.  If none has: the snapshot the factor held, if at the reading
    of the clock made for it that one is less than a minute old, and no
    entry otherwise. *)
Theorem health_updateSnapshot_lookup clock u (fh : FactorHealth.t)
    (backends : list scoredBackend) (n : nat) (backend : scoredBackend) :
  NoDup (Addr <$> backends) -> backend ∈ backends ->
  exists k, (n <= k)%nat
    /\ FactorHealth.snapshot (FactorHealth.updateSnapshot clock u fh backends n).1
         !! Addr backend
       = health_entry clock u fh backend k.
Proof.
  intros Hnodup Hin.
  unfold FactorHealth.updateSnapshot, mbind, M_bind.
  match goal with
  | |- context [forM ?body backends ∅ n] =>
      pose proof (insert_loop_lookup body
                    (fun b k =>
                       (health_entry clock u fh b k,
                        let k1 := (k + length (FactorHealth.indicators fh))%nat in
                        if (FactorHealth.currentRange clock u b
                              (FactorHealth.indicators fh) k).1.1 =? 0
                        then match FactorHealth.snapshot fh !! Addr b with
                             | Some _ => S k1
                             | None => k1
                             end
                        else k1))) as Hloop;
      destruct (forM body backends ∅ n) as [snapshots n'] eqn:E
  end.
  simpl.
  destruct (Hloop) with (l := backends) (backend := backend) (s := ∅ : gmap string healthBackendSnapshot.t) (n := n)
    as (k & Hk & Hlook).
  - clear. intros s b k. unfold health_entry. simpl.
    pose proof (currentRange_from clock u b (FactorHealth.indicators fh) 0
                  valueRangeNormal k) as (Hticks & _).
    rewrite <- currentRange_unfold in Hticks.
    destruct (FactorHealth.currentRange clock u b (FactorHealth.indicators fh) k)
      as [[updatedTime vr] k1]. simpl in Hticks. subst k1. simpl.
    destruct (updatedTime =? 0); [|reflexivity].
    destruct (FactorHealth.snapshot fh !! Addr b) as [old|]; simpl; [|reflexivity].
    unfold monotime.Since. destruct (_ <? errMetricExpDuration); reflexivity.
  - clear. intros b k. simpl. destruct (_ =? 0); [|lia].
    destruct (FactorHealth.snapshot fh !! Addr b); lia.
  - exact Hnodup.
  - exact Hin.
  - apply lookup_empty.
  - exists k. split; [exact Hk|]. rewrite E in Hlook. exact Hlook.
Qed.

Lemma health_updateSnapshot_lookup_witness :
  NoDup (Addr <$> [backend_a; backend_b]) /\ backend_a ∈ [backend_a; backend_b]
  /\ exists k, (0 <= k)%nat
       /\ FactorHealth.snapshot
            (FactorHealth.updateSnapshot clock_10min (fun _ => 0) new_health
               [backend_a; backend_b] 0%nat).1 !! Addr backend_a
          = health_entry clock_10min (fun _ => 0) new_health backend_a k.
Proof.
  assert (Hnodup : NoDup (Addr <$> [backend_a; backend_b])).
  { simpl. apply NoDup_cons. split.
    - intros Hin. apply list_elem_of_singleton in Hin. discriminate Hin.
    - apply NoDup_singleton. }
  assert (Hin : backend_a ∈ [backend_a; backend_b]) by (apply elem_of_cons; now left).
  split; [exact Hnodup|]. split; [exact Hin|].
  exact (health_updateSnapshot_lookup clock_10min (fun _ => 0) new_health
           [backend_a; backend_b] 0%nat backend_a Hnodup Hin).
Defined.

(** ** The direction of a migration for FactorHealth *)

Lemma health_BalanceCount_cases (fh : FactorHealth.t) (from to : scoredBackend) :
  FactorHealth.BalanceCount fh from to
  = match rangeOf fh (Addr from), rangeOf fh (Addr to) with
    | valueRangeAbnormal, valueRangeNormal => pendingOf fh (Addr from)
    | _, _ => 0%float
    end.
Proof.
  unfold FactorHealth.BalanceCount, FactorHealth.caclErrScore, Int64.sub.
  fold (rangeOf fh (Addr from)) (rangeOf fh (Addr to)) (pendingOf fh (Addr from)).
  pose proof (valueRange_int_bounds (rangeOf fh (Addr from))) as Hf.
  pose proof (valueRange_int_bounds (rangeOf fh (Addr to))) as Ht.
  rewrite Int64_wrap_small by (unfold Int64.min_int, Int64.max_int; lia).
  destruct (rangeOf fh (Addr from)), (rangeOf fh (Addr to)); reflexivity.
Qed.

(** [FactorHealth] never asks to migrate both ways: if its balance count
    from one backend to another is not zero, the count in the other
    direction is 0, and the count from a backend to itself is 0.  Along
    a run of passes over backends whose connection scores are not
    negative the count is never negative nor NaN: it is zero or exceeds
    0.0001. *)
Theorem health_BalanceCount_one_way (from to : scoredBackend) :
  (forall fh : FactorHealth.t,
     ((FactorHealth.BalanceCount fh from to =? 0)%float = false ->
      FactorHealth.BalanceCount fh to from = 0%float)
     /\ FactorHealth.BalanceCount fh from from = 0%float)
  /\ (forall clock u (fh : FactorHealth.t),
        health_reachable clock u fh ->
        (FactorHealth.BalanceCount fh from to =? 0)%float = true
        \/ (0.0001 <? FactorHealth.BalanceCount fh from to)%float = true).
Proof.
  split.
  - intros fh. rewrite !health_BalanceCount_cases. split.
    + destruct (rangeOf fh (Addr from)), (rangeOf fh (Addr to));
        intros H; try reflexivity; discriminate H.
    + destruct (rangeOf fh (Addr from)); reflexivity.
  - intros clock u fh Hreach. rewrite health_BalanceCount_cases.
    assert (Hpending : (pendingOf fh (Addr from) =? 0)%float = true
                       \/ (0.0001 <? pendingOf fh (Addr from))%float = true).
    { unfold pendingOf.
      destruct (FactorHealth.snapshot fh !! Addr from) as [s|] eqn:Es; simpl.
      - apply (health_reachable_ok clock u fh Hreach (Addr from) s Es).
      - left. reflexivity. }
    destruct (rangeOf fh (Addr from)), (rangeOf fh (Addr to));
      try (left; reflexivity). exact Hpending.
Qed.

(** ** Samples that are not numbers *)

Lemma calcAvgUsage_fold_filter (pairs : list model.SamplePair.t) :
  forall acc,
    fold_left calcAvgUsage_step pairs acc
    = fold_left calcAvgUsage_step
        (List.filter (fun p => negb (Float64.IsNaN (model.SamplePair.Value p))) pairs) acc.
Proof.
  induction pairs as [|p pairs IH]; intros acc; simpl; [reflexivity|].
  destruct (Float64.IsNaN (model.SamplePair.Value p)) eqn:Hnan; simpl.
  - rewrite <- IH. f_equal. unfold calcAvgUsage_step. destruct acc. now rewrite Hnan.
  - apply IH.
Qed.

(** [calcAvgUsage] skips the samples that are NaN: the smoothed and the
    latest usage of a window are those of the window without them.  A
    window with no other sample gives (-1, -1), like an empty one, and
    [updateSnapshot] stores no new snapshot from it. *)
Theorem calcAvgUsage_skips_NaN (pairs : list model.SamplePair.t) :
  let numbers :=
    List.filter (fun p => negb (Float64.IsNaN (model.SamplePair.Value p))) pairs in
  calcAvgUsage pairs = calcAvgUsage numbers
  /\ (numbers = [] ->
      calcAvgUsage pairs = ((-1)%float, (-1)%float)
      /\ (0 <=? (calcAvgUsage pairs).1)%float = false).
Proof.
  intros numbers.
  assert (Hfold : fold_left calcAvgUsage_step pairs ((-1)%float, (-1)%float)
                  = fold_left calcAvgUsage_step numbers ((-1)%float, (-1)%float))
    by apply calcAvgUsage_fold_filter.
  assert (Hnone : numbers = [] -> calcAvgUsage pairs = ((-1)%float, (-1)%float)).
  { intros Hnil. unfold calcAvgUsage. rewrite Hfold, Hnil. simpl.
    destruct (Z.of_nat (length pairs) =? 0); reflexivity. }
  split; [|intros Hnil; split; [now apply Hnone | now rewrite Hnone]].
  destruct numbers as [|p rest] eqn:En.
  - now rewrite Hnone.
  - unfold calcAvgUsage. rewrite Hfold.
    destruct pairs as [|q pairs]; [discriminate En|].
    reflexivity.
Qed.

(** ** Rounding to binary64, from below

    The float [binary_round_aux] returns is not below a binary64 that is
    not above the exact value: used for [1.3 - usage] and for its
    product with the ratio 1.2. *)

Lemma SFle_pos_leb (mc : positive) (ec : Z) (r : spec_float) :
  SFle_pos mc ec r -> SFleb (S754_finite false mc ec) r = true.
Proof.
  intros [->|(m & e & -> & [Hlt|[-> Hle]])]; unfold SFleb, SFcompare.
  - reflexivity.
  - destruct (Z.compare_spec ec e); try reflexivity; lia.
  - rewrite Z.compare_refl, Pos.compare_cont_spec. simpl.
    destruct (Pos.compare_spec mc m); try reflexivity; lia.
Qed.

Lemma valid_binary_canonical (s : bool) (m : positive) (e : Z) :
  valid_binary (S754_finite s m e) = true ->
  e = Z.max (Z.log2 (Z.pos m) + 1 + e - 53) (-1074) /\ e <= 971.
Proof.
  unfold SpecFloat.valid_binary, bounded, canonical_mantissa, fexp, SpecFloat.emin.
  change (3 - emax - prec) with (-1074). change prec with 53. change (emax - 53) with 971.
  rewrite digits2_pos_log2. intros H. apply andb_true_iff in H as [Hc Hb].
  apply Z.eqb_eq in Hc. apply Z.leb_le in Hb. lia.
Qed.

Lemma binary_round_aux_ge (M : positive) (E : Z) (l : location) (mc : positive) (ec g : Z) :
  valid_binary (S754_finite false mc ec) = true ->
  g <= E -> g <= ec ->
  Z.pos mc * 2 ^ (ec - g) <= Z.pos M * 2 ^ (E - g) ->
  SFle_pos mc ec (binary_round_aux prec emax false (Z.pos M) E l).
Proof.
  intros Hvalid HgE Hgc Hval.
  apply valid_binary_canonical in Hvalid as [Hcanon Hec].
  set (dc := Z.log2 (Z.pos mc) + 1) in *.
  set (dM := Z.log2 (Z.pos M) + 1).
  pose proof (Z.log2_spec (Z.pos mc) ltac:(lia)) as Hlc.
  pose proof (Z.log2_spec (Z.pos M) ltac:(lia)) as HlM.
  pose proof (Z.log2_nonneg (Z.pos mc)) as Hlc0.
  pose proof (Z.log2_nonneg (Z.pos M)) as HlM0.
  assert (Hdig : dc + ec <= dM + E).
  { assert (Hlt : 2 ^ (dc - 1 + (ec - g)) < 2 ^ (dM + (E - g))).
    { rewrite !Z.pow_add_r by lia.
      assert (0 < 2 ^ (ec - g)) by (apply Z.pow_pos_nonneg; lia).
      assert (0 < 2 ^ (E - g)) by (apply Z.pow_pos_nonneg; lia).
      subst dc dM. replace (Z.log2 (Z.pos mc) + 1 - 1) with (Z.log2 (Z.pos mc)) by lia.
      replace (Z.log2 (Z.pos M) + 1) with (Z.succ (Z.log2 (Z.pos M))) by lia.
      nia. }
    apply Z.pow_lt_mono_r_iff in Hlt; lia. }
  unfold binary_round_aux.
  destruct (shr_fexp_shift (Z.pos M) E l ltac:(lia)) as (mrs1 & -> & Hm1).
  set (k1 := Z.max 0 (fexp prec emax (Zdigits2 (Z.pos M) + E) - E)) in *.
  assert (Hk1 : k1 = Z.max 0 (Z.max (dM + E - 53) (-1074) - E)).
  { subst k1. unfold fexp, SpecFloat.emin. simpl Zdigits2. rewrite digits2_pos_log2.
    change (3 - emax - prec) with (-1074). change prec with 53. reflexivity. }
  set (e1 := E + k1) in *.
  set (m1 := shr_m mrs1) in *.
  assert (Hk1pos : 0 <= k1) by lia.
  assert (Hm1' : m1 = Z.pos M / 2 ^ k1) by (rewrite Hm1; apply Z.shiftr_div_pow2; lia).
  assert (Hp1 : 0 < 2 ^ k1) by (apply Z.pow_pos_nonneg; lia).
  assert (He1 : ec <= e1) by lia.
  assert (Hm1ge : 1 <= m1).
  { rewrite Hm1'. apply Z.div_le_lower_bound; [lia|].
    assert (2 ^ k1 <= 2 ^ (dM - 1)) by (apply Z.pow_le_mono_r; lia).
    subst dM. replace (Z.log2 (Z.pos M) + 1 - 1) with (Z.log2 (Z.pos M)) in * by lia. lia. }
  assert (Hm1lt : m1 < 2 ^ 53).
  { rewrite Hm1'. apply Z.div_lt_upper_bound; [lia|].
    rewrite <- Z.pow_add_r by lia.
    eapply Z.lt_le_trans; [apply HlM|].
    apply Z.pow_le_mono_r; [lia|]. subst dM. lia. }
  pose proof (round_nearest_even_bounds m1 (loc_of_shr_record mrs1)) as Hr.
  set (m2 := round_nearest_even m1 (loc_of_shr_record mrs1)) in *.
  destruct (shr_fexp_shift m2 e1 loc_Exact ltac:(lia)) as (mrs2 & -> & Hm3).
  set (k2 := Z.max 0 (fexp prec emax (Zdigits2 m2 + e1) - e1)) in *.
  assert (Hk2 : k2 = 0 \/ (k2 = 1 /\ 2 ^ 53 <= m2)).
  { subst k2. unfold fexp, SpecFloat.emin. change (3 - emax - prec) with (-1074).
    change prec with 53. rewrite Zdigits2_log2 by lia.
    assert (Hlog : Z.log2 m2 <= 53).
    { pose proof (Z.log2_le_mono m2 (2 ^ 53) ltac:(lia)) as Hmono.
      rewrite Z.log2_pow2 in Hmono by lia. exact Hmono. }
    destruct (Z.eq_dec (Z.log2 m2) 53) as [H53|H53].
    - right. split; [lia|].
      pose proof (Z.log2_spec m2 ltac:(lia)) as Hs. rewrite H53 in Hs. lia.
    - left. lia. }
  assert (Hm3' : shr_m mrs2 = m2 / 2 ^ k2)
    by (rewrite Hm3; apply Z.shiftr_div_pow2; lia).
  assert (Hm3ge : 1 <= shr_m mrs2 /\ (k2 = 0 -> m1 <= shr_m mrs2)).
  { rewrite Hm3'. destruct Hk2 as [->|[-> Hbig]].
    - rewrite Z.pow_0_r, Z.div_1_r. lia.
    - split; [|lia]. apply Z.div_le_lower_bound; [lia|].
      change (2 ^ 53) with 9007199254740992 in Hbig. lia. }
  destruct (shr_m mrs2) as [|m3|m3] eqn:E3; try lia.
  change (emax - prec) with 971.
  destruct (Z.leb_spec (e1 + k2) 971) as [Hle|Hgt]; [|now left].
  right. exists m3, (e1 + k2). split; [reflexivity|].
  destruct (Z.eq_dec (e1 + k2) ec) as [Heq|Hne]; [right|left; lia].
  split; [exact Heq|].
  assert (Hk20 : k2 = 0) by lia.
  assert (He1c : e1 = ec) by lia.
  destruct Hm3ge as [_ Hm3ge]. specialize (Hm3ge Hk20).
  assert (Hmc : Z.pos mc <= m1); [|lia].
  rewrite Hm1'. apply Z.div_le_lower_bound; [lia|].
  assert (Hk1e : k1 = ec - E) by lia.
  assert (Hsplit : 2 ^ (ec - g) = 2 ^ k1 * 2 ^ (E - g)).
  { rewrite <- Z.pow_add_r by lia. f_equal. lia. }
  rewrite Hsplit in Hval.
  assert (0 < 2 ^ (E - g)) by (apply Z.pow_pos_nonneg; lia).
  nia.
Qed.

Lemma Pos_iter_xO (p d : positive) : Z.pos (Pos.iter xO p d) = Z.pos p * 2 ^ Z.pos d.
Proof.
  induction d as [|d IH] using Pos.peano_ind.
  - simpl. lia.
  - rewrite Pos.iter_succ, Pos2Z.inj_succ, Z.pow_succ_r by lia.
    rewrite Pos2Z.inj_xO, IH. lia.
Qed.

(** [shl_align] lowers the exponent and keeps the value. *)
Lemma shl_align_spec (p : positive) (e e0 : Z) :
  (shl_align p e e0).2 <= e
  /\ Z.pos (shl_align p e e0).1 = Z.pos p * 2 ^ (e - (shl_align p e e0).2).
Proof.
  unfold shl_align. destruct (e0 - e) as [|d|d] eqn:Ed; simpl.
  - rewrite Z.sub_diag. simpl. lia.
  - rewrite Z.sub_diag. simpl. lia.
  - split; [lia|]. rewrite Pos_iter_xO. f_equal. f_equal. lia.
Qed.

Lemma binary_normalize_ge (P ez : Z) (mc : positive) (ec g : Z) :
  valid_binary (S754_finite false mc ec) = true ->
  g <= ez -> g <= ec ->
  Z.pos mc * 2 ^ (ec - g) <= P * 2 ^ (ez - g) ->
  SFle_pos mc ec (binary_normalize prec emax P ez false).
Proof.
  intros Hvalid Hgz Hgc Hval.
  assert (Hpc : 0 < 2 ^ (ec - g)) by (apply Z.pow_pos_nonneg; lia).
  assert (Hpz : 0 < 2 ^ (ez - g)) by (apply Z.pow_pos_nonneg; lia).
  destruct P as [|p|p]; try lia.
  unfold binary_normalize, binary_round.
  pose proof (shl_align_spec p ez (fexp prec emax (Z.pos (digits2_pos p) + ez)))
    as [Hle Hpos].
  destruct (shl_align p ez (fexp prec emax (Z.pos (digits2_pos p) + ez))) as [mz ez'].
  simpl in Hle, Hpos.
  apply (binary_round_aux_ge mz ez' loc_Exact mc ec (Z.min g ez') Hvalid); try lia.
  rewrite Hpos.
  assert (H1 : 2 ^ (ec - Z.min g ez') = 2 ^ (ec - g) * 2 ^ (g - Z.min g ez')).
  { rewrite <- Z.pow_add_r by lia. f_equal. lia. }
  assert (H2 : 2 ^ (ez - ez') * 2 ^ (ez' - Z.min g ez')
               = 2 ^ (ez - g) * 2 ^ (g - Z.min g ez')).
  { rewrite <- !Z.pow_add_r by lia. f_equal. lia. }
  assert (H3 : 0 < 2 ^ (g - Z.min g ez')) by (apply Z.pow_pos_nonneg; lia).
  rewrite H1, <- Z.mul_assoc, H2. nia.
Qed.

(** A positive float is not above its product with 1.2. *)
Lemma float_mul_ratio_ge (x : float) :
  (0 <? x)%float = true -> (x <=? x * cpuBalancedRatio)%float = true.
Proof.
  rewrite ltb_spec, leb_spec, mul_spec. unfold SF64mul.
  change (Prim2SF 0) with (S754_zero false).
  change (Prim2SF cpuBalancedRatio) with (S754_finite false 5404319552844595 (-52)).
  pose proof (Prim2SF_valid x) as Hvalid.
  destruct (Prim2SF x) as [s|s| |s m e]; try discriminate.
  - destruct s; [discriminate|]. reflexivity.
  - destruct s; [discriminate|]. intros _.
    apply SFle_pos_leb. unfold SFmul. simpl xorb.
    apply (binary_round_aux_ge _ _ _ m e (e + -52) Hvalid); try lia.
    replace (e - (e + -52)) with 52 by lia. rewrite Z.sub_diag, Z.pow_0_r.
    rewrite Pos2Z.inj_mul. change (2 ^ 52) with 4503599627370496. lia.
Qed.

(** For a usage that is at most 1, [1.3 - usage] is not below
    [1.3 - 1]. *)
Lemma float_sub_usage_ge (x : float) :
  Float64.IsNaN x = false -> (1 <? x)%float = false ->
  (1.3 - 1 <=? 1.3 - x)%float = true.
Proof.
  set (c := (1.3 - 1)%float).
  rewrite IsNaN_false, ltb_spec, leb_spec, sub_spec. unfold SF64sub.
  assert (Hc : Prim2SF c = S754_finite false 5404319552844596 (-54)) by reflexivity.
  rewrite Hc. clear Hc. clearbody c.
  change (Prim2SF 1.3) with (S754_finite false 5854679515581645 (-52)).
  change (Prim2SF 1) with (S754_finite false 4503599627370496 (-52)).
  pose proof (Prim2SF_valid x) as Hvalid.
  destruct (Prim2SF x) as [s|s| |s m e]; intros Hnan Hle.
  - reflexivity.
  - destruct s; [reflexivity | discriminate Hle].
  - congruence.
  - apply SFle_pos_leb. unfold SFsub.
    set (ez := Z.min (-52) e).
    pose proof (shl_align_spec 5854679515581645 (-52) ez) as [HA1 HA2].
    pose proof (shl_align_spec m e ez) as [HB1 HB2].
    assert (HAe : (shl_align 5854679515581645 (-52) ez).2 = ez).
    { unfold shl_align. destruct (ez - -52) eqn:Ed; simpl; lia. }
    assert (HBe : (shl_align m e ez).2 = ez).
    { unfold shl_align. destruct (ez - e) eqn:Ed; simpl; lia. }
    rewrite HAe in HA2. rewrite HBe in HB2.
    apply (binary_normalize_ge _ ez 5404319552844596 (-54) (ez - 2));
      [reflexivity | lia | lia |].
    simpl cond_Zopp at 1. rewrite HA2, HB2.
    replace (-54 - (ez - 2)) with (-52 - ez) by lia.
    replace (ez - (ez - 2)) with 2 by lia.
    assert (Hpa : 0 < 2 ^ (-52 - ez)) by (apply Z.pow_pos_nonneg; lia).
    assert (Hpb : 0 < 2 ^ (e - ez)) by (apply Z.pow_pos_nonneg; lia).
    assert (Hone : cond_Zopp s (Z.pos m * 2 ^ (e - ez)) <= 4503599627370496 * 2 ^ (-52 - ez)).
    { destruct s; simpl; [lia|].
      apply valid_binary_canonical in Hvalid as [Hcanon _].
      pose proof (Z.log2_spec (Z.pos m) ltac:(lia)) as Hlog.
      unfold SFltb, SFcompare in Hle.
      destruct (Z.compare_spec (-52) e) as [He|He|He]; try discriminate Hle.
      - subst e. assert (Hez : ez = -52) by (subst ez; reflexivity).
        rewrite Hez. change (-52 - -52) with 0. rewrite Z.pow_0_r, !Z.mul_1_r.
        rewrite Pos.compare_cont_spec in Hle. simpl in Hle.
        destruct (Pos.compare_spec 4503599627370496 m) as [Hm|Hm|Hm];
          try discriminate Hle.
        + rewrite <- Hm. apply Z.le_refl.
        + apply Z.lt_le_incl, Pos2Z.pos_lt_pos, Hm.
      - assert (Hez : ez = e) by lia. rewrite Hez, Z.sub_diag, Z.pow_0_r.
        assert (Hm : Z.pos m < 2 ^ 53).
        { eapply Z.lt_le_trans; [apply Hlog|]. apply Z.pow_le_mono_r; lia. }
        assert (Hp : 2 ^ 1 <= 2 ^ (-52 - e)) by (apply Z.pow_le_mono_r; lia).
        change (2 ^ 53) with 9007199254740992 in Hm. change (2 ^ 1) with 2 in Hp. lia. }
    change (2 ^ 2) with 4. lia.
Qed.

(** ** Chains of comparisons *)

Lemma lex_compare_spec (e1 : Z) (m1 : positive) (e2 : Z) (m2 : positive) :
  match lex_compare e1 m1 e2 m2 with
  | Lt => e1 < e2 \/ (e1 = e2 /\ Z.pos m1 < Z.pos m2)
  | Eq => e1 = e2 /\ m1 = m2
  | Gt => e2 < e1 \/ (e1 = e2 /\ Z.pos m2 < Z.pos m1)
  end.
Proof.
  unfold lex_compare. rewrite Pos.compare_cont_spec.
  destruct (Z.compare_spec e1 e2) as [H|H|H]; [|now left|now left].
  destruct (Pos.compare_spec m1 m2) as [Hm|Hm|Hm]; simpl.
  - now split.
  - right. split; [exact H|]. now apply Pos2Z.pos_lt_pos.
  - right. split; [exact H|]. now apply Pos2Z.pos_lt_pos.
Qed.

Lemma lex_compare_Lt (e1 : Z) (m1 : positive) (e2 : Z) (m2 : positive) :
  e1 < e2 \/ (e1 = e2 /\ Z.pos m1 < Z.pos m2) -> lex_compare e1 m1 e2 m2 = Lt.
Proof.
  intros H. pose proof (lex_compare_spec e1 m1 e2 m2) as Hs.
  destruct (lex_compare e1 m1 e2 m2); [|reflexivity|].
  - destruct Hs as [-> ->]. lia.
  - lia.
Qed.

Lemma lex_compare_Gt (e1 : Z) (m1 : positive) (e2 : Z) (m2 : positive) :
  e2 < e1 \/ (e1 = e2 /\ Z.pos m2 < Z.pos m1) -> lex_compare e1 m1 e2 m2 = Gt.
Proof.
  intros H. pose proof (lex_compare_spec e1 m1 e2 m2) as Hs.
  destruct (lex_compare e1 m1 e2 m2); [| |reflexivity].
  - destruct Hs as [-> ->]. lia.
  - lia.
Qed.

Lemma lex_compare_opp (e1 : Z) (m1 : positive) (e2 : Z) (m2 : positive) :
  match e1 ?= e2 with
  | Lt => Gt
  | Gt => Lt
  | Eq => CompOpp (Pos.compare_cont Eq m1 m2)
  end = CompOpp (lex_compare e1 m1 e2 m2).
Proof. unfold lex_compare. now destruct (e1 ?= e2). Qed.

(** [SFcompare] is a strict order with its equivalence: a chain of "at
    most" and "below" is "below". *)
Lemma SFcompare_trans (x y z : spec_float) :
  (SFleb x y = true -> SFltb y z = true -> SFltb x z = true)
  /\ (SFltb x y = true -> SFleb y z = true -> SFltb x z = true).
Proof.
  unfold SFleb, SFltb.
  destruct x as [sx|sx| |sx mx ex], y as [sy|sy| |sy my ey], z as [sz|sz| |sz mz ez];
    simpl; try (split; intros; discriminate);
    try (destruct sx; simpl; split; intros; (discriminate || reflexivity));
    try (destruct sy; simpl; split; intros; (discriminate || reflexivity));
    try (destruct sz; simpl; split; intros; (discriminate || reflexivity));
    try (destruct sx, sy; simpl; split; intros; (discriminate || reflexivity));
    try (destruct sx, sz; simpl; split; intros; (discriminate || reflexivity));
    try (destruct sy, sz; simpl; split; intros; (discriminate || reflexivity));
    try (destruct sx, sy, sz; simpl; split; intros; (discriminate || reflexivity)).
  destruct sx, sy, sz; simpl; try (split; intros; (discriminate || reflexivity)).
  - rewrite !lex_compare_opp.
    pose proof (lex_compare_spec ex mx ey my) as H1.
    pose proof (lex_compare_spec ey my ez mz) as H2.
    split; intros Ha Hb;
      destruct (lex_compare ex mx ey my); simpl in Ha; try discriminate Ha;
      destruct (lex_compare ey my ez mz); simpl in Hb; try discriminate Hb;
      rewrite lex_compare_Gt; try reflexivity;
      try (destruct H1 as [-> ->]); try (destruct H2 as [-> ->]); lia.
  - fold (lex_compare ex mx ey my) (lex_compare ey my ez mz) (lex_compare ex mx ez mz).
    pose proof (lex_compare_spec ex mx ey my) as H1.
    pose proof (lex_compare_spec ey my ez mz) as H2.
    split; intros Ha Hb;
      destruct (lex_compare ex mx ey my); simpl in Ha; try discriminate Ha;
      destruct (lex_compare ey my ez mz); simpl in Hb; try discriminate Hb;
      rewrite lex_compare_Lt; try reflexivity;
      try (destruct H1 as [-> ->]); try (destruct H2 as [-> ->]); lia.
Qed.

Lemma float_leb_ltb_trans (x y z : float) :
  (x <=? y)%float = true -> (y <? z)%float = true -> (x <? z)%float = true.
Proof. rewrite leb_spec, !ltb_spec. apply SFcompare_trans. Qed.

Lemma float_ltb_leb_trans (x y z : float) :
  (x <? y)%float = true -> (y <=? z)%float = true -> (x <? z)%float = true.
Proof. rewrite leb_spec, !ltb_spec. apply SFcompare_trans. Qed.

Lemma float_ltb_irrefl (x : float) : (x <? x)%float = false.
Proof.
  destruct (Float64.IsNaN x) eqn:Hnan.
  - apply IsNaN_spec in Hnan. rewrite ltb_spec, Hnan. reflexivity.
  - apply float_leb_ltb_false, float_leb_refl, Hnan.
Qed.

(** An operand that is NaN makes the result NaN. *)
Lemma float_mul_not_nan (x y : float) :
  Float64.IsNaN (x * y)%float = false -> Float64.IsNaN x = false.
Proof.
  rewrite !IsNaN_false, mul_spec. intros H Hx. apply H. now rewrite Hx.
Qed.

Lemma float_sub_not_nan (x y : float) :
  Float64.IsNaN (x - y)%float = false -> Float64.IsNaN y = false.
Proof.
  rewrite !IsNaN_false, sub_spec. intros H Hy. apply H. rewrite Hy.
  now destruct (Prim2SF x).
Qed.

(** ** The direction of a migration for FactorCPU *)

(** The latest usage [getUsage] returns is never above 1. *)
Lemma getUsage_latest_clamped (fc : FactorCPU.t) (backend : scoredBackend) :
  (1 <? (FactorCPU.getUsage fc backend).2)%float = false.
Proof.
  unfold FactorCPU.getUsage.
  destruct (FactorCPU.snapshot fc !! Addr backend) as [snapshot|]; [|reflexivity].
  change (0 <? 0)%float with false. rewrite orb_false_r.
  destruct (cpuBackendSnapshot.avgUsage snapshot <? 0)%float; [reflexivity|].
  match goal with
  | |- context [if (1 <? ?l)%float then _ else _] =>
      destruct (1 <? l)%float eqn:Hclamp; simpl; [reflexivity|exact Hclamp]
  end.
Qed.

(** The room [1.3 - usage] of a usage that is at most 1 is at least
    [1.3 - 1], and grows when multiplied by the ratio 1.2. *)
Lemma cpu_room (usage : float) :
  Float64.IsNaN usage = false -> (1 <? usage)%float = false ->
  (1.3 - 1 <=? 1.3 - usage)%float = true
  /\ (1.3 - usage <=? (1.3 - usage) * cpuBalancedRatio)%float = true.
Proof.
  intros Hnan Hle.
  pose proof (float_sub_usage_ge usage Hnan Hle) as Hroom.
  split; [exact Hroom|].
  apply float_mul_ratio_ge.
  apply (float_ltb_leb_trans 0 (1.3 - 1) (1.3 - usage)); [reflexivity|exact Hroom].
Qed.

(** The test of [BalanceCount] on two usages that are at most 1 fails
    in one direction at least, and fails toward a usage of 1. *)
Lemma cpu_exceeds_one_way (fromU toU : float) :
  (1 <? fromU)%float = false -> (1 <? toU)%float = false ->
  ((1.3 - fromU) * cpuBalancedRatio <? 1.3 - toU)%float = true ->
  ((1.3 - toU) * cpuBalancedRatio <? 1.3 - fromU)%float = false
  /\ toU <> 1%float.
Proof.
  intros Hf Ht Hex.
  destruct (float_ltb_not_nan _ _ Hex) as [Hn1 Hn2].
  apply float_mul_not_nan, float_sub_not_nan in Hn1.
  apply float_sub_not_nan in Hn2.
  destruct (cpu_room fromU Hn1 Hf) as [Hcf Hrf].
  destruct (cpu_room toU Hn2 Ht) as [Hct Hrt].
  assert (Hlt : (1.3 - fromU <? 1.3 - toU)%float = true)
    by (eapply float_leb_ltb_trans; eassumption).
  split.
  - destruct ((1.3 - toU) * cpuBalancedRatio <? 1.3 - fromU)%float eqn:Hback;
      [|reflexivity].
    assert (Hlt' : (1.3 - toU <? 1.3 - fromU)%float = true)
      by (eapply float_leb_ltb_trans; eassumption).
    assert (Hself : (1.3 - fromU <? 1.3 - fromU)%float = true).
    { eapply float_ltb_leb_trans; [exact Hlt|]. now apply float_ltb_leb. }
    rewrite float_ltb_irrefl in Hself. discriminate Hself.
  - intros ->.
    assert (Hself : (1.3 - 1 <? 1.3 - 1)%float = true)
      by (apply (float_leb_ltb_trans _ (1.3 - fromU)%float); assumption).
    rewrite float_ltb_irrefl in Hself. discriminate Hself.
Qed.

Lemma cpu_BalanceCount_exceeds u (fc : FactorCPU.t) (from to : scoredBackend) :
  ((1.3 - (FactorCPU.getUsage fc from).2) * cpuBalancedRatio
   <? 1.3 - (FactorCPU.getUsage fc to).2)%float = false ->
  FactorCPU.BalanceCount u fc from to = 0.
Proof.
  unfold FactorCPU.BalanceCount.
  destruct (FactorCPU.getUsage fc from) as [fa fl], (FactorCPU.getUsage fc to) as [ta tl].
  simpl. intros ->. now rewrite andb_false_r.
Qed.

Lemma cpu_BalanceCount_pos u (fc : FactorCPU.t) (from to : scoredBackend) :
  0 < FactorCPU.BalanceCount u fc from to ->
  ((1.3 - (FactorCPU.getUsage fc from).2) * cpuBalancedRatio
   <? 1.3 - (FactorCPU.getUsage fc to).2)%float = true.
Proof.
  unfold FactorCPU.BalanceCount.
  destruct (FactorCPU.getUsage fc from) as [fa fl], (FactorCPU.getUsage fc to) as [ta tl].
  simpl. destruct (_ <? 1.3 - tl)%float; [reflexivity|].
  rewrite andb_false_r. lia.
Qed.

(** [FactorCPU] never asks to migrate both ways: if its balance count
    from one backend to another is positive, the count in the other
    direction is 0; and the count from a backend to itself is 0.  This
    holds for every state of the factor, in binary64 arithmetic. *)
Theorem cpu_BalanceCount_one_way u (fc : FactorCPU.t) (from to : scoredBackend) :
  (0 < FactorCPU.BalanceCount u fc from to -> FactorCPU.BalanceCount u fc to from = 0)
  /\ FactorCPU.BalanceCount u fc from from = 0.
Proof.
  pose proof (getUsage_latest_clamped fc from) as Hf.
  pose proof (getUsage_latest_clamped fc to) as Ht.
  split.
  - intros Hpos. apply cpu_BalanceCount_pos in Hpos.
    apply cpu_BalanceCount_exceeds.
    now apply cpu_exceeds_one_way.
  - apply cpu_BalanceCount_exceeds.
    destruct ((1.3 - (FactorCPU.getUsage fc from).2) * cpuBalancedRatio
              <? 1.3 - (FactorCPU.getUsage fc from).2)%float eqn:Hex; [|reflexivity].
    destruct (cpu_exceeds_one_way _ _ Hf Hf Hex) as [Hback _]. congruence.
Qed.

(** [FactorCPU] never asks to migrate toward a backend it takes as
    fully loaded: the balance count is 0 when the target has no
    snapshot, and whenever the latest usage estimated for it is 1. *)
Theorem cpu_BalanceCount_full_target u (fc : FactorCPU.t) (from to : scoredBackend) :
  FactorCPU.snapshot fc !! Addr to = None \/ (FactorCPU.getUsage fc to).2 = 1%float ->
  FactorCPU.BalanceCount u fc from to = 0.
Proof.
  intros Hfull.
  assert (Hone : (FactorCPU.getUsage fc to).2 = 1%float).
  { destruct Hfull as [Hnone|Hone]; [|exact Hone].
    unfold FactorCPU.getUsage. now rewrite Hnone. }
  apply cpu_BalanceCount_exceeds.
  destruct ((1.3 - (FactorCPU.getUsage fc from).2) * cpuBalancedRatio
            <? 1.3 - (FactorCPU.getUsage fc to).2)%float eqn:Hex; [|reflexivity].
  destruct (cpu_exceeds_one_way _ _ (getUsage_latest_clamped fc from)
              (getUsage_latest_clamped fc to) Hex) as [_ Hne].
  contradiction.
Qed.

Lemma cpu_BalanceCount_full_target_witness :
  let stranger := {| Addr := "c"; ConnCount := 0; ConnScore := 0; scoreBits := 0 |} in
  (FactorCPU.snapshot cpu_two_loads !! Addr stranger = None
   \/ (FactorCPU.getUsage cpu_two_loads stranger).2 = 1%float)
  /\ FactorCPU.BalanceCount (fun _ => 0) cpu_two_loads backend_b stranger = 0.
Proof.
  intros stranger.
  assert (Hfull : FactorCPU.snapshot cpu_two_loads !! Addr stranger = None
                  \/ (FactorCPU.getUsage cpu_two_loads stranger).2 = 1%float)
    by (left; vm_compute; reflexivity).
  split; [exact Hfull|].
  exact (cpu_BalanceCount_full_target (fun _ => 0) cpu_two_loads backend_b stranger Hfull).
Defined.

(** ** The sign of the usage per connection *)

(** Rounding keeps the sign, and gives no NaN. *)
Lemma binary_round_aux_sign (sx : bool) (M E : Z) (l : location) :
  0 <= M ->
  let r := binary_round_aux prec emax sx M E l in
  r = S754_zero sx \/ r = S754_infinity sx \/ exists m e, r = S754_finite sx m e.
Proof.
  intros HM r. subst r. unfold binary_round_aux.
  destruct (shr_fexp_shift M E l HM) as (mrs1 & -> & Hm1).
  assert (H1 : 0 <= shr_m mrs1) by (rewrite Hm1; now apply Z.shiftr_nonneg).
  pose proof (round_nearest_even_bounds (shr_m mrs1) (loc_of_shr_record mrs1)) as Hr.
  destruct (shr_fexp_shift (round_nearest_even (shr_m mrs1) (loc_of_shr_record mrs1))
              (E + Z.max 0 (fexp prec emax (Zdigits2 M + E) - E)) loc_Exact ltac:(lia))
    as (mrs2 & -> & Hm2).
  assert (H2 : 0 <= shr_m mrs2) by (rewrite Hm2; apply Z.shiftr_nonneg; lia).
  destruct (shr_m mrs2) as [|m|m]; [now left| |lia].
  destruct (_ <=? _); [right; right; eauto | right; now left].
Qed.

Lemma binary_normalize_nonneg (P E : Z) :
  0 <= P -> SFnonneg (binary_normalize prec emax P E false).
Proof.
  intros HP. destruct P as [|p|p]; [now left| |lia].
  unfold binary_normalize, binary_round.
  destruct (shl_align p E _) as [mz ez].
  apply (binary_round_aux_sign false (Z.pos mz) ez loc_Exact). lia.
Qed.

(** The sum of a float that is not negative and a positive one is not
    negative. *)
Lemma SFadd_nonneg (x y : spec_float) :
  SFnonneg x -> SFltb (S754_zero false) y = true -> SFnonneg (SFadd prec emax x y).
Proof.
  intros Hx Hy.
  assert (Hy' : y = S754_infinity false \/ exists m e, y = S754_finite false m e).
  { destruct y as [s|s| |s m e]; try discriminate Hy; destruct s; try discriminate Hy;
      [now left | right; eauto]. }
  destruct Hx as [->|[->|(mx & ex & ->)]], Hy' as [->|(my & ey & ->)].
  - right. now left.
  - right. right. simpl. eauto.
  - right. now left.
  - right. now left.
  - right. now left.
  - unfold SFadd. apply binary_normalize_nonneg. simpl cond_Zopp. lia.
Qed.

(** A float that is not negative divided by a positive finite one is
    not negative. *)
Lemma SFdiv_nonneg (x : spec_float) (my : positive) (ey : Z) :
  SFnonneg x -> SFnonneg (SFdiv prec emax x (S754_finite false my ey)).
Proof.
  intros [->|[->|(mx & ex & ->)]]; simpl.
  - now left.
  - right. now left.
  - unfold SFdiv_core_binary.
    set (m' := match _ - _ - _ with Z0 => Z.pos mx | Z.pos _ => _ | Z.neg _ => 0 end).
    assert (Hm' : 0 <= m').
    { subst m'. destruct (_ - _ - _); try lia. apply Z.shiftl_nonneg. lia. }
    pose proof (Z.div_eucl_eq m' (Z.pos my) ltac:(lia)) as Hdiv.
    pose proof (Z.mod_pos_bound m' (Z.pos my) ltac:(lia)) as Hmod.
    unfold Z.modulo in Hmod.
    destruct (Z.div_eucl m' (Z.pos my)) as [q r].
    apply binary_round_aux_sign. nia.
Qed.

Lemma Int64_wrap_range (z : Z) : Int64.min_int <= Int64.wrap z <= Int64.max_int.
Proof.
  unfold Int64.wrap, Int64.min_int, Int64.max_int.
  pose proof (Z.mod_pos_bound (z + 2 ^ 63) (2 ^ 64) ltac:(lia)). lia.
Qed.

(** [float64(n)] of a positive [int] is a positive finite float. *)
Lemma of_int_pos_finite (n : Z) :
  0 < n <= Int64.max_int ->
  exists m e, Prim2SF (Float64.of_int n) = S754_finite false m e.
Proof.
  intros Hn. destruct n as [|p|p]; try lia. unfold Float64.of_int.
  destruct (binary_normalize_pos p) as [Hinf|(m & e & -> & Hm & He)].
  - exfalso. revert Hinf. unfold binary_normalize, binary_round.
    pose proof (shl_align_spec p 0 (fexp prec emax (Z.pos (digits2_pos p) + 0)))
      as [Hle Hpos].
    destruct (shl_align p 0 (fexp prec emax (Z.pos (digits2_pos p) + 0))) as [mz ez].
    simpl in Hle, Hpos.
    destruct (binary_round_aux_bound false mz ez loc_Exact)
      as [->|[[_ Hbig]|(m & e & -> & _)]]; try discriminate.
    intros _. revert Hbig. unfold fexp, SpecFloat.emin.
    change (3 - emax - prec) with (-1074). change prec with 53.
    rewrite digits2_pos_log2, Hpos, Z.log2_mul_pow2 by lia.
    assert (Hlog : Z.log2 (Z.pos p) < 64).
    { apply Z.log2_lt_pow2; [lia|]. unfold Int64.max_int in Hn. lia. }
    lia.
  - exists m, e. apply Prim2SF_SF2Prim, valid_binary_normal; [assumption|lia].
Qed.

Lemma sumUsage_conns_range (backends : list cpuBackendSnapshot.t) :
  Int64.min_int <= (FactorCPU.sumUsage backends).2 <= Int64.max_int.
Proof.
  unfold FactorCPU.sumUsage.
  assert (Hgen : forall acc : float * Z, Int64.min_int <= acc.2 <= Int64.max_int ->
            Int64.min_int <=
              (fold_left
                 (fun '(totalUsage, totalConns) backend =>
                    if (0 <? cpuBackendSnapshot.latestUsage backend)%float
                       && (cpuBackendSnapshot.connCount backend >? 0)
                    then ((totalUsage + cpuBackendSnapshot.latestUsage backend)%float,
                          Int64.add totalConns (cpuBackendSnapshot.connCount backend))
                    else (totalUsage, totalConns))
                 backends acc).2 <= Int64.max_int).
  { induction backends as [|b rest IH]; intros [totalUsage totalConns] Hacc; simpl.
    - exact Hacc.
    - apply IH. destruct (_ && _); simpl; [apply Int64_wrap_range | exact Hacc]. }
  apply Hgen. simpl. unfold Int64.min_int, Int64.max_int. lia.
Qed.

Lemma SFnonneg_not_nan (x : float) : SFnonneg (Prim2SF x) -> Float64.IsNaN x = false.
Proof.
  intros H. apply IsNaN_false. intros Hnan. rewrite Hnan in H.
  destruct H as [H|[H|(m & e & H)]]; discriminate H.
Qed.

(** The total usage [updateCpuPerConn] sums is not negative. *)
Lemma sumUsage_nonneg (backends : list cpuBackendSnapshot.t) :
  SFnonneg (Prim2SF (FactorCPU.sumUsage backends).1).
Proof.
  unfold FactorCPU.sumUsage.
  assert (Hgen : forall acc : float * Z, SFnonneg (Prim2SF acc.1) ->
            SFnonneg (Prim2SF
              (fold_left
                 (fun '(totalUsage, totalConns) backend =>
                    if (0 <? cpuBackendSnapshot.latestUsage backend)%float
                       && (cpuBackendSnapshot.connCount backend >? 0)
                    then ((totalUsage + cpuBackendSnapshot.latestUsage backend)%float,
                          Int64.add totalConns (cpuBackendSnapshot.connCount backend))
                    else (totalUsage, totalConns))
                 backends acc).1)).
  { induction backends as [|b rest IH]; intros [totalUsage totalConns] Hacc; simpl.
    - exact Hacc.
    - apply IH.
      destruct (0 <? cpuBackendSnapshot.latestUsage b)%float eqn:Hpos; simpl;
        [|exact Hacc].
      destruct (cpuBackendSnapshot.connCount b >? 0); simpl; [|exact Hacc].
      rewrite add_spec. apply SFadd_nonneg; [exact Hacc|].
      rewrite ltb_spec in Hpos. exact Hpos. }
  apply Hgen. simpl. now left.
Qed.

Lemma float_leb_false_ltb (x y : float) :
  Float64.IsNaN x = false -> Float64.IsNaN y = false ->
  (x <=? y)%float = false -> (y <? x)%float = true.
Proof.
  rewrite !IsNaN_false, ltb_spec, leb_spec. unfold SFltb, SFleb.
  intros Hx Hy. rewrite (SFcompare_antisym (Prim2SF x) (Prim2SF y)).
  destruct (SFcompare (Prim2SF x) (Prim2SF y)) as [[| |]|] eqn:E; simpl;
    try reflexivity; try discriminate.
  apply SFcompare_None in E. tauto.
Qed.

(** The estimate [updateCpuPerConn] computes is not NaN. *)
Lemma cpu_estimate_not_nan (backends : list cpuBackendSnapshot.t) :
  0 < (FactorCPU.sumUsage backends).2 ->
  Float64.IsNaN ((FactorCPU.sumUsage backends).1
                 / Float64.of_int (FactorCPU.sumUsage backends).2)%float = false.
Proof.
  intros Hconns. apply SFnonneg_not_nan. rewrite div_spec.
  pose proof (sumUsage_nonneg backends) as Hsum.
  pose proof (sumUsage_conns_range backends) as Hrange.
  destruct (of_int_pos_finite (FactorCPU.sumUsage backends).2 ltac:(lia)) as (m & e & ->).
  now apply SFdiv_nonneg.
Qed.

Lemma updateCpuPerConn_positive order (fc : FactorCPU.t) :
  Float64.IsNaN (FactorCPU.usagePerConn fc) = false ->
  (0 <? FactorCPU.usagePerConn (FactorCPU.updateCpuPerConn order fc))%float = true.
Proof.
  intros Hnan. unfold FactorCPU.updateCpuPerConn.
  pose proof (cpu_estimate_not_nan (order (FactorCPU.snapshot fc))) as Hest.
  destruct (FactorCPU.sumUsage (order (FactorCPU.snapshot fc)))
    as [totalUsage totalConns]. simpl in Hest.
  assert (Hfinal : forall fc0 : FactorCPU.t,
            Float64.IsNaN (FactorCPU.usagePerConn fc0) = false ->
            (0 <? FactorCPU.usagePerConn
                    (if (FactorCPU.usagePerConn fc0 <=? 0)%float
                     then FactorCPU.set_usagePerConn fc0 minCpuPerConn else fc0))%float
            = true).
  { intros fc0 H0. destruct (FactorCPU.usagePerConn fc0 <=? 0)%float eqn:E; simpl.
    - reflexivity.
    - apply float_leb_false_ltb; [exact H0 | reflexivity | exact E]. }
  apply Hfinal.
  destruct (totalConns >? 0) eqn:Hc; [|exact Hnan].
  apply Z.gtb_lt in Hc. specialize (Hest Hc).
  destruct (_ <? minCpuPerConn)%float; [destruct (0.1 <? _)%float|]; simpl; assumption.
Qed.

Lemma cpu_UpdateScore_usagePerConn clock u order (mr : metricsreader.MetricsReader)
    (fc : FactorCPU.t) (backends : list scoredBackend) (n : nat) :
  FactorCPU.usagePerConn fc = 0%float \/ (0 <? FactorCPU.usagePerConn fc)%float = true ->
  let fc' := (FactorCPU.UpdateScore clock u order mr fc backends n).1.1 in
  FactorCPU.usagePerConn fc' = 0%float \/ (0 <? FactorCPU.usagePerConn fc')%float = true.
Proof.
  intros Hfc fc'. subst fc'. unfold FactorCPU.UpdateScore.
  destruct (Z.of_nat (length backends) <=? 1); [exact Hfc|].
  destruct (metricsreader.Err _ || metricsreader.Empty _); [exact Hfc|].
  simpl. unfold mbind, M_bind, monotime.Since, mret, M_ret.
  destruct (negb _); simpl.
  - pose proof (cpu_updateSnapshot_frame clock
                  (FactorCPU.set_lastMetricTime fc
                     (metricsreader.UpdateTime (mr (FactorCPU.queryID fc))))
                  (mr (FactorCPU.queryID fc)) backends n) as (_ & Hu & _).
    destruct (FactorCPU.updateSnapshot clock _ _ backends n) as [fc1 n1].
    simpl in Hu.
    assert (Hpos : (0 <? FactorCPU.usagePerConn (FactorCPU.updateCpuPerConn order fc1))%float
                   = true).
    { apply updateCpuPerConn_positive. rewrite Hu.
      destruct Hfc as [->|Hfc]; [reflexivity|]. now apply float_ltb_not_nan in Hfc. }
    destruct (_ >? cpuMetricExpDuration); simpl; now right.
  - destruct (_ >? cpuMetricExpDuration); exact Hfc.
Qed.

(** The usage per connection is never negative nor NaN.
    [updateCpuPerConn] leaves it positive, whatever the snapshots hold
    and in whatever order they are visited, provided it was not NaN
    before; and in every run of passes from a new factor it is 0 (until
    the first metrics arrive) or positive. *)
Theorem cpu_usagePerConn_positive clock u order :
  (forall fc : FactorCPU.t,
     Float64.IsNaN (FactorCPU.usagePerConn fc) = false ->
     (0 <? FactorCPU.usagePerConn (FactorCPU.updateCpuPerConn order fc))%float = true)
  /\ (forall (AddQueryExpr : metricsreader.QueryExpr -> Z) (passes : list pass),
        let fc := cpu_run clock u order passes (FactorCPU.NewFactorCPU AddQueryExpr) in
        FactorCPU.usagePerConn fc = 0%float
        \/ (0 <? FactorCPU.usagePerConn fc)%float = true).
Proof.
  split; [apply updateCpuPerConn_positive|].
  intros AddQueryExpr passes.
  assert (Hrun : forall fc0 : FactorCPU.t,
            FactorCPU.usagePerConn fc0 = 0%float
            \/ (0 <? FactorCPU.usagePerConn fc0)%float = true ->
            FactorCPU.usagePerConn (cpu_run clock u order passes fc0) = 0%float
            \/ (0 <? FactorCPU.usagePerConn (cpu_run clock u order passes fc0))%float
               = true).
  { unfold cpu_run. induction passes as [|p passes IH]; intros fc0 H0; simpl.
    - exact H0.
    - apply IH. now apply cpu_UpdateScore_usagePerConn. }
  apply Hrun. now left.
Qed.

(** ** The smoothed usage along a run *)

Lemma cpu_updateSnapshot_unit clock (fc : FactorCPU.t) (qr : metricsreader.QueryResult)
    (backends : list scoredBackend) (n : nat) :
  (forall addr s, FactorCPU.snapshot fc !! addr = Some s ->
     in_unit (cpuBackendSnapshot.avgUsage s)) ->
  forall addr s,
    FactorCPU.snapshot (FactorCPU.updateSnapshot clock fc qr backends n).1 !! addr = Some s ->
    in_unit (cpuBackendSnapshot.avgUsage s).
Proof.
  intros Hold addr s Hs.
  apply cpu_updateSnapshot_entries in Hs as [Hkept|(backend & _ & _ & -> & Hpos)].
  - now apply (Hold addr).
  - simpl in *. now apply calcAvgUsage_unit.
Qed.

Lemma cpu_UpdateScore_unit clock u order (mr : metricsreader.MetricsReader)
    (fc : FactorCPU.t) (backends : list scoredBackend) (n : nat) :
  (forall addr s, FactorCPU.snapshot fc !! addr = Some s ->
     in_unit (cpuBackendSnapshot.avgUsage s)) ->
  forall addr s,
    FactorCPU.snapshot (FactorCPU.UpdateScore clock u order mr fc backends n).1.1 !! addr
    = Some s ->
    in_unit (cpuBackendSnapshot.avgUsage s).
Proof.
  intros Hold. unfold FactorCPU.UpdateScore.
  destruct (Z.of_nat (length backends) <=? 1); [exact Hold|].
  destruct (metricsreader.Err _ || metricsreader.Empty _); [exact Hold|].
  simpl. unfold mbind, M_bind, monotime.Since, mret, M_ret.
  destruct (negb _); simpl.
  - pose proof (cpu_updateSnapshot_unit clock
                  (FactorCPU.set_lastMetricTime fc
                     (metricsreader.UpdateTime (mr (FactorCPU.queryID fc))))
                  (mr (FactorCPU.queryID fc)) backends n Hold) as Hnew.
    destruct (FactorCPU.updateSnapshot clock _ _ backends n) as [fc1 n1].
    simpl in Hnew.
    destruct (updateCpuPerConn_frame order fc1) as (Hsnap & _).
    destruct (_ >? cpuMetricExpDuration); simpl; rewrite Hsnap; exact Hnew.
  - destruct (_ >? cpuMetricExpDuration); exact Hold.
Qed.

(** In every run of passes from a new [FactorCPU], the smoothed usage
    of every snapshot the factor holds is in [0, 1]; so the usages
    [getUsage] returns for any backend are a smoothed usage in [0, 1]
    (1 for a backend without snapshot) and a latest usage that is not
    above 1. *)
Theorem cpu_run_avgUsage_unit clock u order (AddQueryExpr : metricsreader.QueryExpr -> Z)
    (passes : list pass) (backend : scoredBackend) :
  let fc := cpu_run clock u order passes (FactorCPU.NewFactorCPU AddQueryExpr) in
  (forall addr s, FactorCPU.snapshot fc !! addr = Some s ->
     in_unit (cpuBackendSnapshot.avgUsage s))
  /\ in_unit (FactorCPU.getUsage fc backend).1
  /\ (1 <? (FactorCPU.getUsage fc backend).2)%float = false.
Proof.
  intros fc.
  assert (Hrun : forall fc0 : FactorCPU.t,
            (forall addr s, FactorCPU.snapshot fc0 !! addr = Some s ->
               in_unit (cpuBackendSnapshot.avgUsage s)) ->
            forall addr s,
              FactorCPU.snapshot (cpu_run clock u order passes fc0) !! addr = Some s ->
              in_unit (cpuBackendSnapshot.avgUsage s)).
  { unfold cpu_run. induction passes as [|p passes IH]; intros fc0 H0; simpl.
    - exact H0.
    - apply IH. now apply cpu_UpdateScore_unit. }
  assert (Hunit : forall addr s, FactorCPU.snapshot fc !! addr = Some s ->
                    in_unit (cpuBackendSnapshot.avgUsage s)).
  { apply Hrun. intros addr s. simpl. rewrite lookup_empty. discriminate. }
  split; [exact Hunit|]. split; [|apply getUsage_latest_clamped].
  unfold FactorCPU.getUsage.
  destruct (FactorCPU.snapshot fc !! Addr backend) as [s|] eqn:Es;
    [|split; reflexivity].
  destruct (Hunit _ _ Es) as [H0 H1].
  change (0 <? 0)%float with false. rewrite orb_false_r.
  rewrite (float_leb_ltb_false _ _ H0). simpl. now split.
Qed.

(** ** Rounding to binary64, from above

    The float [binary_round_aux] returns is not above a binary64 that
    exceeds the value rounded: used for the two divisions of
    [1 / usagePerConn / 600]. *)

Lemma binary_round_aux_le (M E : Z) (l : location) (mc : positive) (ec : Z) :
  0 <= M ->
  valid_binary (S754_finite false mc ec) = true ->
  E <= ec ->
  M < Z.pos mc * 2 ^ (ec - E) ->
  SFbelow (binary_round_aux prec emax false M E l) mc ec.
Proof.
  intros HM Hvalid HE Hval.
  apply valid_binary_canonical in Hvalid as [Hcanon Hec].
  set (dc := Z.log2 (Z.pos mc) + 1) in *.
  (* a number below [mc * 2 ^ k] has no more digits than it *)
  assert (Hdigits : forall x k, 0 <= k -> 0 <= x <= Z.pos mc * 2 ^ k ->
                      Zdigits2 x <= dc + k).
  { intros x k Hk Hx. destruct (Z.eq_dec x 0) as [->|Hne].
    - simpl. pose proof (Z.log2_nonneg (Z.pos mc)). lia.
    - rewrite Zdigits2_log2 by lia.
      pose proof (Z.log2_le_mono x (Z.pos mc * 2 ^ k) ltac:(lia)) as Hmono.
      rewrite Z.log2_mul_pow2 in Hmono by lia. lia. }
  unfold binary_round_aux.
  destruct (shr_fexp_shift M E l HM) as (mrs1 & -> & Hm1).
  set (k1 := Z.max 0 (fexp prec emax (Zdigits2 M + E) - E)) in *.
  assert (Hfexp : forall x, fexp prec emax x = Z.max (x - 53) (-1074)) by reflexivity.
  pose proof (Hdigits M (ec - E) ltac:(lia) ltac:(lia)) as HdM.
  assert (Hk1 : 0 <= k1 <= ec - E) by (subst k1; rewrite Hfexp; lia).
  set (e1 := E + k1) in *.
  set (m1 := shr_m mrs1) in *.
  assert (Hp1 : 0 < 2 ^ k1) by (apply Z.pow_pos_nonneg; lia).
  assert (Hm1' : m1 = M / 2 ^ k1) by (rewrite Hm1; apply Z.shiftr_div_pow2; lia).
  assert (Hm1pos : 0 <= m1) by (rewrite Hm1'; apply Z.div_pos; lia).
  assert (Hsplit : 2 ^ (ec - E) = 2 ^ k1 * 2 ^ (ec - e1)).
  { rewrite <- Z.pow_add_r by lia. f_equal. lia. }
  assert (Hm1lt : m1 < Z.pos mc * 2 ^ (ec - e1)).
  { rewrite Hm1'. apply Z.div_lt_upper_bound; [lia|]. rewrite Hsplit in Hval. lia. }
  pose proof (round_nearest_even_bounds m1 (loc_of_shr_record mrs1)) as Hr.
  set (m2 := round_nearest_even m1 (loc_of_shr_record mrs1)) in *.
  destruct (shr_fexp_shift m2 e1 loc_Exact ltac:(lia)) as (mrs2 & -> & Hm3).
  set (k2 := Z.max 0 (fexp prec emax (Zdigits2 m2 + e1) - e1)) in *.
  pose proof (Hdigits m2 (ec - e1) ltac:(lia) ltac:(lia)) as Hd2.
  assert (Hk2 : 0 <= k2 <= ec - e1) by (subst k2; rewrite Hfexp; lia).
  assert (Hp2 : 0 < 2 ^ k2) by (apply Z.pow_pos_nonneg; lia).
  assert (Hm3' : shr_m mrs2 = m2 / 2 ^ k2) by (rewrite Hm3; apply Z.shiftr_div_pow2; lia).
  assert (Hm3pos : 0 <= shr_m mrs2) by (rewrite Hm3'; apply Z.div_pos; lia).
  assert (Hm3le : e1 + k2 = ec -> shr_m mrs2 <= Z.pos mc).
  { intros Heq. rewrite Hm3'. apply Z.div_le_upper_bound; [lia|].
    replace (ec - e1) with k2 in * by lia. lia. }
  destruct (shr_m mrs2) as [|m3|m3] eqn:E3; [now left| |lia].
  change (emax - prec) with 971.
  destruct (Z.leb_spec (e1 + k2) 971) as [Hle|Hgt]; [|lia].
  right. exists m3, (e1 + k2). split; [reflexivity|].
  destruct (Z.eq_dec (e1 + k2) ec) as [Heq|Hne]; [right|left; lia].
  split; [exact Heq|]. specialize (Hm3le Heq). lia.
Qed.

(** The quotient of two positive finite floats is not above a binary64
    that exceeds the exact quotient. *)
Lemma SFdiv_le (mx my mc : positive) (ex ey ec : Z) :
  valid_binary (S754_finite false mc ec) = true ->
  let e' := Z.min (fexp prec emax (Zdigits2 (Z.pos mx) + ex - (Zdigits2 (Z.pos my) + ey)))
              (ex - ey) in
  e' <= ec ->
  Z.pos mx * 2 ^ (ex - ey - e') < Z.pos mc * 2 ^ (ec - e') * Z.pos my ->
  SFbelow (SFdiv prec emax (S754_finite false mx ex) (S754_finite false my ey)) mc ec.
Proof.
  intros Hvalid e' He' Hval. unfold SFdiv, SFdiv_core_binary. fold e'.
  set (m' := match ex - ey - e' with Z0 => Z.pos mx | Z.pos _ => _ | Z.neg _ => 0 end).
  assert (Hs : 0 <= ex - ey - e') by (subst e'; lia).
  assert (Hm' : m' = Z.pos mx * 2 ^ (ex - ey - e')).
  { subst m'. destruct (ex - ey - e') as [|s|s] eqn:Es; try lia.
    rewrite Z.shiftl_mul_pow2 by lia. reflexivity. }
  clearbody m'.
  assert (Hp : 0 < 2 ^ (ex - ey - e')) by (apply Z.pow_pos_nonneg; lia).
  pose proof (Z.div_eucl_eq m' (Z.pos my) ltac:(lia)) as Hdiv.
  pose proof (Z.mod_pos_bound m' (Z.pos my) ltac:(lia)) as Hmod.
  unfold Z.modulo in Hmod.
  destruct (Z.div_eucl m' (Z.pos my)) as [q r].
  change (xorb false false) with false.
  assert (Hpc : 0 < 2 ^ (ec - e')) by (apply Z.pow_pos_nonneg; lia).
  apply binary_round_aux_le; [nia | exact Hvalid | exact He' | nia].
Qed.

(** ** The balance count of FactorCPU at the floor *)

(** A usage per connection at the floor 0.001 or above has an inverse
    of at most 1000. *)
Lemma float_inv_usage_le (x : float) :
  (minCpuPerConn <=? x)%float = true ->
  SFbelow (Prim2SF (1 / x)%float) 8796093022208000 (-43).
Proof.
  rewrite leb_spec, div_spec. unfold SF64div.
  change (Prim2SF minCpuPerConn) with (S754_finite false 4611686018427388 (-62)).
  change (Prim2SF 1) with (S754_finite false 4503599627370496 (-52)).
  pose proof (Prim2SF_valid x) as Hvalid.
  destruct (Prim2SF x) as [s|s| |s m e]; try discriminate.
  - destruct s; [discriminate|]. intros _. now left.
  - destruct s; [discriminate|]. intros Hle.
    assert (Hlex : -62 < e \/ (e = -62 /\ 4611686018427388 <= Z.pos m)).
    { unfold SFleb, SFcompare in Hle. fold (lex_compare (-62) 4611686018427388 e m) in Hle.
      pose proof (lex_compare_spec (-62) 4611686018427388 e m) as Hs.
      destruct (lex_compare (-62) 4611686018427388 e m); try discriminate Hle.
      - destruct Hs as [<- <-]. right. split; [reflexivity|apply Z.le_refl].
      - destruct Hs as [Hs|[<- Hs]]; [now left|].
        right. split; [reflexivity|]. apply Z.lt_le_incl, Hs. }
    clear Hle.
    pose proof (valid_binary_canonical _ _ _ Hvalid) as [Hcanon He].
    assert (Hlog : Z.log2 (Z.pos m) = 52) by lia.
    pose proof (log2_52_pos _ Hlog) as Hm.
    change (2 ^ 52) with 4503599627370496 in Hm.
    apply SFdiv_le; [reflexivity| |].
    + change (Zdigits2 4503599627370496) with 53.
      rewrite (Zdigits2_log2 (Z.pos m)), Hlog by lia. unfold fexp, SpecFloat.emin.
      change (3 - emax - prec) with (-1074). change prec with 53. lia.
    + change (Zdigits2 4503599627370496) with 53.
      rewrite (Zdigits2_log2 (Z.pos m)), Hlog by lia. unfold fexp, SpecFloat.emin.
      change (3 - emax - prec) with (-1074). change prec with 53.
      set (e' := Z.min (Z.max (53 + -52 - (52 + 1 + e) - 53) (-1074)) (-52 - e)).
      assert (He' : e' = Z.max (-105 - e) (-1074)) by (subst e'; lia).
      set (a := -52 - e - e'). set (b := -43 - e').
      assert (Ha : 0 <= a) by (subst a; lia).
      assert (Hb : 0 <= b) by (subst b; lia).
      assert (Hpa : 0 < 2 ^ a) by (apply Z.pow_pos_nonneg; lia).
      assert (Hpb : 0 < 2 ^ b) by (apply Z.pow_pos_nonneg; lia).
      destruct (Z.le_gt_cases (-9) e) as [Hbig|Hsmall].
      * assert (Hab : 2 ^ a <= 2 ^ b) by (apply Z.pow_le_mono_r; subst a b; lia).
        assert (Hprod : 2 ^ a * 4503599627370496 <= 2 ^ b * Z.pos m) by nia.
        lia.
      * assert (Ha53 : a = 53) by (subst a; lia).
        assert (Hb62 : b = 62 + e) by (subst b; lia).
        rewrite Ha53. change (2 ^ 53) with 9007199254740992.
        destruct Hlex as [Hlt|[-> Hmk]].
        -- assert (Hb1 : 2 ^ 1 <= 2 ^ b) by (apply Z.pow_le_mono_r; lia).
           change (2 ^ 1) with 2 in Hb1.
           assert (Hprod : 2 * 4503599627370496 <= 2 ^ b * Z.pos m) by nia.
           lia.
        -- rewrite Hb62. change (62 + -62) with 0. rewrite Z.pow_0_r. lia.
Qed.

(** A float that is at most 1000, divided by 600, is below 2. *)
Lemma float_div_600_le (t : float) :
  SFbelow (Prim2SF t) 8796093022208000 (-43) ->
  SFbelow (Prim2SF (t / balanceRatio4Cpu)%float) 7505999378950827 (-52).
Proof.
  rewrite div_spec. unfold SF64div.
  change (Prim2SF balanceRatio4Cpu) with (S754_finite false 5277655813324800 (-43)).
  pose proof (Prim2SF_valid t) as Hvalid.
  intros [Hz|(mt & et & Ht & Hlex)].
  - rewrite Hz. now left.
  - rewrite Ht in *.
    assert (Hlex' : et < -43 \/ (et = -43 /\ Z.pos mt <= 8796093022208000)).
    { destruct Hlex as [Hlt|[Heq Hle]]; [now left|].
      right. split; [exact Heq|]. exact (Pos2Z.pos_le_pos _ _ Hle). }
    clear Hlex.
    pose proof (valid_binary_canonical _ _ _ Hvalid) as [Hcanon He].
    pose proof (Z.log2_nonneg (Z.pos mt)) as Hlog0.
    assert (Hlog : Z.log2 (Z.pos mt) <= 52) by lia.
    assert (Hmt : Z.pos mt < 9007199254740992).
    { pose proof (Z.log2_spec (Z.pos mt) ltac:(lia)) as Hs.
      assert (Hp : 2 ^ Z.succ (Z.log2 (Z.pos mt)) <= 2 ^ 53)
        by (apply Z.pow_le_mono_r; lia).
      change (2 ^ 53) with 9007199254740992 in Hp. lia. }
    assert (Het : et <= -43) by lia.
    apply SFdiv_le; [reflexivity| |].
    + change (Zdigits2 5277655813324800) with 53.
      rewrite (Zdigits2_log2 (Z.pos mt)) by lia. unfold fexp, SpecFloat.emin.
      change (3 - emax - prec) with (-1074). change prec with 53. lia.
    + change (Zdigits2 5277655813324800) with 53.
      rewrite (Zdigits2_log2 (Z.pos mt)) by lia. unfold fexp, SpecFloat.emin.
      change (3 - emax - prec) with (-1074). change prec with 53.
      set (e' := Z.min (Z.max (Z.log2 (Z.pos mt) + 1 + et - (53 + -43) - 53) (-1074))
                   (et - -43)).
      assert (He' : e' <= -53 /\ e' <= et + 43) by (subst e'; lia).
      set (b := -52 - e').
      assert (Hb : 1 <= b) by (subst b; lia).
      assert (Hpb : 0 < 2 ^ b) by (apply Z.pow_pos_nonneg; lia).
      destruct (Z.eq_dec et (-43)) as [->|Hne].
      * replace (-43 - -43 - e') with (52 + b) by (subst b; lia).
        rewrite Z.pow_add_r by lia. change (2 ^ 52) with 4503599627370496.
        assert (Hm : Z.pos mt <= 8796093022208000) by lia.
        nia.
      * assert (Hs : 2 ^ (et - -43 - e') <= 2 ^ 51 * 2 ^ b).
        { rewrite <- Z.pow_add_r by lia. apply Z.pow_le_mono_r; subst b; lia. }
        change (2 ^ 51) with 2251799813685248 in Hs.
        assert (Hp : 0 < 2 ^ (et - -43 - e')) by (apply Z.pow_pos_nonneg; lia).
        nia.
Qed.

(** A float below 2 truncates to 0 or 1. *)
Lemma SFbelow_trunc (f : float) :
  SFbelow (Prim2SF f) 7505999378950827 (-52) ->
  exists z, Float64.trunc f = Some z /\ 0 <= z <= 1.
Proof.
  pose proof (Prim2SF_valid f) as Hvalid. unfold Float64.trunc.
  intros [->|(m & e & Hf & Hlex)].
  - exists 0. split; [reflexivity|lia].
  - rewrite Hf in *. simpl cond_Zopp.
    assert (Hlex' : e <= -52) by (destruct Hlex as [Hlt|[Heq _]]; lia).
    clear Hlex.
    pose proof (valid_binary_canonical _ _ _ Hvalid) as [Hcanon He].
    pose proof (Z.log2_nonneg (Z.pos m)) as Hlog0.
    assert (Hm : Z.pos m < 9007199254740992).
    { pose proof (Z.log2_spec (Z.pos m) ltac:(lia)) as Hs.
      assert (Hp : 2 ^ Z.succ (Z.log2 (Z.pos m)) <= 2 ^ 53)
        by (apply Z.pow_le_mono_r; lia).
      change (2 ^ 53) with 9007199254740992 in Hp. lia. }
    eexists. split; [reflexivity|].
    rewrite Z.shiftl_div_pow2 by lia.
    assert (Hp : 2 ^ 52 <= 2 ^ (- e)) by (apply Z.pow_le_mono_r; lia).
    change (2 ^ 52) with 4503599627370496 in Hp.
    split; [apply Z.div_pos; lia|].
    assert (Z.pos m / 2 ^ (- e) < 2); [|lia].
    apply Z.div_lt_upper_bound; lia.
Qed.

(** With a usage per connection at the floor 0.001 or above,
    [int(1 / usagePerConn / 600)] is 0 or 1, whatever the conversion
    does with what an [int] cannot hold; so [FactorCPU.BalanceCount]
    asks for one connection per round, or none. *)
Theorem cpu_BalanceCount_at_floor u (fc : FactorCPU.t) (from to : scoredBackend) :
  (minCpuPerConn <=? FactorCPU.usagePerConn fc)%float = true ->
  0 <= Float64.to_int u (1 / FactorCPU.usagePerConn fc / balanceRatio4Cpu)%float <= 1
  /\ (FactorCPU.BalanceCount u fc from to = 0 \/ FactorCPU.BalanceCount u fc from to = 1).
Proof.
  intros Hfloor.
  destruct (SFbelow_trunc _ (float_div_600_le _ (float_inv_usage_le _ Hfloor)))
    as (z & Hz & Hb).
  assert (Hint : Float64.to_int u (1 / FactorCPU.usagePerConn fc / balanceRatio4Cpu)%float
                 = z).
  { apply Float64_to_int_trunc; [exact Hz|].
    unfold Int64.in_range, Int64.min_int, Int64.max_int.
    apply andb_true_iff. split; apply Z.leb_le; lia. }
  split; [rewrite Hint; exact Hb|].
  unfold FactorCPU.BalanceCount.
  destruct (FactorCPU.getUsage fc from) as [fa fl], (FactorCPU.getUsage fc to) as [ta tl].
  destruct (_ && _); [|now left].
  right. rewrite Hint. destruct (Z.gtb_spec z 1); lia.
Qed.

Lemma cpu_BalanceCount_at_floor_witness :
  (minCpuPerConn <=? FactorCPU.usagePerConn cpu_two_loads)%float = true
  /\ 0 <= Float64.to_int (fun _ => 0)
            (1 / FactorCPU.usagePerConn cpu_two_loads / balanceRatio4Cpu)%float <= 1
  /\ (FactorCPU.BalanceCount (fun _ => 0) cpu_two_loads backend_b backend_a = 0
      \/ FactorCPU.BalanceCount (fun _ => 0) cpu_two_loads backend_b backend_a = 1).
Proof.
  assert (Hfloor : (minCpuPerConn <=? FactorCPU.usagePerConn cpu_two_loads)%float = true)
    by reflexivity.
  split; [exact Hfloor|].
  exact (cpu_BalanceCount_at_floor (fun _ => 0) cpu_two_loads backend_b backend_a Hfloor).
Defined.

(** ** The sub-score of a backend that has lost no connection *)

Lemma SFleb_zero_cases (x : spec_float) :
  SFleb (S754_zero false) x = true ->
  (exists s, x = S754_zero s) \/ x = S754_infinity false
  \/ exists m e, x = S754_finite false m e.
Proof.
  destruct x as [s|s| |s m e]; try discriminate.
  - intros _. left. eauto.
  - destruct s; [discriminate|]. intros _. right. now left.
  - destruct s; [discriminate|]. intros _. right. right. eauto.
Qed.

Lemma SFnonneg_leb (x : spec_float) : SFnonneg x -> SFleb (S754_zero false) x = true.
Proof. intros [->|[->|(m & e & ->)]]; reflexivity. Qed.

(** The product of two finite floats that are not negative is not
    negative. *)
Lemma float_mul_nonneg (x y : float) :
  (0 <=? x)%float = true -> (x <? infinity)%float = true ->
  (0 <=? y)%float = true -> (y <? infinity)%float = true ->
  (0 <=? x * y)%float = true.
Proof.
  rewrite !leb_spec, !ltb_spec, mul_spec. unfold SF64mul.
  change (Prim2SF 0) with (S754_zero false).
  change (Prim2SF infinity) with (S754_infinity false).
  intros Hx Hxf Hy Hyf.
  apply SFleb_zero_cases in Hx. apply SFleb_zero_cases in Hy.
  destruct Hx as [[sx Ex]|[Ex|(mx & ex & Ex)]]; rewrite Ex in *;
    destruct Hy as [[sy Ey]|[Ey|(my & ey & Ey)]]; rewrite Ey in *;
    try discriminate Hxf; try discriminate Hyf; try reflexivity.
  apply SFnonneg_leb. unfold SFmul. change (xorb false false) with false.
  destruct (binary_round_aux_sign false (Z.pos (mx * my)) (ex + ey) loc_Exact ltac:(lia))
    as [H|[H|(m & e & H)]]; rewrite H; [now left | right; now left | right; right; eauto].
Qed.

(** The sum of two floats that are not negative is not negative. *)
Lemma float_add_nonneg (x y : float) :
  (0 <=? x)%float = true -> (0 <=? y)%float = true -> (0 <=? x + y)%float = true.
Proof.
  rewrite !leb_spec, add_spec. unfold SF64add.
  change (Prim2SF 0) with (S754_zero false).
  intros Hx Hy.
  apply SFleb_zero_cases in Hx. apply SFleb_zero_cases in Hy.
  destruct Hx as [[sx Ex]|[Ex|(mx & ex & Ex)]]; rewrite Ex;
    destruct Hy as [[sy Ey]|[Ey|(my & ey & Ey)]]; rewrite Ey;
    try reflexivity; try (destruct sx; reflexivity); try (destruct sx, sy; reflexivity).
  apply SFnonneg_leb. unfold SFadd. apply binary_normalize_nonneg. simpl cond_Zopp. lia.
Qed.

(** [float64(n)] of a count is finite and not negative. *)
Lemma float_of_int_nonneg (n : Z) :
  0 <= n <= Int64.max_int ->
  (0 <=? Float64.of_int n)%float = true /\ (Float64.of_int n <? infinity)%float = true.
Proof.
  intros Hn. destruct (Z.eq_dec n 0) as [->|Hne]; [split; reflexivity|].
  destruct (of_int_pos_finite n ltac:(lia)) as (m & e & H).
  rewrite leb_spec, ltb_spec, H. split; reflexivity.
Qed.

(** The conversion of a latest usage in [0, 1] to a sub-score. *)
Lemma cpuScore_of_unit u (latestUsage : float) :
  (0 <=? latestUsage)%float = true -> (latestUsage <=? 1)%float = true ->
  0 <= Int64.quot (Float64.to_int u (latestUsage * 100)%float) cpuScoreStep <= 20.
Proof.
  intros H0 H1. pose proof (usage_times_100 u _ H0 H1) as Hint.
  unfold Int64.quot, cpuScoreStep.
  set (z := Float64.to_int u (latestUsage * 100)) in *.
  assert (Hq : 0 <= z ÷ 5 <= 20).
  { rewrite Z.quot_div_nonneg by lia. split.
    - apply Z.div_pos; lia.
    - apply Z.div_le_upper_bound; lia. }
  rewrite Int64_wrap_small by (unfold Int64.min_int, Int64.max_int; lia). exact Hq.
Qed.

(** A backend that has lost no connection since its snapshot was taken
    gets a sub-score between 0 and 20, which fits the five bits of
    [FactorCPU]: when the connection score is not below the connection
    count of the snapshot, the latest usage of the snapshot is not
    negative and the usage per connection is finite and not negative,
    the usage [getUsage] extrapolates is in [0, 1]. *)
Theorem cpu_score_fits_growing u (fc : FactorCPU.t) (backend : scoredBackend)
    (s : cpuBackendSnapshot.t) :
  FactorCPU.snapshot fc !! Addr backend = Some s ->
  (0 <=? cpuBackendSnapshot.latestUsage s)%float = true ->
  0 <= cpuBackendSnapshot.connCount s <= ConnScore backend ->
  ConnScore backend <= Int64.max_int ->
  (0 <=? FactorCPU.usagePerConn fc)%float = true ->
  (FactorCPU.usagePerConn fc <? infinity)%float = true ->
  in_unit (FactorCPU.getUsage fc backend).2
  /\ 0 <= FactorCPU.cpuScore u fc backend <= 20
  /\ FactorCPU.cpuScore u fc backend < 2 ^ 5.
Proof.
  intros Hs Hlatest Hconn Hmax Hupc Hfin.
  assert (Hunit : in_unit (FactorCPU.getUsage fc backend).2).
  { unfold FactorCPU.getUsage. rewrite Hs.
    change (0 <? 0)%float with false. rewrite orb_false_r.
    destruct (cpuBackendSnapshot.avgUsage s <? 0)%float; [split; reflexivity|].
    assert (Hdiff : Int64.sub (ConnScore backend) (cpuBackendSnapshot.connCount s)
                    = ConnScore backend - cpuBackendSnapshot.connCount s).
    { unfold Int64.sub. apply Int64_wrap_small.
      unfold Int64.min_int, Int64.max_int in *. lia. }
    rewrite Hdiff.
    destruct (float_of_int_nonneg (ConnScore backend - cpuBackendSnapshot.connCount s)
                ltac:(lia)) as [Hn0 Hnf].
    pose proof (float_add_nonneg _ _ Hlatest (float_mul_nonneg _ _ Hn0 Hnf Hupc Hfin))
      as Hsum.
    match goal with
    | |- context [if (1 <? ?l)%float then _ else _] =>
        destruct (1 <? l)%float eqn:Hclamp; simpl; [split; reflexivity|]
    end.
    split; [exact Hsum|].
    apply float_ltb_false_leb; [reflexivity| |exact Hclamp].
    now apply float_leb_not_nan in Hsum. }
  split; [exact Hunit|].
  destruct Hunit as [H0 H1].
  pose proof (cpuScore_of_unit u _ H0 H1) as Hscore.
  unfold FactorCPU.cpuScore.
  destruct (FactorCPU.getUsage fc backend) as [avgUsage latestUsage]. simpl in *.
  change (2 ^ 5) with 32. lia.
Qed.

Lemma cpu_score_fits_growing_witness :
  let grown := {| Addr := "a"; ConnCount := 300; ConnScore := 300; scoreBits := 0 |} in
  exists s,
    FactorCPU.snapshot cpu_two_loads !! Addr grown = Some s
    /\ (0 <=? cpuBackendSnapshot.latestUsage s)%float = true
    /\ 0 <= cpuBackendSnapshot.connCount s <= ConnScore grown
    /\ ConnScore grown <= Int64.max_int
    /\ (0 <=? FactorCPU.usagePerConn cpu_two_loads)%float = true
    /\ (FactorCPU.usagePerConn cpu_two_loads <? infinity)%float = true
    /\ in_unit (FactorCPU.getUsage cpu_two_loads grown).2
    /\ 0 <= FactorCPU.cpuScore (fun _ => 0) cpu_two_loads grown <= 20
    /\ FactorCPU.cpuScore (fun _ => 0) cpu_two_loads grown < 2 ^ 5.
Proof.
  intros grown.
  exists {| cpuBackendSnapshot.updatedTime := 9 * time.Minute;
            cpuBackendSnapshot.avgUsage := 0.2%float;
            cpuBackendSnapshot.latestUsage := 0.2%float;
            cpuBackendSnapshot.connCount := 10 |}.
  assert (Hs : FactorCPU.snapshot cpu_two_loads !! Addr grown
               = Some {| cpuBackendSnapshot.updatedTime := 9 * time.Minute;
                         cpuBackendSnapshot.avgUsage := 0.2%float;
                         cpuBackendSnapshot.latestUsage := 0.2%float;
                         cpuBackendSnapshot.connCount := 10 |})
    by (vm_compute; reflexivity).
  assert (Hl : (0 <=? 0.2)%float = true) by reflexivity.
  assert (Hc : 0 <= 10 <= ConnScore grown) by (simpl; lia).
  assert (Hm : ConnScore grown <= Int64.max_int) by (vm_compute; discriminate).
  assert (Hu : (0 <=? FactorCPU.usagePerConn cpu_two_loads)%float = true) by reflexivity.
  assert (Hf : (FactorCPU.usagePerConn cpu_two_loads <? infinity)%float = true)
    by reflexivity.
  split; [exact Hs|]. split; [exact Hl|]. split; [exact Hc|]. split; [exact Hm|].
  split; [exact Hu|]. split; [exact Hf|].
  exact (cpu_score_fits_growing (fun _ => 0) cpu_two_loads grown _ Hs Hl Hc Hm Hu Hf).
Defined.
